(** * A to-do list application: validation, persistence and task registry

    Shallow embedding of the JavaScript sources
      - js/validation.js  (InputValidator, ValidationResult)
      - js/todo.js        (Todo)
      - js/storage.js     (StorageManager, StorageResult)
      - js/app.js         (TodoApp: initialize, addTodo, toggleTodo, deleteTodo,
                           clearAllTodos and the read projections)
    followed by the properties of the specification that concern them. *)

From Stdlib Require Import ZArith NArith QArith Lia Ascii String DecimalString DecimalZ.
From stdpp Require Import base option list strings gmap.

Set Warnings "-register-all".

Local Open Scope bool_scope.
Local Open Scope string_scope.
Local Open Scope list_scope.

(** ** JavaScript strings

    A JavaScript string is a sequence of UTF-16 code units; [length] is the
    [.length] of the source. *)

Abbreviation char16 := N (only parsing).
Abbreviation jsstring := (list N) (only parsing).

(** An ASCII literal of the source as a sequence of code units. *)
Definition js (s : string) : jsstring :=
  N_of_ascii <$> list_ascii_of_string s.

(** WhiteSpace and LineTerminator of ECMAScript: what [String.prototype.trim]
    strips and what [\s] matches. *)
Definition isWhiteSpace (c : N) : bool :=
  ((9 <=? c) && (c <=? 13))%N || (c =? 32)%N || (c =? 0xA0)%N || (c =? 0x1680)%N
  || ((0x2000 <=? c) && (c <=? 0x200A))%N
  || (c =? 0x2028)%N || (c =? 0x2029)%N || (c =? 0x202F)%N || (c =? 0x205F)%N
  || (c =? 0x3000)%N || (c =? 0xFEFF)%N.

Fixpoint trimStart (s : jsstring) : jsstring :=
  match s with
  | c :: s' => if isWhiteSpace c then trimStart s' else s
  | [] => []
  end.

Definition trimEnd (s : jsstring) : jsstring := rev (trimStart (rev s)).

Definition trim (s : jsstring) : jsstring := trimEnd (trimStart s).

(** [s.replace(/c/g, r)] for a one-character pattern [c]. *)
Fixpoint replaceAll (c : N) (r : jsstring) (s : jsstring) : jsstring :=
  match s with
  | [] => []
  | x :: s' => (if (x =? c)%N then r else [x]) ++ replaceAll c r s'
  end.

(** ** Regular expressions

    The fragment of the ECMAScript pattern language that the four patterns of
    [containsUnsafeCharacters] use, with a backtracking matcher in
    continuation-passing style.  The matcher carries the code unit before the
    current position, which [\b] inspects. *)
Module RegExp.

Inductive regex : Type :=
| Chr (p : N -> bool)        (* one code unit of a class *)
| Eps
| Seq (r1 r2 : regex)
| Alt (r1 r2 : regex)
| Star (r : regex)           (* r*  *)
| NotAhead (r : regex)       (* (?!r) *)
| WordBoundary.              (* \b *)

(** [\w]: the flags are [gi] without [u], so the class is the basic one. *)
Definition isWordChar (c : N) : bool :=
  ((48 <=? c) && (c <=? 57))%N || ((65 <=? c) && (c <=? 90))%N
  || ((97 <=? c) && (c <=? 122))%N || (c =? 95)%N.

Definition isWordCharAt (c : option N) : bool :=
  match c with Some x => isWordChar x | None => false end.

(** Canonicalize of the [i] flag (non-unicode mode) on the code units that can
    equal an ASCII pattern character: a code unit of 128 or more never
    canonicalizes to an ASCII one, so it is left alone here. *)
Definition canonicalize (c : N) : N :=
  if ((97 <=? c) && (c <=? 122))%N then (c - 32)%N else c.

(** One pattern character under the [i] flag. *)
Definition chr_i (a : ascii) : regex :=
  Chr (fun x => (canonicalize x =? canonicalize (N_of_ascii a))%N).

Definition seqs (rs : list regex) : regex := foldr Seq Eps rs.

(** A literal run of pattern characters under the [i] flag. *)
Definition lit_i (s : string) : regex := seqs (chr_i <$> list_ascii_of_string s).

Definition Plus (r : regex) : regex := Seq r (Star r).

(** [rmatch r prev s k]: [r] matches a prefix of [s] (the code unit before [s]
    being [prev]) such that the continuation [k] accepts what follows.  An
    iteration of [Star] that consumes nothing is rejected, as in ECMAScript;
    each iteration therefore shortens the input, and [length s] iterations
    are enough.  Alternatives are tried in the order of the backtracking
    matcher (the longer repetition first). *)
Fixpoint rmatch (r : regex) (prev : option N) (s : jsstring)
    (k : option N -> jsstring -> bool) {struct r} : bool :=
  match r with
  | Chr p =>
      match s with
      | c :: s' => if p c then k (Some c) s' else false
      | [] => false
      end
  | Eps => k prev s
  | Seq r1 r2 => rmatch r1 prev s (fun prev' s' => rmatch r2 prev' s' k)
  | Alt r1 r2 => if rmatch r1 prev s k then true else rmatch r2 prev s k
  | Star r1 =>
      (fix star (fuel : nat) (prev : option N) (s : jsstring) {struct fuel} : bool :=
         match fuel with
         | O => k prev s
         | S fuel' =>
             if rmatch r1 prev s
                  (fun prev' s' =>
                     if (length s' <? length s)%nat then star fuel' prev' s' else false)
             then true
             else k prev s
         end) (length s) prev s
  | NotAhead r1 => if rmatch r1 prev s (fun _ _ => true) then false else k prev s
  | WordBoundary =>
      if xorb (isWordCharAt prev) (isWordCharAt (head s)) then k prev s else false
  end.

(** A match starting at some position of the input. *)
Fixpoint search (r : regex) (prev : option N) (s : jsstring) : bool :=
  if rmatch r prev s (fun _ _ => true) then true
  else match s with
       | c :: s' => search r (Some c) s'
       | [] => false
       end.

(** [pattern.test(text)] for a pattern whose [lastIndex] is 0 (the patterns
    are literals evaluated anew on every call). *)
Definition test (r : regex) (text : jsstring) : bool := search r None text.

End RegExp.

(** ** js/validation.js *)

(** JSON-like JavaScript values: what [JSON.parse] yields, and what a caller
    may pass where a string is expected.  Numbers are the finite doubles, as
    rationals.  An object is the list of its own properties, in order, one
    entry per key.  [undefined] is [None] of [option json]. *)
Inductive json : Type :=
| JNull
| JBool (b : bool)
| JNumber (x : Q)
| JString (s : jsstring)
| JArray (l : list json)
| JObject (fields : list (jsstring * json)).

Abbreviation value := (option json) (only parsing).
Abbreviation undefined := (@None json) (only parsing).

Module ValidationResult.

Record t : Type := mk { isValid : bool; errorMessage : option string }.

Definition success : t := mk true None.
Definition error (message : string) : t := mk false (Some message).

End ValidationResult.

Module InputValidator.

Import RegExp.

Definition notLt : regex := Chr (fun c => negb (c =? 60)%N).   (* [^<] *)
Definition wordChar : regex := Chr isWordChar.                    (* \w *)
Definition space : regex := Chr isWhiteSpace.                     (* \s *)

(** The two tag patterns of the source, with TAG for script or iframe and the
    tokens spaced out:
      <TAG  \b  [^<]*  (?: (?!<\/TAG>) < [^<]* ) *  <\/TAG>     flags gi *)
Definition tagPattern (open close : string) : regex :=
  seqs [ lit_i open; WordBoundary; Star notLt;
         Star (seqs [NotAhead (lit_i close); Chr (fun c => (c =? 60)%N); Star notLt]);
         lit_i close ].

Definition scriptPattern : regex := tagPattern "<script" "</script>".
Definition iframePattern : regex := tagPattern "<iframe" "</iframe>".

(** /javascript:/gi *)
Definition javascriptPattern : regex := lit_i "javascript:".

(** /on\w+\s*=/gi *)
Definition handlerPattern : regex :=
  seqs [lit_i "on"; Plus wordChar; Star space; Chr (fun c => (c =? 61)%N)].

Definition unsafePatterns : list regex :=
  [scriptPattern; iframePattern; javascriptPattern; handlerPattern].

Definition containsUnsafeCharacters (text : jsstring) : bool :=
  existsb (fun pattern => test pattern text) unsafePatterns.

Definition MSG_MISSING : string := "タスクのテキストが入力されていません".
Definition MSG_NOT_STRING : string := "タスクのテキストは文字列である必要があります".
Definition MSG_EMPTY : string := "タスクのテキストは空にできません".
Definition MSG_TOO_LONG : string := "タスクのテキストは200文字以内で入力してください".
Definition MSG_TOO_SHORT : string := "タスクのテキストは1文字以上入力してください".
Definition MSG_UNSAFE : string := "使用できない文字が含まれています".

Definition validateTaskText (text : value) : ValidationResult.t :=
  match text with
  | None | Some JNull => ValidationResult.error MSG_MISSING
  | Some (JString s) =>
      let trimmedText := trim s in
      if (length trimmedText =? 0)%nat then ValidationResult.error MSG_EMPTY
      else if (200 <? length trimmedText)%nat then ValidationResult.error MSG_TOO_LONG
      else if (length trimmedText <? 1)%nat then ValidationResult.error MSG_TOO_SHORT
      else if containsUnsafeCharacters trimmedText then ValidationResult.error MSG_UNSAFE
      else ValidationResult.success
  | Some _ => ValidationResult.error MSG_NOT_STRING
  end.

(** The five replacements are applied one after the other, [&] first. *)
Definition escapeHtml (s : jsstring) : jsstring :=
  replaceAll 39 (js "&#x27;")
    (replaceAll 34 (js "&quot;")
       (replaceAll 62 (js "&gt;")
          (replaceAll 60 (js "&lt;")
             (replaceAll 38 (js "&amp;") s)))).

Definition sanitizeText (text : value) : jsstring :=
  match text with
  | Some (JString s) => trim (escapeHtml s)
  | _ => []
  end.

(** [!text || typeof text !== 'string'] is false exactly on a non-empty
    string. *)
Definition nonEmptyString (text : value) : option jsstring :=
  match text with
  | Some (JString s) => if (length s =? 0)%nat then None else Some s
  | _ => None
  end.

Definition MSG_INPUT_EMPTY : string := "入力は空にできません".
Definition MSG_TEXT_INVALID : string := "テキストが無効です".

Definition validateNotEmpty (text : value) : ValidationResult.t :=
  match nonEmptyString text with
  | Some s =>
      if (length (trim s) =? 0)%nat then ValidationResult.error MSG_INPUT_EMPTY
      else ValidationResult.success
  | None => ValidationResult.error MSG_INPUT_EMPTY
  end.

(** A length interpolated in a message. *)
Definition ofNat (n : nat) : string := NilZero.string_of_uint (Nat.to_uint n).

(** [validateMaxLength(text, maxLength)]; the default of [maxLength] is 200. *)
Definition validateMaxLength (text : value) (maxLength : nat) : ValidationResult.t :=
  match nonEmptyString text with
  | None => ValidationResult.error MSG_TEXT_INVALID
  | Some s =>
      if (maxLength <? length (trim s))%nat
      then ValidationResult.error
             ("テキストは" +:+ ofNat maxLength +:+ "文字以内で入力してください")
      else ValidationResult.success
  end.

(** [validateMinLength(text, minLength)]; the default of [minLength] is 1. *)
Definition validateMinLength (text : value) (minLength : nat) : ValidationResult.t :=
  match nonEmptyString text with
  | None => ValidationResult.error MSG_TEXT_INVALID
  | Some s =>
      if (length (trim s) <? minLength)%nat
      then ValidationResult.error
             ("テキストは" +:+ ofNat minLength +:+ "文字以上入力してください")
      else ValidationResult.success
  end.

Fixpoint validateAll (text : value) (validators : list (value -> ValidationResult.t))
    : ValidationResult.t :=
  match validators with
  | [] => ValidationResult.success
  | validator :: validators' =>
      let result := validator text in
      if negb (ValidationResult.isValid result) then result
      else validateAll text validators'
  end.

End InputValidator.

(** ** Exceptions

    Code that may throw returns a [completion]: the value, or the error
    thrown.  Only the [name] and the [message] of an error are inspected. *)
Record JsError : Type := mkError { name : string; message : string }.

Inductive completion (A : Type) : Type :=
| Return (a : A)
| Throw (e : JsError).
Arguments Return {A} a.
Arguments Throw {A} e.

#[global] Instance completion_bind : MBind completion := fun A B f c =>
  match c with
  | Return a => f a
  | Throw e => Throw e
  end.

(** [new Error(message)] *)
Definition Error (message : string) : JsError := mkError "Error" message.

(** ** The Date built-in

    A valid Date is its time value: the milliseconds since the epoch, an
    integer of magnitude at most 8.64e15.  An invalid Date is [None]. *)
Module JSDate.

Local Open Scope Z_scope.

Definition msPerDay : Z := 86400000.
Definition maxTime : Z := 8640000000000000.

Definition time_ok (t : Z) : Prop := - maxTime <= t <= maxTime.

(** TimeClip on a finite number: out of range gives NaN, else truncation. *)
Definition TimeClip (x : Q) : option Z :=
  if Z.abs (Qnum x) <=? maxTime * Z.pos (Qden x)
  then Some (Z.quot (Qnum x) (Z.pos (Qden x)))
  else None.

(** Year, month (1 to 12) and day of the month of a day number (days since
    the epoch), in the proleptic Gregorian calendar. *)
Definition civil_from_days (day : Z) : Z * Z * Z :=
  let z := day + 719468 in
  let era := z / 146097 in
  let doe := z mod 146097 in
  let yoe := (doe - doe / 1460 + doe / 36524 - doe / 146096) / 365 in
  let doy := doe - (365 * yoe + yoe / 4 - yoe / 100) in
  let mp := (5 * doy + 2) / 153 in
  let d := doy - (153 * mp + 2) / 5 + 1 in
  let m := if mp <? 10 then mp + 3 else mp - 9 in
  (yoe + era * 400 + (if m <=? 2 then 1 else 0), m, d).

Definition digit (n : Z) : N := Z.to_N (48 + n).

(** [n] in decimal on exactly [w] digits. *)
Fixpoint digits (w : nat) (n : Z) : jsstring :=
  match w with
  | O => []
  | S w' => digit (n / 10 ^ Z.of_nat w') :: digits w' (n mod 10 ^ Z.of_nat w')
  end.

(** The year of the ISO format: four digits, or a sign and six digits. *)
Definition isoYear (y : Z) : jsstring :=
  if (0 <=? y) && (y <=? 9999) then digits 4 y
  else (if 0 <? y then js "+" else js "-") ++ digits 6 (Z.abs y).

(** [Date.prototype.toISOString] of a valid Date: YYYY-MM-DDTHH:mm:ss.sssZ *)
Definition toISOString (t : Z) : jsstring :=
  let '(y, m, d) := civil_from_days (t / msPerDay) in
  let ms := t mod msPerDay in
  isoYear y ++ js "-" ++ digits 2 m ++ js "-" ++ digits 2 d ++ js "T"
  ++ digits 2 (ms / 3600000) ++ js ":" ++ digits 2 (ms / 60000 mod 60) ++ js ":"
  ++ digits 2 (ms / 1000 mod 60) ++ js "." ++ digits 3 (ms mod 1000) ++ js "Z".

End JSDate.

(** What [new Date(v)] makes of a string, an array or an object depends on
    the engine beyond the ISO format (ECMAScript leaves other date texts to
    the implementation).  The development is parametric in it; the one law is
    that the text produced by [toISOString] is read back. *)
Class DateEngine : Type := {
  (** [Date.parse]: the time value, [None] for NaN. *)
  Date_parse : jsstring -> option Z;
  (** [new Date(v)] for an array or an object [v] (conversion to a primitive,
      then as for a string): [None] when the Date is invalid or the conversion
      throws. *)
  Date_of_object : json -> option Z;
  Date_parse_toISOString :
    forall t, JSDate.time_ok t -> Date_parse (JSDate.toISOString t) = Some t
}.

(** [new Date(v)] with one argument. *)
Definition Date_new `{DateEngine} (v : value) : option Z :=
  match v with
  | None => None
  | Some JNull => Some 0%Z
  | Some (JBool b) => Some (if b then 1 else 0)%Z
  | Some (JNumber x) => JSDate.TimeClip x
  | Some (JString s) => Date_parse s
  | Some j => Date_of_object j
  end.

(** ** js/todo.js *)
Module Todo.

(** A constructed Todo.  [createdAt] is the time value of its (valid) Date. *)
Record t : Type := mk {
  id : jsstring;
  text : jsstring;
  completed : bool;
  createdAt : Z
}.

Definition MSG_ID : string := "ID は空でない文字列である必要があります".
Definition MSG_TEXT_TYPE : string := "テキストは文字列である必要があります".
Definition MSG_TEXT_EMPTY : string := "タスクのテキストは空にできません".
Definition MSG_TEXT_LONG : string := "タスクのテキストは200文字以内である必要があります".
Definition MSG_COMPLETED : string := "完了状態はboolean値である必要があります".
Definition MSG_CREATED_AT : string := "作成日時は有効なDate オブジェクトである必要があります".

(** Each validation returns the checked value at its type, or throws. *)
Definition validateId (id : value) : completion jsstring :=
  match id with
  | Some (JString s) =>
      if (length s =? 0)%nat || (length (trim s) =? 0)%nat
      then Throw (Error MSG_ID) else Return s
  | _ => Throw (Error MSG_ID)
  end.

Definition validateText (text : value) : completion jsstring :=
  match text with
  | Some (JString s) =>
      if (length s =? 0)%nat then Throw (Error MSG_TEXT_TYPE)
      else
        let trimmedText := trim s in
        if (length trimmedText =? 0)%nat then Throw (Error MSG_TEXT_EMPTY)
        else if (200 <? length trimmedText)%nat then Throw (Error MSG_TEXT_LONG)
        else Return s
  | _ => Throw (Error MSG_TEXT_TYPE)
  end.

Definition validateCompleted (completed : value) : completion bool :=
  match completed with
  | Some (JBool b) => Return b
  | _ => Throw (Error MSG_COMPLETED)
  end.

Definition validateCreatedAt (createdAt : option Z) : completion Z :=
  match createdAt with
  | Some time => Return time
  | None => Throw (Error MSG_CREATED_AT)
  end.

(** [new Todo(id, text, completed, createdAt)].  An [undefined] third
    argument takes the default [false]; a caller that omits the fourth
    passes the current time, which is what the default [new Date()] is. *)
Definition new (id text completed : value) (createdAt : option Z) : completion t :=
  let completed := match completed with None => Some (JBool false) | c => c end in
  id' ← validateId id;
  text' ← validateText text;
  completed' ← validateCompleted completed;
  createdAt' ← validateCreatedAt createdAt;
  Return (mk id' text' completed' createdAt').

Definition toggle (this : t) : completion t :=
  new (Some (JString (id this))) (Some (JString (text this)))
      (Some (JBool (negb (completed this)))) (Some (createdAt this)).

Definition updateText (this : t) (newText : value) : completion t :=
  new (Some (JString (id this))) newText
      (Some (JBool (completed this))) (Some (createdAt this)).

Definition toJSON (this : t) : json :=
  JObject [ (js "id", JString (id this));
            (js "text", JString (text this));
            (js "completed", JBool (completed this));
            (js "createdAt", JString (JSDate.toISOString (createdAt this))) ].

(** [o.key] for one of the four keys read by [fromJSON]: a [TypeError] on
    [null], the own property of an object, [undefined] on anything else
    (no prototype carries these keys). *)
Definition getProperty (o : json) (key : jsstring) : completion value :=
  match o with
  | JNull => Throw (mkError "TypeError" "Cannot read properties of null")
  | JObject fields => Return (snd <$> List.find (fun kv => bool_decide (fst kv = key)) fields)
  | _ => Return None
  end.

(** [Todo.fromJSON(json)].  The four properties are read and the Date is
    built before the constructor runs. *)
Definition fromJSON `{DateEngine} (json : json) : completion t :=
  id ← getProperty json (js "id");
  text ← getProperty json (js "text");
  completed ← getProperty json (js "completed");
  createdAt ← getProperty json (js "createdAt");
  new id text completed (Date_new createdAt).

(** [Number.prototype.toString] on an integer below 1e21. *)
Definition decimal (n : Z) : jsstring :=
  js (NilZero.string_of_int (Z.to_int n)).

(** [Todo.generateId()]: [now] is [Date.now()] and [random] the nine
    characters at most cut out of [Math.random().toString(36)]. *)
Definition generateId (now : Z) (random : jsstring) : jsstring :=
  js "todo_" ++ decimal now ++ js "_" ++ random.

End Todo.

(** ** The durable medium: [window.localStorage]

    The medium maps keys to strings.  Of a stored string the code only asks
    whether it is empty and what [JSON.parse] makes of it, so a stored string
    is represented by that: the document it parses to, or the raw text when
    it is not JSON.  [JSON.stringify] produces the text of a document. *)
Module LocalStorage.

Inductive entry : Type :=
| NotJSON (s : jsstring)     (* a text on which JSON.parse throws *)
| Doc (j : json).            (* the serialization of [j] *)

(** The contents, and the exceptions that the three methods raise: a quota
    error may depend on the key and on the value written. *)
Record t : Type := mk {
  items : gmap string entry;
  setItem_raises : string -> entry -> option JsError;
  getItem_raises : string -> option JsError;
  removeItem_raises : string -> option JsError
}.

Definition setItem (key : string) (v : entry) (ls : t) : completion t :=
  match setItem_raises ls key v with
  | Some e => Throw e
  | None => Return (mk (<[key := v]> (items ls)) (setItem_raises ls)
                       (getItem_raises ls) (removeItem_raises ls))
  end.

Definition getItem (key : string) (ls : t) : completion (option entry) :=
  match getItem_raises ls key with
  | Some e => Throw e
  | None => Return (items ls !! key)
  end.

Definition removeItem (key : string) (ls : t) : completion t :=
  match removeItem_raises ls key with
  | Some e => Throw e
  | None => Return (mk (delete key (items ls)) (setItem_raises ls)
                       (getItem_raises ls) (removeItem_raises ls))
  end.

(** Truthiness of a stored string: only the empty string is falsy. *)
Definition truthy (v : entry) : bool :=
  match v with
  | NotJSON s => negb (length s =? 0)%nat
  | Doc _ => true
  end.

Definition JSON_stringify (j : json) : entry := Doc j.

Definition JSON_parse (v : entry) : completion json :=
  match v with
  | Doc j => Return j
  | NotJSON _ => Throw (mkError "SyntaxError" "Unexpected token")
  end.

End LocalStorage.

(** ** js/storage.js *)
Module StorageResult.

Record t (A : Type) : Type := mk {
  success : bool;
  data : option A;
  error : option string
}.
Arguments mk {A} _ _ _.
Arguments success {A} _.
Arguments data {A} _.
Arguments error {A} _.

(** The static [success(data)] and [error(message)] of the source. *)
Definition ok {A : Type} (data : option A) : t A := mk true data None.
Definition fail {A : Type} (error : string) : t A := mk false None (Some error).

End StorageResult.

Module StorageManager.

Import LocalStorage.

Record t : Type := mk {
  isLocalStorageAvailable : bool;
  fallbackData : list json;
  localStorage : LocalStorage.t
}.

Definition STORAGE_KEY : string := "simple-todo-app-todos".

Definition checkLocalStorageSupport (ls : LocalStorage.t) : bool * LocalStorage.t :=
  let testKey := "__localStorage_test__" in
  match setItem testKey (NotJSON (js "test")) ls with
  | Throw _ => (false, ls)
  | Return ls1 =>
      match removeItem testKey ls1 with
      | Throw _ => (false, ls1)
      | Return ls2 => (true, ls2)
      end
  end.

(** [new StorageManager()] in a world whose medium is [ls]. *)
Definition new (ls : LocalStorage.t) : t :=
  let '(available, ls') := checkLocalStorageSupport ls in
  mk available [] ls'.

(** What a caller may pass to [saveTodos]: any value; the elements of an
    array are instances of Todo or something else. *)
Inductive element : Type :=
| Instance (todo : Todo.t)
| NotInstance (v : value).

Inductive argument : Type :=
| NotArray (v : value)
| Array (l : list element).

Definition MSG_NOT_ARRAY : string := "保存するデータは配列である必要があります".
Definition MSG_NOT_TODO : string := "配列にはTodoインスタンスのみを含める必要があります".
Definition MSG_QUOTA : string :=
  "ストレージ容量が不足しています。不要なデータを削除してください。".

(** The loop over the elements: the Todos, unless one is not an instance. *)
Fixpoint instances (l : list element) : option (list Todo.t) :=
  match l with
  | [] => Some []
  | Instance todo :: l' => cons todo <$> instances l'
  | NotInstance _ :: _ => None
  end.

(** [saveTodos].  Inside the [try], only [setItem] can throw.  In the
    [catch], a quota error is reported at once; any other error falls back
    to the memory buffer, where the conversion cannot throw again. *)
Definition saveTodos (todos : argument) (this : t) : StorageResult.t unit * t :=
  match todos with
  | NotArray _ => (StorageResult.fail MSG_NOT_ARRAY, this)
  | Array l =>
      match instances l with
      | None => (StorageResult.fail MSG_NOT_TODO, this)
      | Some ts =>
          let todosJson := Todo.toJSON <$> ts in
          let dataString := JSON_stringify (JArray todosJson) in
          if isLocalStorageAvailable this then
            match setItem STORAGE_KEY dataString (localStorage this) with
            | Return ls' =>
                (StorageResult.ok None, mk true (fallbackData this) ls')
            | Throw error =>
                if String.eqb (name error) "QuotaExceededError"
                then (StorageResult.fail MSG_QUOTA, this)
                else (StorageResult.ok None,
                      mk true todosJson (localStorage this))
            end
          else (StorageResult.ok None, mk false todosJson (localStorage this))
      end
  end.

Section Load.
Context `{DateEngine}.

(** The [map] with its inner [try] and the [filter] of [loadTodos]. *)
Definition restore (todosJson : list json) : list Todo.t :=
  omap (fun todoJson =>
          match Todo.fromJSON todoJson with
          | Return todo => Some todo
          | Throw _ => None
          end) todosJson.

(** [loadTodos]: every exception of the outer [try] ends in the same
    [success([])]. *)
Definition loadTodos (this : t) : StorageResult.t (list Todo.t) :=
  let dataString : completion (option entry) :=
    if isLocalStorageAvailable this
    then getItem STORAGE_KEY (localStorage this)
    else if (0 <? length (fallbackData this))%nat
         then Return (Some (JSON_stringify (JArray (fallbackData this))))
         else Return None in
  match dataString with
  | Throw _ => StorageResult.ok (Some [])
  | Return None => StorageResult.ok (Some [])
  | Return (Some s) =>
      if negb (truthy s) then StorageResult.ok (Some [])
      else
        match JSON_parse s with
        | Throw _ => StorageResult.ok (Some [])
        | Return (JArray todosJson) => StorageResult.ok (Some (restore todosJson))
        | Return _ => StorageResult.ok (Some [])
        end
  end.

Definition MSG_LOAD_FAILED : string := "データの読み込みに失敗しました".
Definition REASON_FIELDS : string := "IDまたはテキストが不正です".

(** The loop of [validateStorageData]: the entries [{ index, reason }] of the
    Todos, numbered from [i], whose id or text is the empty string.  (Every
    element is an instance of Todo, by its type.) *)
Fixpoint invalidFrom (i : nat) (todos : list Todo.t) : list (nat * string) :=
  match todos with
  | [] => []
  | todo :: rest =>
      (if (length (Todo.id todo) =? 0)%nat || (length (Todo.text todo) =? 0)%nat
       then [(i, REASON_FIELDS)] else [])
      ++ invalidFrom (S i) rest
  end.

Definition quote : string := String (ascii_of_nat 34) EmptyString.

(** [JSON.stringify] of the list of entries. *)
Definition stringifyInvalid (invalidTodos : list (nat * string)) : string :=
  "[" +:+ String.concat ","
            ((fun entry =>
                "{" +:+ quote +:+ "index" +:+ quote +:+ ":"
                +:+ NilZero.string_of_uint (Nat.to_uint (fst entry)) +:+ ","
                +:+ quote +:+ "reason" +:+ quote +:+ ":"
                +:+ quote +:+ snd entry +:+ quote +:+ "}") <$> invalidTodos)
  +:+ "]".

(** [validateStorageData].  Reading [.length] of a missing [data] would
    throw, outside of any [try]. *)
Definition validateStorageData (this : t) : completion (StorageResult.t nat) :=
  let loadResult := loadTodos this in
  if negb (StorageResult.success loadResult)
  then Return (StorageResult.fail MSG_LOAD_FAILED)
  else
    match StorageResult.data loadResult with
    | None => Throw (mkError "TypeError" "Cannot read properties of null")
    | Some todos =>
        let invalidTodos := invalidFrom 0 todos in
        if (0 <? length invalidTodos)%nat
        then Return (StorageResult.fail
                       ("無効なデータが見つかりました: " +:+ stringifyInvalid invalidTodos))
        else Return (StorageResult.ok (Some (length todos)))
    end.

End Load.

Definition clearTodos (this : t) : StorageResult.t unit * t :=
  if isLocalStorageAvailable this then
    match removeItem STORAGE_KEY (localStorage this) with
    | Return ls' => (StorageResult.ok None, mk true [] ls')
    | Throw error =>
        (StorageResult.fail ("データのクリアに失敗しました: " +:+ message error), this)
    end
  else (StorageResult.ok None, mk false [] (localStorage this)).

(** The part of [getStorageInfo] that the registry reads. *)
Record StorageInfo : Type := mkInfo {
  info_isLocalStorageAvailable : bool;
  info_fallbackDataCount : nat
}.

Definition getStorageInfo (this : t) : StorageInfo :=
  mkInfo (isLocalStorageAvailable this) (length (fallbackData this)).

End StorageManager.

(** ** js/app.js: the task registry *)
Module TodoApp.

(** [warnings] records the messages passed to [showStorageWarning], oldest
    first: the warning condition that the user interface surfaces. *)
Record t : Type := mk {
  todos : list Todo.t;
  storageManager : StorageManager.t;
  initialized : bool;
  warnings : list string
}.

(** [new TodoApp()] in a world whose medium is [ls]. *)
Definition new (ls : LocalStorage.t) : t :=
  mk [] (StorageManager.new ls) false [].

Definition showStorageWarning (message : string) (this : t) : t :=
  mk (todos this) (storageManager this) (initialized this) (warnings this ++ [message]).

Definition W_UNAVAILABLE : string :=
  "ブラウザのストレージが利用できません。データは一時的に保存されます。".
Definition W_LOAD_FAILED : string :=
  "保存されたデータの読み込みに失敗しました。新しく開始します。".

(** The body of [initialize] after [loadTodos] has returned [loadResult].
    Nothing in it throws, so the outer [catch] is never entered. *)
Definition initialize_with (loadResult : StorageResult.t (list Todo.t)) (this : t)
    : bool * t :=
  if StorageResult.success loadResult then
    let this1 := mk (default [] (StorageResult.data loadResult))
                    (storageManager this) true (warnings this) in
    let storageInfo := StorageManager.getStorageInfo (storageManager this1) in
    let this2 :=
      if negb (StorageManager.info_isLocalStorageAvailable storageInfo)
      then showStorageWarning W_UNAVAILABLE this1
      else this1 in
    (true, this2)
  else
    let this1 := mk [] (storageManager this) true (warnings this) in
    (false, showStorageWarning W_LOAD_FAILED this1).

Definition initialize `{DateEngine} (this : t) : bool * t :=
  initialize_with (StorageManager.loadTodos (storageManager this)) this.

(** The object returned by the mutations: [{ success, todo?, deletedTodo?, error? }]. *)
Record Result : Type := mkResult {
  success : bool;
  todo : option Todo.t;
  deletedTodo : option Todo.t;
  error : option string
}.

Definition failure (message : string) : Result := mkResult false None None (Some message).

Definition MSG_ID_TYPE : string := "IDは文字列である必要があります".
Definition MSG_NOT_FOUND : string := "指定されたIDのタスクが見つかりません".

(** [`保存に失敗しました: ${saveResult.error}`] *)
Definition saveFailed (saveResult : StorageResult.t unit) : Result :=
  failure ("保存に失敗しました: " +:+ default "null" (StorageResult.error saveResult)).

(** [this.storageManager.saveTodos(this.todos)]: the registry always passes
    its own array of Todos. *)
Definition save (l : list Todo.t) (sm : StorageManager.t) :=
  StorageManager.saveTodos (StorageManager.Array (StorageManager.Instance <$> l)) sm.

(** [addTodo(text)]: [now] is the clock and [random] the random part of the
    generated id. *)
Definition addTodo (text : value) (now : Z) (random : jsstring) (this : t) : Result * t :=
  let validationResult := InputValidator.validateTaskText text in
  if negb (ValidationResult.isValid validationResult) then
    (mkResult false None None (ValidationResult.errorMessage validationResult), this)
  else
    let sanitizedText := InputValidator.sanitizeText text in
    let trimmedText := trim sanitizedText in
    let id := Todo.generateId now random in
    match Todo.new (Some (JString id)) (Some (JString trimmedText)) None (Some now) with
    | Throw error => (failure ("タスクの追加に失敗しました: " +:+ message error), this)
    | Return newTodo =>
        let pushed := todos this ++ [newTodo] in
        let '(saveResult, sm) := save pushed (storageManager this) in
        if negb (StorageResult.success saveResult) then
          (saveFailed saveResult, mk (removelast pushed) sm (initialized this) (warnings this))
        else
          (mkResult true (Some newTodo) None None,
           mk pushed sm (initialized this) (warnings this))
    end.

(** [!id || typeof id !== 'string'] is false exactly on a non-empty string. *)
Definition idArgument (id : value) : option jsstring :=
  match id with
  | Some (JString s) => if (length s =? 0)%nat then None else Some s
  | _ => None
  end.

(** [findIndex] together with the element found. *)
Definition findIndex (id : jsstring) (l : list Todo.t) : option (nat * Todo.t) :=
  list_find (fun todo => Todo.id todo = id) l.

(** [l.splice(i, 0, x)] *)
Definition splice_in {A : Type} (i : nat) (x : A) (l : list A) : list A :=
  take i l ++ x :: drop i l.

Definition toggleTodo (id : value) (this : t) : Result * t :=
  match idArgument id with
  | None => (failure MSG_ID_TYPE, this)
  | Some id =>
      match findIndex id (todos this) with
      | None => (failure MSG_NOT_FOUND, this)
      | Some (todoIndex, currentTodo) =>
          match Todo.toggle currentTodo with
          | Throw error =>
              (failure ("タスクの切り替えに失敗しました: " +:+ message error), this)
          | Return toggledTodo =>
              let assigned := <[todoIndex := toggledTodo]> (todos this) in
              let '(saveResult, sm) := save assigned (storageManager this) in
              if negb (StorageResult.success saveResult) then
                (saveFailed saveResult,
                 mk (<[todoIndex := currentTodo]> assigned) sm
                    (initialized this) (warnings this))
              else
                (mkResult true (Some toggledTodo) None None,
                 mk assigned sm (initialized this) (warnings this))
          end
      end
  end.

Definition deleteTodo (id : value) (this : t) : Result * t :=
  match idArgument id with
  | None => (failure MSG_ID_TYPE, this)
  | Some id =>
      match findIndex id (todos this) with
      | None => (failure MSG_NOT_FOUND, this)
      | Some (todoIndex, deletedTodo) =>
          let spliced := delete todoIndex (todos this) in
          let '(saveResult, sm) := save spliced (storageManager this) in
          if negb (StorageResult.success saveResult) then
            (saveFailed saveResult,
             mk (splice_in todoIndex deletedTodo spliced) sm
                (initialized this) (warnings this))
          else
            (mkResult true None (Some deletedTodo) None,
             mk spliced sm (initialized this) (warnings this))
      end
  end.

Definition getAllTodos (this : t) : list Todo.t := todos this.

Definition getCompletedTodos (this : t) : list Todo.t :=
  List.filter (fun todo => Todo.completed todo) (todos this).

Definition getActiveTodos (this : t) : list Todo.t :=
  List.filter (fun todo => negb (Todo.completed todo)) (todos this).

Definition getTodoCount (this : t) : nat := length (todos this).

Definition getCompletedCount (this : t) : nat :=
  length (List.filter (fun todo => Todo.completed todo) (todos this)).

Definition getActiveCount (this : t) : nat :=
  length (List.filter (fun todo => negb (Todo.completed todo)) (todos this)).

Definition clearAllTodos (this : t) : Result * t :=
  let backup := todos this in
  let '(clearResult, sm) := StorageManager.clearTodos (storageManager this) in
  if negb (StorageResult.success clearResult) then
    (failure ("クリアに失敗しました: " +:+ default "null" (StorageResult.error clearResult)),
     mk backup sm (initialized this) (warnings this))
  else
    (mkResult true None None None, mk [] sm (initialized this) (warnings this)).

(** [getAppState] *)
Record AppState : Type := mkAppState {
  state_initialized : bool;
  state_todoCount : nat;
  state_completedCount : nat;
  state_activeCount : nat;
  state_storageInfo : StorageManager.StorageInfo
}.

Definition getAppState (this : t) : AppState :=
  mkAppState (initialized this) (getTodoCount this) (getCompletedCount this)
    (getActiveCount this) (StorageManager.getStorageInfo (storageManager this)).

(** [s.includes(sub)] *)
Fixpoint includes (sub s : string) : bool :=
  if String.prefix sub s then true
  else match s with
       | EmptyString => false
       | String _ s' => includes sub s'
       end.

Definition W_QUOTA : string :=
  "ストレージ容量が不足しています。ブラウザのデータを整理してください。".
Definition W_SAVE_ERROR : string :=
  "データの保存中にエラーが発生しました。一時的に保存されます。".

Definition handleStorageError (error : string) (this : t) : t :=
  if includes "ストレージ容量が不足" error then showStorageWarning W_QUOTA this
  else
    let this1 := showStorageWarning W_SAVE_ERROR this in
    let storageInfo := StorageManager.getStorageInfo (storageManager this1) in
    if negb (StorageManager.info_isLocalStorageAvailable storageInfo)
    then showStorageWarning W_UNAVAILABLE this1
    else this1.

(** The result of [checkStorageHealth]: [{ healthy, issues }]. *)
Record Health : Type := mkHealth { healthy : bool; issues : list string }.

Definition ISSUE_UNAVAILABLE : string := "LocalStorageが利用できません".
Definition ISSUE_QUOTA : string := "ストレージ容量が不足している可能性があります".

(** The inner [try] of [checkStorageHealth]: a write of 1000 characters
    under a test key, removed again; only a quota error is an issue. *)
Definition probeCapacity (ls : LocalStorage.t) : list string * LocalStorage.t :=
  let testData := LocalStorage.NotJSON (repeat 120%N 1000) in
  let quotaIssue (e : JsError) :=
    if String.eqb (name e) "QuotaExceededError" then [ISSUE_QUOTA] else [] in
  match LocalStorage.setItem "__storage_test__" testData ls with
  | Throw e => (quotaIssue e, ls)
  | Return ls1 =>
      match LocalStorage.removeItem "__storage_test__" ls1 with
      | Throw e => (quotaIssue e, ls1)
      | Return ls2 => ([], ls2)
      end
  end.

Definition checkStorageHealth `{DateEngine} (this : t) : Health * t :=
  let sm := storageManager this in
  let storageInfo := StorageManager.getStorageInfo sm in
  let issues1 :=
    if negb (StorageManager.info_isLocalStorageAvailable storageInfo)
    then [ISSUE_UNAVAILABLE] else [] in
  match StorageManager.validateStorageData sm with
  | Throw error =>
      (mkHealth false
         (issues1 ++ ["ストレージチェック中にエラーが発生しました: " +:+ message error]),
       this)
  | Return validationResult =>
      let issues2 :=
        issues1
        ++ (if negb (StorageResult.success validationResult)
            then ["データの整合性に問題があります: "
                  +:+ default "null" (StorageResult.error validationResult)]
            else []) in
      let '(issues3, ls) := probeCapacity (StorageManager.localStorage sm) in
      let issues := issues2 ++ issues3 in
      (mkHealth (length issues =? 0)%nat issues,
       mk (todos this)
          (StorageManager.mk (StorageManager.isLocalStorageAvailable sm)
             (StorageManager.fallbackData sm) ls)
          (initialized this) (warnings this))
  end.

Definition W_RECOVERED : string :=
  "ストレージが回復しました。データが正常に保存されています。".
Definition W_FALLBACK : string := "フォールバックストレージを使用しています。".

(** [attemptStorageRecovery].  Nothing in it throws. *)
Definition attemptStorageRecovery (this : t) : bool * t :=
  let sm := storageManager this in
  let '(available, ls) :=
    StorageManager.checkLocalStorageSupport (StorageManager.localStorage sm) in
  let sm1 := StorageManager.mk available (StorageManager.fallbackData sm) ls in
  let fallbackCheck (this' : t) : bool * t :=
    if negb (StorageManager.isLocalStorageAvailable (storageManager this'))
    then (true, showStorageWarning W_FALLBACK this')
    else (false, this') in
  if available && (0 <? length (todos this))%nat then
    let '(saveResult, sm2) := save (todos this) sm1 in
    let this2 := mk (todos this) sm2 (initialized this) (warnings this) in
    if StorageResult.success saveResult
    then (true, showStorageWarning W_RECOVERED this2)
    else fallbackCheck this2
  else fallbackCheck (mk (todos this) sm1 (initialized this) (warnings this)).

End TodoApp.

(** ** A reference Date engine

    The engine used to run the model on concrete data: it reads the format
    of [toISOString] (with [MakeDay] of ECMAScript for the day number) and
    takes every other text, every array and every object for an invalid
    date. *)
Module ISO.

Import JSDate.
Local Open Scope Z_scope.

Definition digit_val (c : N) : option Z :=
  if ((48 <=? c) && (c <=? 57))%N then Some (Z.of_N c - 48) else None.

Fixpoint read_digits (w : nat) (acc : Z) (s : jsstring) : option (Z * jsstring) :=
  match w with
  | O => Some (acc, s)
  | S w' =>
      match s with
      | c :: s' => v ← digit_val c; read_digits w' (10 * acc + v) s'
      | [] => None
      end
  end.

Definition expect (c : N) (s : jsstring) : option jsstring :=
  match s with
  | x :: s' => if (x =? c)%N then Some s' else None
  | [] => None
  end.

Definition read_year (s : jsstring) : option (Z * jsstring) :=
  match s with
  | c :: s' =>
      if (c =? 43)%N then read_digits 6 0 s'
      else if (c =? 45)%N then
        '(y, r) ← read_digits 6 0 s';
        if y =? 0 then None else Some (- y, r)
      else read_digits 4 0 s
  | [] => None
  end.

Definition DayFromYear (y : Z) : Z :=
  365 * (y - 1970) + (y - 1969) / 4 - (y - 1901) / 100 + (y - 1601) / 400.

Definition InLeapYear (y : Z) : bool :=
  (y mod 4 =? 0) && (negb (y mod 100 =? 0) || (y mod 400 =? 0)).

(** Days of the year before month [m] (1 to 12). *)
Definition monthStart (leap : bool) (m : Z) : Z :=
  let l := if leap then 1 else 0 in
  if m <=? 1 then 0 else if m =? 2 then 31 else if m =? 3 then 59 + l
  else if m =? 4 then 90 + l else if m =? 5 then 120 + l else if m =? 6 then 151 + l
  else if m =? 7 then 181 + l else if m =? 8 then 212 + l else if m =? 9 then 243 + l
  else if m =? 10 then 273 + l else if m =? 11 then 304 + l else 334 + l.

Definition MakeDay (y m d : Z) : Z :=
  DayFromYear y + monthStart (InLeapYear y) m + d - 1.

Definition parse (s : jsstring) : option Z :=
  '(y, s) ← read_year s;
  s ← expect 45 s;
  '(m, s) ← read_digits 2 0 s;
  s ← expect 45 s;
  '(d, s) ← read_digits 2 0 s;
  s ← expect 84 s;
  '(h, s) ← read_digits 2 0 s;
  s ← expect 58 s;
  '(mi, s) ← read_digits 2 0 s;
  s ← expect 58 s;
  '(sec, s) ← read_digits 2 0 s;
  s ← expect 46 s;
  '(ms, s) ← read_digits 3 0 s;
  s ← expect 90 s;
  let t := MakeDay y m d * msPerDay + h * 3600000 + mi * 60000 + sec * 1000 + ms in
  if (length s =? 0)%nat && (1 <=? m) && (m <=? 12) && (1 <=? d) && (d <=? 31)
     && (h <? 24) && (mi <? 60) && (sec <? 60)
     && (- maxTime <=? t) && (t <=? maxTime)
  then Some t else None.

(** The check made on each day of one 400-year cycle of the calendar. *)
Abbreviation cycle_ok :=
  (fun doe : Z =>
     let '(y, m, d) := civil_from_days (doe - 719468) in
     (MakeDay y m d =? doe - 719468) && (1 <=? m) && (m <=? 12)
     && (1 <=? d) && (d <=? 31) && (0 <=? y) && (y <=? 400)).

End ISO.

Module ISO_cycle.

(** [p z] for the [n] integers from [z] on. *)
Fixpoint check_range (p : Z -> bool) (n : nat) (z : Z) : bool :=
  match n with
  | O => true
  | S n' => if p z then check_range p n' (z + 1)%Z else false
  end.

End ISO_cycle.

(** ** Definitions used by the statements *)



Definition trimmedOf (candidate : value) : jsstring :=
  match candidate with
  | Some (JString s) => trim s
  | _ => []
  end.






(** What the constructor of Todo checks of an id and of a text. *)
Definition id_ok (s : jsstring) : Prop := trim s <> [].
Definition text_ok (s : jsstring) : Prop := (1 <= length (trim s) <= 200)%nat.

(** A Todo that the constructor accepts. *)
Definition valid (todo : Todo.t) : Prop :=
  id_ok (Todo.id todo) /\ text_ok (Todo.text todo).

(** A well-formed task: accepted by the constructor, its Date in range. *)
Definition well_formed (todo : Todo.t) : Prop :=
  valid todo /\ JSDate.time_ok (Todo.createdAt todo).

(** The Todo that [toggle] builds. *)
Definition toggled (todo : Todo.t) : Todo.t :=
  Todo.mk (Todo.id todo) (Todo.text todo) (negb (Todo.completed todo)) (Todo.createdAt todo).

(** A string has ink when one of its code units is not white space. *)
Definition has_ink (s : jsstring) : bool := existsb (fun c => negb (isWhiteSpace c)) s.

(** What [escapeHtml] makes of one code unit. *)
Definition escapeChar (x : N) : jsstring :=
  if (x =? 38)%N then js "&amp;"
  else if (x =? 60)%N then js "&lt;"
  else if (x =? 62)%N then js "&gt;"
  else if (x =? 34)%N then js "&quot;"
  else if (x =? 39)%N then js "&#x27;"
  else [x].

(** The five characters that are escaped. *)
Definition special (x : N) : bool :=
  (x =? 38)%N || (x =? 60)%N || (x =? 62)%N || (x =? 34)%N || (x =? 39)%N.

(** Escaping a reversed text: the escapes come out reversed. *)
Definition escapeRev (s : jsstring) : jsstring := rev (InputValidator.escapeHtml (rev s)).

(** The loop of [Star] in [rmatch], by name: [m] matches one iteration. *)
Definition star_loop
    (m : option N -> jsstring -> (option N -> jsstring -> bool) -> bool)
    (k : option N -> jsstring -> bool) : nat -> option N -> jsstring -> bool :=
  fix star (fuel : nat) (prev : option N) (s : jsstring) {struct fuel} : bool :=
    match fuel with
    | O => k prev s
    | S fuel' =>
        if m prev s
             (fun prev' s' =>
                if (length s' <? length s)%nat then star fuel' prev' s' else false)
        then true
        else k prev s
    end.

(** The patterns made of character classes that reject the ampersand, without
    look-ahead and word boundary. *)
Fixpoint plain (r : RegExp.regex) : Prop :=
  match r with
  | RegExp.Chr p => p 38%N = false
  | RegExp.Eps => True
  | RegExp.Seq r1 r2 | RegExp.Alt r1 r2 => plain r1 /\ plain r2
  | RegExp.Star r1 => plain r1
  | RegExp.NotAhead _ | RegExp.WordBoundary => False
  end.

(** No match of [r] starts at or inside an escape. *)
Definition skips_escapes (r : RegExp.regex) : Prop :=
  forall x prev rest,
    special x = true ->
    RegExp.search r prev (escapeChar x ++ rest) = RegExp.search r (Some 59%N) rest.

(** A task whose text the unsafe-content patterns do not match. *)
Definition safe (todo : Todo.t) : Prop :=
  InputValidator.containsUnsafeCharacters (trim (Todo.text todo)) = false.

Section Reachable.
Context `{DateEngine}.

(** The states of a registry: constructed, then initialized and mutated by
    its operations, while the storage manager may change in between (the
    medium is shared with the rest of the page, and the recovery probe
    resets the availability flag). *)
Inductive reachable : TodoApp.t -> Prop :=
| reach_new ls : reachable (TodoApp.new ls)
| reach_initialize app :
    reachable app -> reachable (snd (TodoApp.initialize app))
| reach_addTodo app text now random :
    reachable app -> reachable (snd (TodoApp.addTodo text now random app))
| reach_toggleTodo app id :
    reachable app -> reachable (snd (TodoApp.toggleTodo id app))
| reach_deleteTodo app id :
    reachable app -> reachable (snd (TodoApp.deleteTodo id app))
| reach_clearAllTodos app :
    reachable app -> reachable (snd (TodoApp.clearAllTodos app))
| reach_storage app sm :
    reachable app ->
    reachable (TodoApp.mk (TodoApp.todos app) sm (TodoApp.initialized app)
                 (TodoApp.warnings app)).

End Reachable.

(** Example worlds and data. *)
Module Examples.

(** A medium that works. *)
Definition healthy (items : gmap string LocalStorage.entry) : LocalStorage.t :=
  LocalStorage.mk items (fun _ _ => None) (fun _ => None) (fun _ => None).

(** A medium whose quota is exhausted for the task list (the probe of the
    constructor, a few bytes under another key, still fits). *)
Definition full (items : gmap string LocalStorage.entry) : LocalStorage.t :=
  LocalStorage.mk items
    (fun key _ =>
       if String.eqb key StorageManager.STORAGE_KEY
       then Some (mkError "QuotaExceededError" "The quota has been exceeded.")
       else None)
    (fun _ => None) (fun _ => None).

(** A medium on which every write throws, as in the tests that disable it. *)
Definition disabled (items : gmap string LocalStorage.entry) : LocalStorage.t :=
  LocalStorage.mk items
    (fun _ _ => Some (Error "LocalStorage not available"))
    (fun _ => None) (fun _ => None).

Definition milk : Todo.t := Todo.mk (js "1") (js "buy milk") false 1700000000000.
Definition mail : Todo.t := Todo.mk (js "2") (js "check mail") true 1700000000123.

End Examples.


(** A text of 197 code units, within the limit and free of unsafe patterns:
    196 letters and an ampersand. *)
Definition ampersandText : jsstring := repeat 97%N 196 ++ [38%N].

(** Every match of [r] consumes a code unit of the class [q]. *)
Fixpoint consumes (q : N -> bool) (r : RegExp.regex) : Prop :=
  match r with
  | RegExp.Chr p => forall c, p c = true -> q c = true
  | RegExp.Seq r1 r2 => consumes q r1 \/ consumes q r2
  | RegExp.Alt r1 r2 => consumes q r1 /\ consumes q r2
  | _ => False
  end.

(** The value of a key of a parsed record. *)
Definition field (fields : list (jsstring * json)) (key : string) : value :=
  snd <$> List.find (fun kv => bool_decide (fst kv = js key)) fields.

(** The medium behaves the same and agrees with [ls] outside [key]. *)
Definition same_but (key : string) (ls ls' : LocalStorage.t) : Prop :=
  (forall k, k <> key -> LocalStorage.items ls' !! k = LocalStorage.items ls !! k)
  /\ LocalStorage.setItem_raises ls' = LocalStorage.setItem_raises ls
  /\ LocalStorage.getItem_raises ls' = LocalStorage.getItem_raises ls
  /\ LocalStorage.removeItem_raises ls' = LocalStorage.removeItem_raises ls.

(** A medium none of whose methods raises. *)
Definition working (ls : LocalStorage.t) : Prop :=
  (forall key v, LocalStorage.setItem_raises ls key v = None)
  /\ (forall key, LocalStorage.getItem_raises ls key = None)
  /\ (forall key, LocalStorage.removeItem_raises ls key = None).

(** The registry of the next session: a new [TodoApp] over the medium that
    [app] leaves behind, initialized. *)
Definition reload `{DateEngine} (app : TodoApp.t) : TodoApp.t :=
  snd (TodoApp.initialize
         (TodoApp.new (StorageManager.localStorage (TodoApp.storageManager app)))).

(** * Properties *)

(** ** The reference Date engine reads back what [toISOString] writes *)
Section iso_roundtrip.

Import JSDate ISO ISO_cycle.
Local Open Scope Z_scope.

Lemma check_range_spec (p : Z -> bool) (n : nat) (z0 : Z) :
  check_range p n z0 = true ->
  forall z, z0 <= z < z0 + Z.of_nat n -> p z = true.
Proof.
  revert z0. induction n as [|n IH]; intros z0 Hc z Hz; [lia|].
  cbn [check_range] in Hc. destruct (p z0) eqn:Hp; [|discriminate].
  destruct (Z.eq_dec z z0) as [->|Hne]; [exact Hp|].
  apply (IH (z0 + 1)); [exact Hc | lia].
Qed.

Lemma cycle_checked : check_range cycle_ok (Z.to_nat 146097) 0 = true.
Proof. vm_cast_no_check (eq_refl true). Qed.

Lemma cycle_ok_all (doe : Z) : 0 <= doe < 146097 -> cycle_ok doe = true.
Proof.
  intros Hd.
  pose proof (check_range_spec cycle_ok (Z.to_nat 146097) 0 cycle_checked doe) as Hc.
  rewrite Z2Nat.id in Hc by lia. apply Hc. lia.
Qed.

Lemma DayFromYear_shift (y k : Z) :
  DayFromYear (y + 400 * k) = DayFromYear y + 146097 * k.
Proof. unfold DayFromYear. Z.div_mod_to_equations. lia. Qed.

Lemma InLeapYear_shift (y k : Z) : InLeapYear (y + 400 * k) = InLeapYear y.
Proof.
  unfold InLeapYear.
  replace ((y + 400 * k) mod 4) with (y mod 4) by (Z.div_mod_to_equations; lia).
  replace ((y + 400 * k) mod 100) with (y mod 100) by (Z.div_mod_to_equations; lia).
  replace ((y + 400 * k) mod 400) with (y mod 400) by (Z.div_mod_to_equations; lia).
  reflexivity.
Qed.

Lemma MakeDay_shift (y k m d : Z) :
  MakeDay (y + 400 * k) m d = MakeDay y m d + 146097 * k.
Proof. unfold MakeDay. rewrite DayFromYear_shift, InLeapYear_shift. lia. Qed.

Lemma civil_from_days_era (day : Z) :
  civil_from_days day =
  let '(y, m, d) := civil_from_days ((day + 719468) mod 146097 - 719468) in
  (y + 400 * ((day + 719468) / 146097), m, d).
Proof.
  unfold civil_from_days.
  set (doe := (day + 719468) mod 146097).
  assert (Hdoe : 0 <= doe < 146097) by (apply Z.mod_pos_bound; lia).
  replace (doe - 719468 + 719468) with doe by lia.
  rewrite (Z.div_small doe 146097), (Z.mod_small doe 146097) by lia.
  cbv zeta. f_equal. f_equal. lia.
Qed.

Lemma cycle_spec (doe y m d : Z) :
  0 <= doe < 146097 ->
  civil_from_days (doe - 719468) = (y, m, d) ->
  MakeDay y m d = doe - 719468 /\ 1 <= m <= 12 /\ 1 <= d <= 31 /\ 0 <= y <= 400.
Proof.
  intros Hdoe E. pose proof (cycle_ok_all doe Hdoe) as Hc.
  cbv beta in Hc. rewrite E in Hc.
  rewrite !andb_true_iff, Z.eqb_eq, !Z.leb_le in Hc.
  lia.
Qed.

Lemma civil_from_days_MakeDay (day y m d : Z) :
  civil_from_days day = (y, m, d) ->
  MakeDay y m d = day /\ 1 <= m <= 12 /\ 1 <= d <= 31
  /\ 400 * ((day + 719468) / 146097) <= y <= 400 * ((day + 719468) / 146097) + 400.
Proof.
  rewrite civil_from_days_era.
  pose proof (Z.mod_pos_bound (day + 719468) 146097 ltac:(lia)) as Hdoe.
  pose proof (Z.div_mod (day + 719468) 146097 ltac:(lia)) as Hsplit.
  destruct (civil_from_days ((day + 719468) mod 146097 - 719468)) as [[y0 m0] d0] eqn:E.
  intros [= <- <- <-].
  destruct (cycle_spec _ _ _ _ Hdoe E) as (Hday & Hm & Hd & Hy).
  rewrite MakeDay_shift, Hday. lia.
Qed.

Lemma digit_val_digit (n : Z) : 0 <= n <= 9 -> digit_val (digit n) = Some n.
Proof.
  intros Hn. unfold digit_val, digit.
  assert (H1 : (48 <=? Z.to_N (48 + n))%N = true) by (apply N.leb_le; lia).
  assert (H2 : (Z.to_N (48 + n) <=? 57)%N = true) by (apply N.leb_le; lia).
  rewrite H1, H2. cbn. f_equal. lia.
Qed.

Lemma read_digits_digits (w : nat) (n acc : Z) (rest : list N) :
  0 <= n < 10 ^ Z.of_nat w ->
  read_digits w acc (digits w n ++ rest) = Some (acc * 10 ^ Z.of_nat w + n, rest).
Proof.
  revert n acc. induction w as [|w IH]; intros n acc Hn.
  - cbn. f_equal. f_equal. cbn in Hn. lia.
  - cbn [digits read_digits app].
    replace (Z.of_nat (S w)) with (Z.of_nat w + 1) in * by lia.
    rewrite Z.pow_add_r, Z.pow_1_r in * by lia.
    assert (Hp : 0 < 10 ^ Z.of_nat w) by (apply Z.pow_pos_nonneg; lia).
    assert (Hq : 0 <= n / 10 ^ Z.of_nat w <= 9).
    { split; [apply Z.div_pos; lia|].
      assert (n / 10 ^ Z.of_nat w < 10); [|lia].
      apply Z.div_lt_upper_bound; lia. }
    rewrite digit_val_digit by exact Hq. cbn [mbind option_bind].
    rewrite IH by (apply Z.mod_pos_bound; lia).
    f_equal. f_equal.
    pose proof (Z.div_mod n (10 ^ Z.of_nat w)). lia.
Qed.

Lemma read_year_isoYear (y : Z) (rest : list N) :
  -999999 <= y <= 999999 -> read_year (isoYear y ++ rest) = Some (y, rest).
Proof.
  intros Hy. unfold isoYear.
  destruct ((0 <=? y) && (y <=? 9999)) eqn:Hsmall.
  - apply andb_prop in Hsmall as [H0 H1].
    apply Z.leb_le in H0. apply Z.leb_le in H1.
    pose proof (read_digits_digits 4 y 0 rest ltac:(change (10 ^ Z.of_nat 4) with 10000; lia)) as Hr.
    change (10 ^ Z.of_nat 4) with 10000 in Hr. rewrite Z.mul_0_l, Z.add_0_l in Hr.
    change 4%nat with (S 3) in *. cbn [digits app] in *.
    unfold read_year.
    assert (Hq : 0 <= y / 10 ^ Z.of_nat 3 <= 9).
    { change (10 ^ Z.of_nat 3) with 1000. Z.div_mod_to_equations. lia. }
    assert (H43 : (digit (y / 10 ^ Z.of_nat 3) =? 43)%N = false)
      by (apply N.eqb_neq; unfold digit; lia).
    assert (H45 : (digit (y / 10 ^ Z.of_nat 3) =? 45)%N = false)
      by (apply N.eqb_neq; unfold digit; lia).
    rewrite H43, H45. exact Hr.
  - assert (Hbig : y < 0 \/ 9999 < y).
    { destruct (0 <=? y) eqn:H0; destruct (y <=? 9999) eqn:H1; try discriminate;
        try apply Z.leb_gt in H0; try apply Z.leb_gt in H1; lia. }
    pose proof (read_digits_digits 6 (Z.abs y) 0 rest
                  ltac:(change (10 ^ Z.of_nat 6) with 1000000; lia)) as Hr.
    change (10 ^ Z.of_nat 6) with 1000000 in Hr. rewrite Z.mul_0_l, Z.add_0_l in Hr.
    destruct (0 <? y) eqn:Hpos.
    + apply Z.ltb_lt in Hpos. change (js "+") with [43%N].
      cbn [app read_year]. change (43 =? 43)%N with true. cbv iota.
      rewrite Hr. f_equal. f_equal. lia.
    + apply Z.ltb_ge in Hpos. change (js "-") with [45%N].
      cbn [app read_year]. change (45 =? 43)%N with false. change (45 =? 45)%N with true.
      cbv iota. rewrite Hr. cbn [mbind option_bind].
      assert (Hnz : (Z.abs y =? 0) = false) by (apply Z.eqb_neq; lia).
      rewrite Hnz. f_equal. f_equal. lia.
Qed.

Lemma expect_head (c : N) (rest : list N) : expect c (c :: rest) = Some rest.
Proof. unfold expect. rewrite N.eqb_refl. reflexivity. Qed.

Lemma read_two (n : Z) (rest : list N) :
  0 <= n < 100 -> read_digits 2 0 (digits 2 n ++ rest) = Some (n, rest).
Proof.
  intros Hn. rewrite read_digits_digits by (change (10 ^ Z.of_nat 2) with 100; lia).
  f_equal.
Qed.

Lemma read_three (n : Z) (rest : list N) :
  0 <= n < 1000 -> read_digits 3 0 (digits 3 n ++ rest) = Some (n, rest).
Proof.
  intros Hn. rewrite read_digits_digits by (change (10 ^ Z.of_nat 3) with 1000; lia).
  f_equal.
Qed.

Lemma parse_toISOString (t : Z) : time_ok t -> parse (toISOString t) = Some t.
Proof.
  intros Ht.
  unfold toISOString, parse.
  destruct (civil_from_days (t / msPerDay)) as [[y m] d] eqn:E.
  destruct (civil_from_days_MakeDay _ _ _ _ E) as (Hday & Hm & Hd & Hy).
  unfold time_ok, maxTime in Ht.
  unfold msPerDay in *.
  assert (Hyr : -999999 <= y <= 999999) by (Z.div_mod_to_equations; lia).
  pose proof (Z.mod_pos_bound t 86400000 ltac:(lia)) as Hms.
  pose proof (Z.div_mod t 86400000 ltac:(lia)) as Hsplit.
  set (ms := t mod 86400000) in *.
  change (js "-") with [45%N].
  change (js "T") with [84%N].
  change (js ":") with [58%N].
  change (js ".") with [46%N].
  change (js "Z") with [90%N].
  rewrite read_year_isoYear by exact Hyr.
  cbn [mbind option_bind app].
  rewrite expect_head.
  cbn [mbind option_bind].
  rewrite read_two by lia.
  cbn [mbind option_bind app].
  rewrite expect_head.
  cbn [mbind option_bind].
  rewrite read_two by lia.
  cbn [mbind option_bind app].
  rewrite expect_head.
  cbn [mbind option_bind].
  rewrite read_two by (Z.div_mod_to_equations; lia).
  cbn [mbind option_bind app].
  rewrite expect_head.
  cbn [mbind option_bind].
  rewrite read_two by (Z.div_mod_to_equations; lia).
  cbn [mbind option_bind app].
  rewrite expect_head.
  cbn [mbind option_bind].
  rewrite read_two by (Z.div_mod_to_equations; lia).
  cbn [mbind option_bind app].
  rewrite expect_head.
  cbn [mbind option_bind].
  rewrite (read_three _ [90%N]) by (Z.div_mod_to_equations; lia).
  cbn [mbind option_bind app].
  rewrite expect_head.
  cbn [mbind option_bind length].
  rewrite Hday.
  assert (Ht' : (t / 86400000) * 86400000 + ms / 3600000 * 3600000
                + ms / 60000 mod 60 * 60000 + ms / 1000 mod 60 * 1000 + ms mod 1000 = t)
    by (Z.div_mod_to_equations; lia).
  rewrite Ht'.
  unfold maxTime.
  change (0 =? 0)%nat with true.
  assert (Hh : (ms / 3600000 <? 24) = true) by (apply Z.ltb_lt; Z.div_mod_to_equations; lia).
  assert (Hmi : (ms / 60000 mod 60 <? 60) = true) by (apply Z.ltb_lt; Z.div_mod_to_equations; lia).
  assert (Hs : (ms / 1000 mod 60 <? 60) = true) by (apply Z.ltb_lt; Z.div_mod_to_equations; lia).
  rewrite Hh, Hmi, Hs.
  rewrite (proj2 (Z.leb_le 1 m)), (proj2 (Z.leb_le m 12)), (proj2 (Z.leb_le 1 d)),
    (proj2 (Z.leb_le d 31)), (proj2 (Z.leb_le (- (8640000000000000)) t)),
    (proj2 (Z.leb_le t 8640000000000000)) by lia.
  reflexivity.
Qed.

End iso_roundtrip.

#[global] Instance reference_engine : DateEngine := {|
  Date_parse := ISO.parse;
  Date_of_object := fun _ => None;
  Date_parse_toISOString := parse_toISOString
|}.

(** ** Read projections *)

Lemma filter_partition_length {A : Type} (p : A -> bool) (l : list A) :
  length l = (length (List.filter p l) + length (List.filter (fun x => negb (p x)) l))%nat.
Proof.
  induction l as [|x l IH]; [reflexivity|].
  cbn [List.filter]. destruct (p x); cbn [negb length]; lia.
Qed.

(** C10. The read projections partition the sequence: the total count is the
    sum of the completed and the active counts, each count is the length of
    the corresponding projection, every task of [getCompletedTodos] is
    completed, every task of [getActiveTodos] is not, and every task of the
    registry is in exactly the projection of its flag. *)
Theorem counts_partition (app : TodoApp.t) :
  TodoApp.getTodoCount app
    = (TodoApp.getCompletedCount app + TodoApp.getActiveCount app)%nat
  /\ TodoApp.getCompletedCount app = length (TodoApp.getCompletedTodos app)
  /\ TodoApp.getActiveCount app = length (TodoApp.getActiveTodos app)
  /\ (forall todo, In todo (TodoApp.getCompletedTodos app) ->
        In todo (TodoApp.getAllTodos app) /\ Todo.completed todo = true)
  /\ (forall todo, In todo (TodoApp.getActiveTodos app) ->
        In todo (TodoApp.getAllTodos app) /\ Todo.completed todo = false)
  /\ (forall todo, In todo (TodoApp.getAllTodos app) ->
        if Todo.completed todo
        then In todo (TodoApp.getCompletedTodos app)
             /\ ~ In todo (TodoApp.getActiveTodos app)
        else In todo (TodoApp.getActiveTodos app)
             /\ ~ In todo (TodoApp.getCompletedTodos app)).
Proof.
  unfold TodoApp.getTodoCount, TodoApp.getCompletedCount, TodoApp.getActiveCount,
    TodoApp.getCompletedTodos, TodoApp.getActiveTodos, TodoApp.getAllTodos.
  repeat split.
  - apply filter_partition_length.
  - apply filter_In in H. tauto.
  - apply filter_In in H. tauto.
  - apply filter_In in H. tauto.
  - apply filter_In in H as [_ H]. apply negb_true_iff in H. exact H.
  - intros todo Hin. destruct (Todo.completed todo) eqn:Hc; split.
    + apply filter_In. split; assumption.
    + intros H. apply filter_In in H as [_ H]. rewrite Hc in H. discriminate.
    + apply filter_In. split; [assumption | rewrite Hc; reflexivity].
    + intros H. apply filter_In in H as [_ H]. congruence.
Qed.

(** ** The validator *)


(** ** Saving *)

Lemma instances_Instance (l : list Todo.t) :
  StorageManager.instances (StorageManager.Instance <$> l) = Some l.
Proof.
  induction l as [|todo l IH]; [reflexivity|].
  cbn [fmap list_fmap StorageManager.instances]. fold (fmap (M:=list) StorageManager.Instance l).
  rewrite IH. reflexivity.
Qed.

(** C6, as stated, fails: on a quota error [saveTodos] reports the failure
    without writing the fallback buffer, which stays empty although the
    serialized sequence is not. *)
Lemma saveTodos_quota_skips_fallback :
  let this := StorageManager.mk true [] (Examples.full ∅) in
  let todos := [Examples.milk] in
  let '(result, this') :=
    StorageManager.saveTodos (StorageManager.Array (StorageManager.Instance <$> todos)) this in
  StorageResult.success result = false
  /\ StorageManager.fallbackData this' = []
  /\ Todo.toJSON <$> todos <> [].
Proof. cbn. split; [reflexivity | split; [reflexivity | discriminate]]. Qed.

(** C6, amended.  When the write to the medium raises, [saveTodos] catches
    it.  A quota error is reported as a failure with its own message and
    nothing is written anywhere.  Any other error makes [saveTodos] write the
    serialized sequence to the fallback buffer and report success. *)
Theorem saveTodos_write_exception (this : StorageManager.t) (todos : list Todo.t)
    (e : JsError) :
  StorageManager.isLocalStorageAvailable this = true ->
  LocalStorage.setItem_raises (StorageManager.localStorage this)
    StorageManager.STORAGE_KEY (LocalStorage.Doc (JArray (Todo.toJSON <$> todos))) = Some e ->
  let '(result, this') :=
    StorageManager.saveTodos (StorageManager.Array (StorageManager.Instance <$> todos)) this in
  if String.eqb (name e) "QuotaExceededError"
  then result = StorageResult.fail StorageManager.MSG_QUOTA /\ this' = this
  else result = StorageResult.ok None
       /\ StorageManager.fallbackData this' = Todo.toJSON <$> todos
       /\ StorageManager.localStorage this' = StorageManager.localStorage this
       /\ StorageManager.isLocalStorageAvailable this' = true.
Proof.
  intros Havailable Hraises.
  unfold StorageManager.saveTodos. rewrite instances_Instance, Havailable.
  unfold LocalStorage.setItem, LocalStorage.JSON_stringify. rewrite Hraises.
  destruct (String.eqb (name e) "QuotaExceededError"); repeat split; reflexivity.
Qed.

Lemma saveTodos_write_exception_witness :
  let this := StorageManager.mk true [] (Examples.full ∅) in
  let '(result, this') :=
    StorageManager.saveTodos
      (StorageManager.Array (StorageManager.Instance <$> [Examples.milk])) this in
  result = StorageResult.fail StorageManager.MSG_QUOTA /\ this' = this.
Proof.
  exact (saveTodos_write_exception
           (StorageManager.mk true [] (Examples.full ∅)) [Examples.milk]
           (mkError "QuotaExceededError" "The quota has been exceeded.")
           eq_refl eq_refl).
Defined.

(** After an error other than a quota error the manager still reads from the
    medium: the sequence that [saveTodos] has just reported as saved sits in
    the fallback buffer, and [loadTodos] does not return it. *)
Lemma saveTodos_fallback_not_loaded :
  let this := StorageManager.mk true [] (Examples.disabled ∅) in
  let '(result, this') :=
    StorageManager.saveTodos
      (StorageManager.Array (StorageManager.Instance <$> [Examples.milk])) this in
  StorageResult.success result = true
  /\ StorageManager.fallbackData this' = [Todo.toJSON Examples.milk]
  /\ StorageResult.data (StorageManager.loadTodos this') = Some [].
Proof. cbn. repeat split; reflexivity. Qed.

(** ** Initialization *)

(** C7, as stated, fails: with the medium unavailable and the fallback buffer
    in use, [initialize] signals the warning and still returns [true]. *)
Lemma initialize_true_when_unavailable :
  let app := TodoApp.new (Examples.disabled ∅) in
  let '(result, app') := TodoApp.initialize app in
  StorageManager.isLocalStorageAvailable (TodoApp.storageManager app') = false
  /\ TodoApp.warnings app' = [TodoApp.W_UNAVAILABLE]
  /\ result = true.
Proof. cbn. repeat split; reflexivity. Qed.

Section Initialize.
Context `{DateEngine}.

Lemma loadTodos_success (this : StorageManager.t) :
  StorageResult.success (StorageManager.loadTodos this) = true
  /\ exists todos, StorageResult.data (StorageManager.loadTodos this) = Some todos.
Proof.
  unfold StorageManager.loadTodos.
  repeat match goal with
         | |- context [match ?x with _ => _ end] => destruct x
         end; cbn; eauto.
Qed.

(** C7, amended.  [initialize] always leaves [initialized = true].  When the
    load result is a failure the sequence is empty, a warning is signalled
    and the result is [false].  When it is a success the result is [true],
    also with the medium unavailable, in which case the fallback warning is
    signalled.  As [loadTodos] always reports success, [initialize] returns
    [true]. *)
Theorem initialize_always_initialized (app : TodoApp.t)
    (loadResult : StorageResult.t (list Todo.t)) :
  (let '(result, app') := TodoApp.initialize_with loadResult app in
   TodoApp.initialized app' = true
   /\ result = StorageResult.success loadResult
   /\ (if StorageResult.success loadResult
       then TodoApp.todos app' = default [] (StorageResult.data loadResult)
            /\ TodoApp.warnings app'
               = TodoApp.warnings app
                 ++ (if StorageManager.isLocalStorageAvailable (TodoApp.storageManager app)
                     then [] else [TodoApp.W_UNAVAILABLE])
       else TodoApp.todos app' = []
            /\ TodoApp.warnings app' = TodoApp.warnings app ++ [TodoApp.W_LOAD_FAILED]))
  /\ (let '(result, app') := TodoApp.initialize app in
      TodoApp.initialized app' = true /\ result = true).
Proof.
  split.
  - unfold TodoApp.initialize_with.
    destruct (StorageResult.success loadResult); cbn.
    + destruct (StorageManager.isLocalStorageAvailable (TodoApp.storageManager app));
        cbn; rewrite ?app_nil_r; repeat split; reflexivity.
    + repeat split; reflexivity.
  - unfold TodoApp.initialize, TodoApp.initialize_with.
    destruct (loadTodos_success (TodoApp.storageManager app)) as [-> _]. cbn.
    destruct (StorageManager.isLocalStorageAvailable (TodoApp.storageManager app));
      cbn; split; reflexivity.
Qed.

End Initialize.

(** ** Loading *)
Section Load.
Context `{DateEngine}.

Lemma restore_cons (record : json) (records : list json) :
  StorageManager.restore (record :: records)
  = match Todo.fromJSON record with
    | Return todo => todo :: StorageManager.restore records
    | Throw _ => StorageManager.restore records
    end.
Proof.
  unfold StorageManager.restore. cbn [omap list_omap].
  destruct (Todo.fromJSON record); reflexivity.
Qed.



End Load.


(** ** Constructed Todos *)

Lemma length_eqb_0 {A : Type} (l : list A) : (length l =? 0)%nat = true <-> l = [].
Proof. destruct l; cbn; split; congruence. Qed.

Lemma id_ok_nonempty (s : jsstring) : id_ok s -> s <> [].
Proof. intros Hok ->. apply Hok. reflexivity. Qed.

Lemma text_ok_nonempty (s : jsstring) : text_ok s -> s <> [].
Proof. intros [Hok _] ->. cbn in Hok. lia. Qed.

Lemma validateId_Return (v : value) (s : jsstring) :
  Todo.validateId v = Return s <-> v = Some (JString s) /\ id_ok s.
Proof.
  unfold Todo.validateId, id_ok.
  destruct v as [[| | | s' | |]|]; try (split; [discriminate | intros [[=] _]]).
  destruct (length s' =? 0)%nat eqn:H0; cbn [orb].
  - apply length_eqb_0 in H0. subst s'. split; [discriminate|].
    intros [[= <-] Hok]. destruct Hok. reflexivity.
  - destruct (length (trim s') =? 0)%nat eqn:H1.
    + apply length_eqb_0 in H1. split; [discriminate|]. intros [[= <-] Hok]. contradiction.
    + split.
      * intros [= <-]. split; [reflexivity|]. intros Ht. rewrite Ht in H1. discriminate.
      * intros [[= <-] _]. reflexivity.
Qed.

Lemma validateText_Return (v : value) (s : jsstring) :
  Todo.validateText v = Return s <-> v = Some (JString s) /\ text_ok s.
Proof.
  unfold Todo.validateText, text_ok.
  destruct v as [[| | | s' | |]|]; try (split; [discriminate | intros [[=] _]]).
  destruct (Nat.eqb_spec (length s') 0) as [H0|H0].
  - destruct s'; [|discriminate]. split; [discriminate|].
    intros [[= <-] Hok]. cbn in Hok. lia.
  - cbv zeta.
    destruct (Nat.eqb_spec (length (trim s')) 0) as [H1|H1].
    + split; [discriminate|]. intros [[= <-] Hok]. lia.
    + destruct (Nat.ltb_spec 200 (length (trim s'))) as [H2|H2].
      * split; [discriminate|]. intros [[= <-] Hok]. lia.
      * split; [intros [= <-]; split; [reflexivity | lia] | intros [[= <-] _]; reflexivity].
Qed.

Lemma new_Return (id text completed : value) (createdAt : option Z) (todo : Todo.t) :
  Todo.new id text completed createdAt = Return todo ->
  valid todo
  /\ id = Some (JString (Todo.id todo)) /\ text = Some (JString (Todo.text todo))
  /\ createdAt = Some (Todo.createdAt todo)
  /\ (completed = None /\ Todo.completed todo = false
      \/ completed = Some (JBool (Todo.completed todo))).
Proof.
  unfold Todo.new.
  destruct (Todo.validateId id) as [i|] eqn:Hid; [|discriminate].
  destruct (Todo.validateText text) as [x|] eqn:Htext; [|discriminate].
  apply validateId_Return in Hid as [-> Hid].
  apply validateText_Return in Htext as [-> Htext].
  cbn [mbind completion_bind].
  destruct completed as [[| b | | | |]|]; cbn; try discriminate;
    (destruct createdAt as [time|]; cbn; [|discriminate]);
    intros [= <-]; cbn; unfold valid; cbn; intuition eauto.
Qed.

Lemma new_valid (i x : jsstring) (c : bool) (time : Z) :
  id_ok i -> text_ok x ->
  Todo.new (Some (JString i)) (Some (JString x)) (Some (JBool c)) (Some time)
  = Return (Todo.mk i x c time).
Proof.
  intros Hi Hx. unfold Todo.new.
  rewrite (proj2 (validateId_Return _ i) (conj eq_refl Hi)).
  rewrite (proj2 (validateText_Return _ x) (conj eq_refl Hx)).
  reflexivity.
Qed.

Lemma new_default_valid (i x : jsstring) (time : Z) :
  id_ok i -> text_ok x ->
  Todo.new (Some (JString i)) (Some (JString x)) None (Some time)
  = Return (Todo.mk i x false time).
Proof.
  intros Hi Hx. unfold Todo.new.
  rewrite (proj2 (validateId_Return _ i) (conj eq_refl Hi)).
  rewrite (proj2 (validateText_Return _ x) (conj eq_refl Hx)).
  reflexivity.
Qed.

Lemma toggle_valid (todo : Todo.t) : valid todo -> Todo.toggle todo = Return (toggled todo).
Proof. intros [Hi Hx]. apply new_valid; assumption. Qed.

Lemma toggle_Return (todo todo' : Todo.t) :
  Todo.toggle todo = Return todo' -> valid todo /\ todo' = toggled todo.
Proof.
  intros Ht. pose proof Ht as Hn. unfold Todo.toggle in Hn.
  apply new_Return in Hn as ([Hi Hx] & [= Eid] & [= Etext] & _).
  assert (Hv : valid todo) by (split; congruence).
  split; [exact Hv|]. rewrite (toggle_valid _ Hv) in Ht. congruence.
Qed.

Lemma toggled_involutive (todo : Todo.t) : toggled (toggled todo) = todo.
Proof. destruct todo as [i x c time]. unfold toggled. cbn. rewrite negb_involutive. reflexivity. Qed.

Lemma toggled_valid (todo : Todo.t) : valid todo -> valid (toggled todo).
Proof. intros H. exact H. Qed.

(** ** Rollback *)

Lemma findIndex_Some (id : jsstring) (l : list Todo.t) (i : nat) (todo : Todo.t) :
  TodoApp.findIndex id l = Some (i, todo) ->
  l !! i = Some todo /\ Todo.id todo = id
  /\ forall j other, l !! j = Some other -> (j < i)%nat -> Todo.id other <> id.
Proof. unfold TodoApp.findIndex. intros Hf. apply list_find_Some in Hf. exact Hf. Qed.

Lemma splice_in_delete {A : Type} (l : list A) (i : nat) (x : A) :
  l !! i = Some x -> TodoApp.splice_in i x (delete i l) = l.
Proof.
  intros Hi. unfold TodoApp.splice_in. rewrite delete_take_drop.
  pose proof (lookup_lt_Some _ _ _ Hi) as Hlt.
  rewrite take_app_length', drop_app_length' by (rewrite length_take_le; lia).
  apply take_drop_middle. exact Hi.
Qed.

(** C1. If every [saveTodos] of the storage manager fails, each of [addTodo],
    [toggleTodo] and [deleteTodo] reports [success: false] and leaves
    [getAllTodos()] as it was before the call. *)
Theorem rollback_on_save_failure (app : TodoApp.t) (text id : value)
    (now : Z) (random : jsstring) :
  (forall l, StorageResult.success (fst (TodoApp.save l (TodoApp.storageManager app))) = false) ->
  (TodoApp.success (fst (TodoApp.addTodo text now random app)) = false
   /\ TodoApp.getAllTodos (snd (TodoApp.addTodo text now random app)) = TodoApp.getAllTodos app)
  /\ (TodoApp.success (fst (TodoApp.toggleTodo id app)) = false
      /\ TodoApp.getAllTodos (snd (TodoApp.toggleTodo id app)) = TodoApp.getAllTodos app)
  /\ (TodoApp.success (fst (TodoApp.deleteTodo id app)) = false
      /\ TodoApp.getAllTodos (snd (TodoApp.deleteTodo id app)) = TodoApp.getAllTodos app).
Proof.
  intros Hfail. unfold TodoApp.getAllTodos. repeat apply conj.
  - unfold TodoApp.addTodo.
    destruct (negb _); [reflexivity|]. destruct (Todo.new _ _ _ _) as [newTodo|]; [|reflexivity].
    cbv zeta. specialize (Hfail (TodoApp.todos app ++ [newTodo])).
    destruct (TodoApp.save _ _) as [saveResult sm]. cbn [fst] in Hfail.
    rewrite Hfail. reflexivity.
  - unfold TodoApp.addTodo.
    destruct (negb _); [reflexivity|]. destruct (Todo.new _ _ _ _) as [newTodo|]; [|reflexivity].
    cbv zeta. specialize (Hfail (TodoApp.todos app ++ [newTodo])).
    destruct (TodoApp.save _ _) as [saveResult sm]. cbn [fst] in Hfail.
    rewrite Hfail. cbn. apply removelast_last.
  - unfold TodoApp.toggleTodo.
    destruct (TodoApp.idArgument id); [|reflexivity].
    destruct (TodoApp.findIndex _ _) as [[i cur]|]; [|reflexivity].
    destruct (Todo.toggle cur) as [tog|]; [|reflexivity].
    cbv zeta. specialize (Hfail (<[i:=tog]> (TodoApp.todos app))).
    destruct (TodoApp.save _ _) as [saveResult sm]. cbn [fst] in Hfail.
    rewrite Hfail. reflexivity.
  - unfold TodoApp.toggleTodo.
    destruct (TodoApp.idArgument id); [|reflexivity].
    destruct (TodoApp.findIndex _ _) as [[i cur]|] eqn:Hfind; [|reflexivity].
    apply findIndex_Some in Hfind as (Hi & _).
    destruct (Todo.toggle cur) as [tog|]; [|reflexivity].
    cbv zeta. specialize (Hfail (<[i:=tog]> (TodoApp.todos app))).
    destruct (TodoApp.save _ _) as [saveResult sm]. cbn [fst] in Hfail.
    rewrite Hfail. cbn. rewrite list_insert_insert_eq. apply list_insert_id. exact Hi.
  - unfold TodoApp.deleteTodo.
    destruct (TodoApp.idArgument id); [|reflexivity].
    destruct (TodoApp.findIndex _ _) as [[i cur]|]; [|reflexivity].
    cbv zeta. specialize (Hfail (delete i (TodoApp.todos app))).
    destruct (TodoApp.save _ _) as [saveResult sm]. cbn [fst] in Hfail.
    rewrite Hfail. reflexivity.
  - unfold TodoApp.deleteTodo.
    destruct (TodoApp.idArgument id); [|reflexivity].
    destruct (TodoApp.findIndex _ _) as [[i cur]|] eqn:Hfind; [|reflexivity].
    apply findIndex_Some in Hfind as (Hi & _).
    cbv zeta. specialize (Hfail (delete i (TodoApp.todos app))).
    destruct (TodoApp.save _ _) as [saveResult sm]. cbn [fst] in Hfail.
    rewrite Hfail. cbn. apply splice_in_delete. exact Hi.
Qed.

Lemma rollback_on_save_failure_witness :
  let app := TodoApp.mk [Examples.milk; Examples.mail]
               (StorageManager.mk true [] (Examples.full ∅)) true [] in
  let text := Some (JString (js "water the plants")) in
  let id := Some (JString (js "2")) in
  (TodoApp.success (fst (TodoApp.addTodo text 1700000000000 (js "k3j9x2m1q") app)) = false
   /\ TodoApp.getAllTodos (snd (TodoApp.addTodo text 1700000000000 (js "k3j9x2m1q") app))
      = TodoApp.getAllTodos app)
  /\ (TodoApp.success (fst (TodoApp.toggleTodo id app)) = false
      /\ TodoApp.getAllTodos (snd (TodoApp.toggleTodo id app)) = TodoApp.getAllTodos app)
  /\ (TodoApp.success (fst (TodoApp.deleteTodo id app)) = false
      /\ TodoApp.getAllTodos (snd (TodoApp.deleteTodo id app)) = TodoApp.getAllTodos app).
Proof.
  apply (rollback_on_save_failure
           (TodoApp.mk [Examples.milk; Examples.mail]
              (StorageManager.mk true [] (Examples.full ∅)) true [])
           (Some (JString (js "water the plants"))) (Some (JString (js "2")))
           1700000000000 (js "k3j9x2m1q")).
  intros l. unfold TodoApp.save, StorageManager.saveTodos.
  rewrite instances_Instance. reflexivity.
Defined.

(** ** Toggling *)

Lemma idArgument_ok (s : jsstring) : s <> [] -> TodoApp.idArgument (Some (JString s)) = Some s.
Proof. intros Hs. unfold TodoApp.idArgument. destruct s; [contradiction | reflexivity]. Qed.

Lemma findIndex_insert (id : jsstring) (l : list Todo.t) (i : nat) (todo todo' : Todo.t) :
  TodoApp.findIndex id l = Some (i, todo) -> Todo.id todo' = id ->
  TodoApp.findIndex id (<[i:=todo']> l) = Some (i, todo').
Proof.
  intros Hfind Hid. apply findIndex_Some in Hfind as (Hi & _ & Hfirst).
  unfold TodoApp.findIndex. apply list_find_Some. repeat split.
  - apply list_lookup_insert_eq. eapply lookup_lt_Some, Hi.
  - exact Hid.
  - intros j other Hj Hlt. rewrite list_lookup_insert_ne in Hj by lia. eauto.
Qed.

Lemma toggleTodo_found (app : TodoApp.t) (id : jsstring) (i : nat) (todo : Todo.t) :
  TodoApp.findIndex id (TodoApp.todos app) = Some (i, todo) ->
  valid todo ->
  let assigned := <[i := toggled todo]> (TodoApp.todos app) in
  let saved := TodoApp.save assigned (TodoApp.storageManager app) in
  StorageResult.success (fst saved) = true ->
  TodoApp.toggleTodo (Some (JString id)) app
  = (TodoApp.mkResult true (Some (toggled todo)) None None,
     TodoApp.mk assigned (snd saved) (TodoApp.initialized app) (TodoApp.warnings app)).
Proof.
  intros Hfind Hvalid assigned saved Hsaved. unfold TodoApp.toggleTodo.
  pose proof (findIndex_Some _ _ _ _ Hfind) as (_ & Hid & _).
  rewrite idArgument_ok by (rewrite <- Hid; apply id_ok_nonempty, Hvalid).
  rewrite Hfind, (toggle_valid _ Hvalid). cbv zeta.
  fold assigned. fold saved. destruct saved as [saveResult sm]. cbn [fst snd] in *.
  rewrite Hsaved. reflexivity.
Qed.

(** Two calls of [toggleTodo] on the id of the task that [findIndex] finds,
    both saves succeeding. *)
Lemma toggle_twice_at (app : TodoApp.t) (x : jsstring) (i : nat) (todo : Todo.t) :
  TodoApp.findIndex x (TodoApp.todos app) = Some (i, todo) ->
  valid todo ->
  let assigned := <[i := toggled todo]> (TodoApp.todos app) in
  let saved1 := TodoApp.save assigned (TodoApp.storageManager app) in
  let saved2 := TodoApp.save (TodoApp.todos app) (snd saved1) in
  StorageResult.success (fst saved1) = true ->
  StorageResult.success (fst saved2) = true ->
  let '(result1, app1) := TodoApp.toggleTodo (Some (JString x)) app in
  let '(result2, app2) := TodoApp.toggleTodo (Some (JString x)) app1 in
  exists todo',
    result1 = TodoApp.mkResult true (Some todo') None None
    /\ TodoApp.getAllTodos app1 = <[i := todo']> (TodoApp.getAllTodos app)
    /\ TodoApp.getAllTodos app1 !! i = Some todo'
    /\ Todo.id todo' = Todo.id todo /\ Todo.text todo' = Todo.text todo
    /\ Todo.createdAt todo' = Todo.createdAt todo
    /\ Todo.completed todo' = negb (Todo.completed todo)
    /\ result2 = TodoApp.mkResult true (Some todo) None None
    /\ TodoApp.getAllTodos app2 = TodoApp.getAllTodos app
    /\ TodoApp.getAllTodos app2 !! i = Some todo.
Proof.
  intros Hfind Hvalid assigned saved1 saved2 Hsaved1 Hsaved2.
  pose proof (findIndex_Some _ _ _ _ Hfind) as (Hi & Hid & _).
  rewrite (toggleTodo_found app x i todo Hfind Hvalid Hsaved1).
  fold assigned. fold saved1.
  assert (Hfind1 : TodoApp.findIndex x assigned = Some (i, toggled todo))
    by (apply (findIndex_insert x _ i todo); [exact Hfind | exact Hid]).
  assert (Hback : <[i := toggled (toggled todo)]> assigned = TodoApp.todos app).
  { unfold assigned. rewrite toggled_involutive, list_insert_insert_eq.
    apply list_insert_id, Hi. }
  pose proof (toggleTodo_found
                (TodoApp.mk assigned (snd saved1) (TodoApp.initialized app)
                   (TodoApp.warnings app))
                x i (toggled todo) Hfind1 (toggled_valid _ Hvalid)) as Hstep2.
  cbn [TodoApp.todos TodoApp.storageManager TodoApp.initialized TodoApp.warnings] in Hstep2.
  rewrite Hback in Hstep2. rewrite (Hstep2 Hsaved2).
  exists (toggled todo). unfold TodoApp.getAllTodos. cbn [TodoApp.todos].
  rewrite toggled_involutive.
  repeat split; try reflexivity; try exact Hi.
  apply list_lookup_insert_eq. eapply lookup_lt_Some, Hi.
Qed.

Lemma findIndex_exists (x : jsstring) (l : list Todo.t) (task : Todo.t) :
  In task l -> Todo.id task = x -> exists i todo, TodoApp.findIndex x l = Some (i, todo).
Proof.
  intros Hin Hid. unfold TodoApp.findIndex.
  destruct (list_find_elem_of (fun todo => Todo.id todo = x) l task) as [[i todo] Hfind];
    [apply list_elem_of_In, Hin | exact Hid |].
  exists i, todo. exact Hfind.
Qed.

(** C8. In a registry that holds a task with id [x], [toggleTodo(x)] finds a
    task with this id, at a position [i].  When the two saves succeed, a
    first call succeeds and replaces the task at position [i] by a Todo with
    the same id, text and creation date and the opposite [completed]; a
    second call succeeds and brings the sequence, and with it the flag of
    every task, back to what it was.  (The tasks of a registry are
    constructed Todos: they are valid.) *)
Theorem toggle_twice (app : TodoApp.t) (x : jsstring) (task : Todo.t) :
  In task (TodoApp.getAllTodos app) ->
  Todo.id task = x ->
  Forall valid (TodoApp.getAllTodos app) ->
  exists i todo,
    TodoApp.getAllTodos app !! i = Some todo /\ Todo.id todo = x
    /\ let assigned := <[i := toggled todo]> (TodoApp.todos app) in
       let saved1 := TodoApp.save assigned (TodoApp.storageManager app) in
       let saved2 := TodoApp.save (TodoApp.todos app) (snd saved1) in
       StorageResult.success (fst saved1) = true ->
       StorageResult.success (fst saved2) = true ->
       let '(result1, app1) := TodoApp.toggleTodo (Some (JString x)) app in
       let '(result2, app2) := TodoApp.toggleTodo (Some (JString x)) app1 in
       exists todo',
         result1 = TodoApp.mkResult true (Some todo') None None
         /\ TodoApp.getAllTodos app1 = <[i := todo']> (TodoApp.getAllTodos app)
         /\ TodoApp.getAllTodos app1 !! i = Some todo'
         /\ Todo.id todo' = Todo.id todo /\ Todo.text todo' = Todo.text todo
         /\ Todo.createdAt todo' = Todo.createdAt todo
         /\ Todo.completed todo' = negb (Todo.completed todo)
         /\ result2 = TodoApp.mkResult true (Some todo) None None
         /\ TodoApp.getAllTodos app2 = TodoApp.getAllTodos app
         /\ TodoApp.getAllTodos app2 !! i = Some todo.
Proof.
  unfold TodoApp.getAllTodos. intros Hin Hid Hvalid.
  destruct (findIndex_exists x _ task Hin Hid) as (i & todo & Hfind).
  pose proof (findIndex_Some _ _ _ _ Hfind) as (Hi & Hidx & _).
  exists i, todo. split; [exact Hi|]. split; [exact Hidx|].
  apply (toggle_twice_at app x i todo Hfind).
  rewrite Forall_forall in Hvalid. apply Hvalid. eapply list_elem_of_lookup_2, Hi.
Qed.

Lemma toggle_twice_witness :
  let app := TodoApp.mk [Examples.milk; Examples.mail]
               (StorageManager.new (Examples.healthy ∅)) true [] in
  let '(result1, app1) := TodoApp.toggleTodo (Some (JString (js "2"))) app in
  let '(result2, app2) := TodoApp.toggleTodo (Some (JString (js "2"))) app1 in
  exists todo',
    result1 = TodoApp.mkResult true (Some todo') None None
    /\ TodoApp.getAllTodos app1 = <[1%nat := todo']> (TodoApp.getAllTodos app)
    /\ TodoApp.getAllTodos app1 !! 1%nat = Some todo'
    /\ Todo.id todo' = Todo.id Examples.mail /\ Todo.text todo' = Todo.text Examples.mail
    /\ Todo.createdAt todo' = Todo.createdAt Examples.mail
    /\ Todo.completed todo' = negb (Todo.completed Examples.mail)
    /\ result2 = TodoApp.mkResult true (Some Examples.mail) None None
    /\ TodoApp.getAllTodos app2 = TodoApp.getAllTodos app
    /\ TodoApp.getAllTodos app2 !! 1%nat = Some Examples.mail.
Proof.
  destruct (toggle_twice
              (TodoApp.mk [Examples.milk; Examples.mail]
                 (StorageManager.new (Examples.healthy ∅)) true [])
              (js "2") Examples.mail)
    as (i & todo & Hi & Hid & Htwice).
  - right. left. reflexivity.
  - reflexivity.
  - repeat constructor; try discriminate; vm_compute; lia.
  - destruct i as [|[|i]]; cbn in Hi.
    + injection Hi as <-. discriminate Hid.
    + injection Hi as <-. exact (Htwice eq_refl eq_refl).
    + discriminate Hi.
Defined.

(** ** Round trip through the store *)
Section RoundTrip.
Context `{DateEngine}.

Lemma fromJSON_toJSON (todo : Todo.t) :
  well_formed todo -> Todo.fromJSON (Todo.toJSON todo) = Return todo.
Proof.
  intros [[Hi Hx] Htime]. destruct todo as [i x c time]. cbn in Hi, Hx, Htime.
  unfold Todo.fromJSON.
  change (Todo.getProperty (Todo.toJSON (Todo.mk i x c time)) (js "id"))
    with (Return (Some (JString i))).
  change (Todo.getProperty (Todo.toJSON (Todo.mk i x c time)) (js "text"))
    with (Return (Some (JString x))).
  change (Todo.getProperty (Todo.toJSON (Todo.mk i x c time)) (js "completed"))
    with (Return (Some (JBool c))).
  change (Todo.getProperty (Todo.toJSON (Todo.mk i x c time)) (js "createdAt"))
    with (Return (Some (JString (JSDate.toISOString time)))).
  cbn [mbind completion_bind Date_new].
  rewrite Date_parse_toISOString by exact Htime.
  apply new_valid; assumption.
Qed.

Lemma restore_toJSON (todos : list Todo.t) :
  Forall well_formed todos -> StorageManager.restore (Todo.toJSON <$> todos) = todos.
Proof.
  induction 1 as [|todo todos Hwf _ IH]; [reflexivity|].
  cbn [fmap list_fmap]. rewrite restore_cons, (fromJSON_toJSON _ Hwf).
  f_equal. exact IH.
Qed.


End RoundTrip.


(** ** Trimming and escaping *)

Lemma trimStart_head (s : jsstring) :
  trimStart s = [] \/ exists c s', trimStart s = c :: s' /\ isWhiteSpace c = false.
Proof.
  induction s as [|c s IH]; [left; reflexivity|].
  cbn [trimStart]. destruct (isWhiteSpace c) eqn:Hc; [exact IH|].
  right. exists c, s. split; [reflexivity | exact Hc].
Qed.

Lemma trimStart_ink (c : N) (s : jsstring) :
  isWhiteSpace c = false -> trimStart (c :: s) = c :: s.
Proof. intros Hc. cbn [trimStart]. rewrite Hc. reflexivity. Qed.

Lemma trimStart_idempotent (s : jsstring) : trimStart (trimStart s) = trimStart s.
Proof.
  destruct (trimStart_head s) as [-> | (c & s' & -> & Hc)]; [reflexivity|].
  apply trimStart_ink, Hc.
Qed.

Lemma trimStart_snoc_ink (l : jsstring) (c : N) :
  isWhiteSpace c = false -> trimStart (l ++ [c]) = trimStart l ++ [c].
Proof.
  intros Hc. induction l as [|x l IH]; cbn [app trimStart].
  - rewrite Hc. reflexivity.
  - destruct (isWhiteSpace x); [exact IH | reflexivity].
Qed.

Lemma trimEnd_cons_ink (c : N) (s : jsstring) :
  isWhiteSpace c = false -> trimEnd (c :: s) = c :: trimEnd s.
Proof.
  intros Hc. unfold trimEnd. cbn [rev].
  rewrite trimStart_snoc_ink by exact Hc. rewrite rev_app_distr. reflexivity.
Qed.

Lemma trimEnd_idempotent (s : jsstring) : trimEnd (trimEnd s) = trimEnd s.
Proof. unfold trimEnd. rewrite rev_involutive, trimStart_idempotent. reflexivity. Qed.

(** The shape of a trimmed string: empty, or starting with ink. *)
Lemma trim_head (s : jsstring) :
  trim s = [] \/ exists c s', trim s = c :: trimEnd s' /\ isWhiteSpace c = false.
Proof.
  unfold trim. destruct (trimStart_head s) as [-> | (c & s' & -> & Hc)];
    [left; reflexivity|].
  right. exists c, s'. split; [apply trimEnd_cons_ink, Hc | exact Hc].
Qed.

Lemma trim_idempotent (s : jsstring) : trim (trim s) = trim s.
Proof.
  destruct (trim_head s) as [-> | (c & s' & -> & Hc)]; [reflexivity|].
  unfold trim. rewrite trimStart_ink, trimEnd_cons_ink, trimEnd_idempotent by exact Hc.
  reflexivity.
Qed.

Lemma trim_cons_ink (c : N) (s : jsstring) :
  isWhiteSpace c = false -> trim (c :: s) = c :: trimEnd s.
Proof. intros Hc. unfold trim. rewrite trimStart_ink, trimEnd_cons_ink by exact Hc. reflexivity. Qed.

Lemma has_ink_trimStart (s : jsstring) : has_ink (trimStart s) = has_ink s.
Proof.
  induction s as [|c s IH]; [reflexivity|].
  cbn [trimStart]. destruct (isWhiteSpace c) eqn:Hc; [|reflexivity].
  unfold has_ink at 2. cbn [existsb]. rewrite Hc. exact IH.
Qed.

Lemma has_ink_app (s1 s2 : jsstring) : has_ink (s1 ++ s2) = has_ink s1 || has_ink s2.
Proof. apply existsb_app. Qed.

Lemma has_ink_rev (s : jsstring) : has_ink (rev s) = has_ink s.
Proof.
  induction s as [|c s IH]; [reflexivity|].
  cbn [rev]. rewrite has_ink_app, IH. unfold has_ink. cbn [existsb].
  rewrite orb_false_r. apply orb_comm.
Qed.

Lemma has_ink_trim (s : jsstring) : has_ink (trim s) = has_ink s.
Proof.
  unfold trim, trimEnd.
  rewrite has_ink_rev, has_ink_trimStart, has_ink_rev, has_ink_trimStart. reflexivity.
Qed.

Lemma trim_nil_ink (s : jsstring) : trim s = [] <-> has_ink s = false.
Proof.
  split.
  - intros Ht. rewrite <- has_ink_trim, Ht. reflexivity.
  - intros Hs. destruct (trim_head s) as [Ht | (c & s' & Ht & Hc)]; [exact Ht|].
    rewrite <- has_ink_trim, Ht in Hs. cbn in Hs. rewrite Hc in Hs. discriminate.
Qed.

Lemma has_ink_replaceAll (c : N) (r s : jsstring) :
  isWhiteSpace c = false -> has_ink r = true ->
  has_ink (replaceAll c r s) = has_ink s.
Proof.
  intros Hc Hr. induction s as [|x s IH]; [reflexivity|].
  cbn [replaceAll]. rewrite has_ink_app, IH.
  unfold has_ink at 3. cbn [existsb]. fold (has_ink s). f_equal.
  destruct (N.eqb_spec x c) as [->|_].
  - rewrite Hr, Hc. reflexivity.
  - unfold has_ink. cbn [existsb]. apply orb_false_r.
Qed.

Lemma has_ink_escapeHtml (s : jsstring) :
  has_ink (InputValidator.escapeHtml s) = has_ink s.
Proof.
  unfold InputValidator.escapeHtml.
  rewrite !has_ink_replaceAll by reflexivity. reflexivity.
Qed.

Lemma generateId_ok (now : Z) (random : jsstring) : id_ok (Todo.generateId now random).
Proof.
  unfold id_ok, Todo.generateId.
  change (js "todo_") with ([116; 111; 100; 111; 95]%N). cbn [app].
  rewrite trim_cons_ink by reflexivity. discriminate.
Qed.

(** ** Escaping keeps a text free of unsafe patterns *)

Lemma replaceAll_app (c : N) (r s1 s2 : jsstring) :
  replaceAll c r (s1 ++ s2) = replaceAll c r s1 ++ replaceAll c r s2.
Proof.
  induction s1 as [|x s1 IH]; [reflexivity|].
  cbn [app replaceAll]. rewrite IH, app_assoc. reflexivity.
Qed.

Lemma escapeHtml_app (s1 s2 : jsstring) :
  InputValidator.escapeHtml (s1 ++ s2)
  = InputValidator.escapeHtml s1 ++ InputValidator.escapeHtml s2.
Proof. unfold InputValidator.escapeHtml. rewrite !replaceAll_app. reflexivity. Qed.

Lemma escapeHtml_one (x : N) : InputValidator.escapeHtml [x] = escapeChar x.
Proof.
  unfold escapeChar, InputValidator.escapeHtml. cbn [replaceAll]. rewrite !app_nil_r.
  destruct (N.eqb_spec x 38) as [->|H38]; [reflexivity|]. cbn [replaceAll]. rewrite !app_nil_r.
  destruct (N.eqb_spec x 60) as [->|H60]; [reflexivity|]. cbn [replaceAll]. rewrite !app_nil_r.
  destruct (N.eqb_spec x 62) as [->|H62]; [reflexivity|]. cbn [replaceAll]. rewrite !app_nil_r.
  destruct (N.eqb_spec x 34) as [->|H34]; [reflexivity|]. cbn [replaceAll]. rewrite !app_nil_r.
  destruct (N.eqb_spec x 39) as [->|H39]; reflexivity.
Qed.

Lemma escapeHtml_cons (x : N) (s : jsstring) :
  InputValidator.escapeHtml (x :: s) = escapeChar x ++ InputValidator.escapeHtml s.
Proof. change (x :: s) with ([x] ++ s). rewrite escapeHtml_app, escapeHtml_one. reflexivity. Qed.

Lemma escapeChar_plain (x : N) : special x = false -> escapeChar x = [x].
Proof.
  unfold special, escapeChar. intros Hx.
  repeat (apply orb_false_elim in Hx as [Hx ?]).
  repeat match goal with H : (_ =? _)%N = false |- _ => rewrite H; clear H end.
  reflexivity.
Qed.

Lemma special_cases (x : N) :
  special x = true -> x = 38%N \/ x = 60%N \/ x = 62%N \/ x = 34%N \/ x = 39%N.
Proof.
  unfold special. rewrite !orb_true_iff, !N.eqb_eq. tauto.
Qed.

Lemma white_plain (x : N) : isWhiteSpace x = true -> special x = false.
Proof.
  intros Hw. destruct (special x) eqn:Hs; [|reflexivity].
  apply special_cases in Hs as [-> | [-> | [-> | [-> | ->]]]]; discriminate.
Qed.

Lemma escapeChar_ink_ends (x : N) :
  isWhiteSpace x = false ->
  exists c l c', escapeChar x = c :: l /\ isWhiteSpace c = false
                 /\ rev (escapeChar x) = c' :: rev (removelast (escapeChar x))
                 /\ isWhiteSpace c' = false.
Proof.
  intros Hx. destruct (special x) eqn:Hs.
  - apply special_cases in Hs as [-> | [-> | [-> | [-> | ->]]]];
      eexists _, _, _; repeat split; reflexivity.
  - rewrite (escapeChar_plain _ Hs). exists x, [], x. repeat split; assumption.
Qed.

Lemma trimStart_escapeHtml (s : jsstring) :
  trimStart (InputValidator.escapeHtml s) = InputValidator.escapeHtml (trimStart s).
Proof.
  induction s as [|x s IH]; [reflexivity|].
  rewrite escapeHtml_cons. cbn [trimStart]. destruct (isWhiteSpace x) eqn:Hx.
  - rewrite (escapeChar_plain _ (white_plain _ Hx)). cbn [app trimStart]. rewrite Hx. exact IH.
  - destruct (escapeChar_ink_ends _ Hx) as (c & l & _ & Hc & Hink & _).
    rewrite escapeHtml_cons, Hc. cbn [app trimStart]. rewrite Hink. reflexivity.
Qed.

Lemma escapeRev_cons (x : N) (s : jsstring) :
  escapeRev (x :: s) = rev (escapeChar x) ++ escapeRev s.
Proof.
  unfold escapeRev. cbn [rev]. rewrite escapeHtml_app, escapeHtml_one, rev_app_distr.
  reflexivity.
Qed.

Lemma trimStart_escapeRev (s : jsstring) :
  trimStart (escapeRev s) = escapeRev (trimStart s).
Proof.
  induction s as [|x s IH]; [reflexivity|].
  rewrite escapeRev_cons. cbn [trimStart]. destruct (isWhiteSpace x) eqn:Hx.
  - rewrite (escapeChar_plain _ (white_plain _ Hx)). cbn [rev app trimStart].
    rewrite Hx. exact IH.
  - destruct (escapeChar_ink_ends _ Hx) as (_ & _ & c' & _ & _ & Hc' & Hink).
    rewrite escapeRev_cons, Hc'. cbn [app trimStart]. rewrite Hink. reflexivity.
Qed.

Lemma trimEnd_escapeHtml (s : jsstring) :
  trimEnd (InputValidator.escapeHtml s) = InputValidator.escapeHtml (trimEnd s).
Proof.
  unfold trimEnd.
  replace (rev (InputValidator.escapeHtml s)) with (escapeRev (rev s))
    by (unfold escapeRev; rewrite !rev_involutive; reflexivity).
  rewrite trimStart_escapeRev. unfold escapeRev. rewrite rev_involutive. reflexivity.
Qed.

Lemma trim_escapeHtml (s : jsstring) :
  trim (InputValidator.escapeHtml s) = InputValidator.escapeHtml (trim s).
Proof. unfold trim. rewrite trimStart_escapeHtml, trimEnd_escapeHtml. reflexivity. Qed.

Section Matcher.
Import RegExp.

Lemma rmatch_Star (r : regex) (prev : option N) (s : jsstring)
    (k : option N -> jsstring -> bool) :
  rmatch (Star r) prev s k = star_loop (rmatch r) k (length s) prev s.
Proof. reflexivity. Qed.

(** A continuation that never accepts makes the match fail. *)
Lemma rmatch_false (r : regex) :
  forall prev s k, (forall p s', k p s' = false) -> rmatch r prev s k = false.
Proof.
  induction r as [p | | r1 IH1 r2 IH2 | r1 IH1 r2 IH2 | r IH | r IH |];
    intros prev s k Hk.
  - cbn [rmatch]. destruct s as [|c s]; [reflexivity|]. destruct (p c); [apply Hk | reflexivity].
  - apply Hk.
  - cbn [rmatch]. apply IH1. intros p s'. apply IH2, Hk.
  - cbn [rmatch]. rewrite IH1, IH2 by exact Hk. reflexivity.
  - rewrite rmatch_Star. generalize (length s) as fuel. intros fuel. revert prev s.
    induction fuel as [|fuel IHf]; intros prev s; cbn [star_loop]; [apply Hk|].
    rewrite IH, Hk; [reflexivity|].
    intros p s'. destruct (length s' <? length s)%nat; [apply IHf | reflexivity].
  - cbn [rmatch]. destruct (rmatch r prev s _); [reflexivity | apply Hk].
  - cbn [rmatch]. destruct (xorb _ _); [apply Hk | reflexivity].
Qed.

Lemma escapeChar_special (x : N) :
  special x = true -> exists l, escapeChar x = 38%N :: l ++ [59%N].
Proof.
  intros Hs. apply special_cases in Hs as [-> | [-> | [-> | [-> | ->]]]].
  - exists (js "amp"). reflexivity.
  - exists (js "lt"). reflexivity.
  - exists (js "gt"). reflexivity.
  - exists (js "quot"). reflexivity.
  - exists (js "#x27"). reflexivity.
Qed.

Lemma escapeHtml_nil_inv (s : jsstring) : InputValidator.escapeHtml s = [] -> s = [].
Proof.
  destruct s as [|x s]; [reflexivity|]. rewrite escapeHtml_cons.
  destruct (special x) eqn:Hs.
  - destruct (escapeChar_special _ Hs) as [l ->]. discriminate.
  - rewrite (escapeChar_plain _ Hs). discriminate.
Qed.

Lemma suffix_escape_shorter (t' t : jsstring) :
  t' `suffix_of` t ->
  (length (InputValidator.escapeHtml t') < length (InputValidator.escapeHtml t))%nat ->
  (length t' < length t)%nat.
Proof.
  intros [k ->] Hlen. rewrite escapeHtml_app, length_app in Hlen. rewrite length_app.
  destruct k as [|x k]; [cbn in Hlen; lia | cbn; lia].
Qed.

(** A plain pattern that matches in the escaped text at the position of a
    code unit of the original matches in the original at that code unit. *)
Lemma rmatch_escapeHtml (r : regex) :
  plain r ->
  forall t pe po ke ko,
    (forall t' pe' po', t' `suffix_of` t ->
       ke pe' (InputValidator.escapeHtml t') = true -> ko po' t' = true) ->
    rmatch r pe (InputValidator.escapeHtml t) ke = true ->
    rmatch r po t ko = true.
Proof.
  induction r as [p | | r1 IH1 r2 IH2 | r1 IH1 r2 IH2 | r IH | r IH |];
    intros Hplain t pe po ke ko Hk Hm; cbn [plain] in Hplain.
  - destruct t as [|x t]; [discriminate Hm|].
    rewrite escapeHtml_cons in Hm. destruct (special x) eqn:Hs.
    + destruct (escapeChar_special _ Hs) as [l Hl]. rewrite Hl in Hm.
      cbn [app rmatch] in Hm. rewrite Hplain in Hm. discriminate.
    + rewrite (escapeChar_plain _ Hs) in Hm. cbn [app rmatch] in Hm |- *.
      destruct (p x); [|discriminate].
      apply (Hk t (Some x) (Some x)); [apply suffix_cons_r; reflexivity | exact Hm].
  - cbn [rmatch] in Hm |- *. apply (Hk t pe po); [reflexivity | exact Hm].
  - destruct Hplain as [Hp1 Hp2]. cbn [rmatch] in Hm |- *.
    apply (IH1 Hp1 t pe po (fun prev' s' => rmatch r2 prev' s' ke)); [|exact Hm].
    intros t' pe' po' Hsuf Hm2. apply (IH2 Hp2 t' pe' po' ke ko); [|exact Hm2].
    intros t'' pe'' po'' Hsuf2. apply Hk. etransitivity; eassumption.
  - destruct Hplain as [Hp1 Hp2]. cbn [rmatch] in Hm |- *.
    destruct (rmatch r1 pe _ ke) eqn:H1.
    + rewrite (IH1 Hp1 t pe po ke ko Hk H1). reflexivity.
    + rewrite (IH2 Hp2 t pe po ke ko Hk Hm). destruct (rmatch r1 po t ko); reflexivity.
  - rewrite rmatch_Star in Hm |- *.
    assert (Hloop : forall fe fo t' pe' po',
               t' `suffix_of` t -> (length t' <= fo)%nat ->
               star_loop (rmatch r) ke fe pe' (InputValidator.escapeHtml t') = true ->
               star_loop (rmatch r) ko fo po' t' = true).
    { induction fe as [|fe IHfe]; intros fo t' pe' po' Hsuf Hfo Hs.
      - cbn [star_loop] in Hs. apply (Hk t' pe' po' Hsuf) in Hs.
        destruct fo; cbn [star_loop]; [exact Hs|]. rewrite Hs.
        destruct (rmatch r po' t' _); reflexivity.
      - cbn [star_loop] in Hs.
        destruct (rmatch r pe' (InputValidator.escapeHtml t') _) eqn:Hiter.
        + destruct fo as [|fo].
          * assert (t' = []) by (destruct t'; [reflexivity | cbn in Hfo; lia]). subst t'.
            rewrite rmatch_false in Hiter; [discriminate|].
            intros p s'.
            change (length (InputValidator.escapeHtml [])) with 0%nat.
            destruct (length s' <? 0)%nat eqn:Hlt; [|reflexivity].
            apply Nat.ltb_lt in Hlt. lia.
          * cbn [star_loop].
            rewrite (IH Hplain t' pe' po'
                       (fun prev' s' =>
                          if (length s' <? length (InputValidator.escapeHtml t'))%nat
                          then star_loop (rmatch r) ke fe prev' s' else false)
                       (fun prev' s' =>
                          if (length s' <? length t')%nat
                          then star_loop (rmatch r) ko fo prev' s' else false));
              [reflexivity | | exact Hiter].
            intros t'' pe'' po'' Hsuf2 Hcont.
            destruct (length (InputValidator.escapeHtml t'')
                      <? length (InputValidator.escapeHtml t'))%nat eqn:Hlt;
              [|discriminate].
            apply Nat.ltb_lt in Hlt.
            pose proof (suffix_escape_shorter _ _ Hsuf2 Hlt) as Hshort.
            rewrite (proj2 (Nat.ltb_lt _ _) Hshort).
            apply (IHfe fo t'' pe'' po''); [etransitivity; eassumption | lia | exact Hcont].
        + apply (Hk t' pe' po' Hsuf) in Hs.
          destruct fo; cbn [star_loop]; [exact Hs|]. rewrite Hs.
          destruct (rmatch r po' t' _); reflexivity. }
    apply (Hloop (length (InputValidator.escapeHtml t)) (length t) t pe po);
      [reflexivity | lia | exact Hm].
  - contradiction.
  - contradiction.
Qed.

End Matcher.

Section Search.
Import RegExp.

Lemma search_escapeHtml (r : regex) :
  plain r -> skips_escapes r ->
  forall t pe po, search r pe (InputValidator.escapeHtml t) = true -> search r po t = true.
Proof.
  intros Hplain Hskip. induction t as [|x t IH]; intros pe po Hs.
  - change (InputValidator.escapeHtml []) with (@nil N) in Hs.
    cbn [search] in Hs |- *.
    destruct (rmatch r pe [] _) eqn:Hm; [|discriminate].
    rewrite (rmatch_escapeHtml r Hplain [] pe po (fun _ _ => true) (fun _ _ => true));
      [reflexivity | reflexivity | exact Hm].
  - rewrite escapeHtml_cons in Hs. destruct (special x) eqn:Hx.
    + rewrite (Hskip x pe _ Hx) in Hs. apply (IH _ (Some x)) in Hs.
      cbn [search]. rewrite Hs. destruct (rmatch r po (x :: t) _); reflexivity.
    + rewrite (escapeChar_plain _ Hx) in Hs. cbn [app search] in Hs |- *.
      destruct (rmatch r pe (x :: InputValidator.escapeHtml t) _) eqn:Hm.
      * replace (x :: InputValidator.escapeHtml t)
          with (InputValidator.escapeHtml (x :: t)) in Hm
          by (rewrite escapeHtml_cons, (escapeChar_plain _ Hx); reflexivity).
        rewrite (rmatch_escapeHtml r Hplain (x :: t) pe po
                   (fun _ _ => true) (fun _ _ => true)); [reflexivity | reflexivity | exact Hm].
      * apply (IH _ (Some x)) in Hs. rewrite Hs.
        destruct (rmatch r po (x :: t) _); reflexivity.
Qed.

(** A pattern that begins with a class containing only [<] matches only in
    a text that contains [<]. *)
Lemma search_first (p : N -> bool) (a b : regex) :
  (forall c, p c = true -> c = 60%N) ->
  forall e prev, search (Seq (Seq (Chr p) a) b) prev e = true -> In 60%N e.
Proof.
  intros Hp. induction e as [|c e IH]; intros prev Hs.
  - discriminate Hs.
  - cbn [search rmatch] in Hs. destruct (p c) eqn:Hc.
    + left. apply Hp, Hc.
    + right. apply (IH (Some c)). exact Hs.
Qed.

Lemma canonicalize_lt (c : N) :
  (canonicalize c =? canonicalize 60)%N = true -> c = 60%N.
Proof.
  change (canonicalize 60) with 60%N. unfold canonicalize.
  destruct ((97 <=? c) && (c <=? 122))%N eqn:Hrange; intros Heq; apply N.eqb_eq in Heq.
  - apply andb_prop in Hrange as [H1 H2]. apply N.leb_le in H1. lia.
  - exact Heq.
Qed.

Lemma escapeHtml_no_lt (t : jsstring) : ~ In 60%N (InputValidator.escapeHtml t).
Proof.
  induction t as [|x t IH]; [intros []|].
  rewrite escapeHtml_cons. intros Hin. apply in_app_or in Hin as [Hin | Hin]; [|exact (IH Hin)].
  destruct (special x) eqn:Hx.
  - apply special_cases in Hx as [-> | [-> | [-> | [-> | ->]]]];
      cbn in Hin; repeat (destruct Hin as [Hin | Hin]; [discriminate|]); exact Hin.
  - rewrite (escapeChar_plain _ Hx) in Hin. destruct Hin as [-> | []].
    discriminate Hx.
Qed.

Lemma plain_javascript : plain InputValidator.javascriptPattern.
Proof. cbn. repeat split; reflexivity. Qed.

Lemma skips_javascript : skips_escapes InputValidator.javascriptPattern.
Proof.
  intros x prev rest Hx.
  apply special_cases in Hx as [-> | [-> | [-> | [-> | ->]]]]; reflexivity.
Qed.

Lemma plain_handler : plain InputValidator.handlerPattern.
Proof. cbn. repeat split; reflexivity. Qed.

Lemma skips_handler : skips_escapes InputValidator.handlerPattern.
Proof.
  intros x prev rest Hx.
  apply special_cases in Hx as [-> | [-> | [-> | [-> | ->]]]]; reflexivity.
Qed.

(** Escaping does not create a match of an unsafe-content pattern. *)
Lemma containsUnsafeCharacters_escapeHtml (t : jsstring) :
  InputValidator.containsUnsafeCharacters (InputValidator.escapeHtml t) = true ->
  InputValidator.containsUnsafeCharacters t = true.
Proof.
  unfold InputValidator.containsUnsafeCharacters, InputValidator.unsafePatterns, test.
  unfold InputValidator.scriptPattern, InputValidator.iframePattern.
  cbn [existsb]. rewrite !orb_true_iff.
  intros [Hm | [Hm | [Hm | [Hm | [=]]]]].
  - apply (search_first _ _ _ canonicalize_lt) in Hm.
    destruct (escapeHtml_no_lt _ Hm).
  - apply (search_first _ _ _ canonicalize_lt) in Hm.
    destruct (escapeHtml_no_lt _ Hm).
  - right. right. left.
    exact (search_escapeHtml _ plain_javascript skips_javascript t None None Hm).
  - right. right. right. left.
    exact (search_escapeHtml _ plain_handler skips_handler t None None Hm).
Qed.

End Search.

(** The text that [addTodo] stores for an accepted input is free of unsafe
    patterns. *)
Lemma sanitizeText_safe (s : jsstring) :
  InputValidator.containsUnsafeCharacters (trim s) = false ->
  InputValidator.containsUnsafeCharacters
    (trim (trim (InputValidator.sanitizeText (Some (JString s))))) = false.
Proof.
  intros Hs. cbn [InputValidator.sanitizeText].
  rewrite !trim_idempotent, trim_escapeHtml.
  destruct (InputValidator.containsUnsafeCharacters (InputValidator.escapeHtml (trim s)))
    eqn:Hu; [|reflexivity].
  apply containsUnsafeCharacters_escapeHtml in Hu. congruence.
Qed.

(** ** Adding *)

(** What [validateTaskText] accepts. *)
Lemma validateTaskText_valid (text : value) :
  ValidationResult.isValid (InputValidator.validateTaskText text) = true <->
  exists s, text = Some (JString s)
            /\ (1 <= length (trim s) <= 200)%nat
            /\ InputValidator.containsUnsafeCharacters (trim s) = false.
Proof.
  unfold InputValidator.validateTaskText.
  destruct text as [[| b | x | s | l | fields]|];
    try solve [split; [intros [=] | intros (s' & [=] & _)]].
  cbv zeta. split.
  - intros Hvalid. exists s.
    destruct (Nat.eqb_spec (length (trim s)) 0); [discriminate|].
    destruct (Nat.ltb_spec 200 (length (trim s))); [discriminate|].
    destruct (Nat.ltb_spec (length (trim s)) 1); [discriminate|].
    destruct (InputValidator.containsUnsafeCharacters (trim s)); [discriminate|].
    repeat split; lia.
  - intros (s' & [= <-] & Hlen & ->).
    destruct (Nat.eqb_spec (length (trim s)) 0); [lia|].
    destruct (Nat.ltb_spec 200 (length (trim s))); [lia|].
    destruct (Nat.ltb_spec (length (trim s)) 1); [lia|].
    reflexivity.
Qed.

(** An accepted text whose escaped form still fits in 200 code units is
    added, when the save succeeds: the count grows by one. *)
Lemma addTodo_accepts (app : TodoApp.t) (s : jsstring) (now : Z) (random : jsstring) :
  ValidationResult.isValid (InputValidator.validateTaskText (Some (JString s))) = true ->
  (length (InputValidator.sanitizeText (Some (JString s))) <= 200)%nat ->
  let newTodo :=
    Todo.mk (Todo.generateId now random) (InputValidator.sanitizeText (Some (JString s)))
      false now in
  let saved := TodoApp.save (TodoApp.todos app ++ [newTodo]) (TodoApp.storageManager app) in
  StorageResult.success (fst saved) = true ->
  let '(result, app') := TodoApp.addTodo (Some (JString s)) now random app in
  result = TodoApp.mkResult true (Some newTodo) None None
  /\ TodoApp.getAllTodos app' = TodoApp.getAllTodos app ++ [newTodo]
  /\ TodoApp.getTodoCount app' = (TodoApp.getTodoCount app + 1)%nat.
Proof.
  intros Hvalid Hlen newTodo saved Hsaved.
  pose proof Hvalid as Hv. apply validateTaskText_valid in Hv as (s' & [= <-] & Hs & _).
  unfold TodoApp.addTodo. rewrite Hvalid. cbn [negb].
  cbn [InputValidator.sanitizeText] in *.
  rewrite trim_idempotent.
  assert (Hok : text_ok (trim (InputValidator.escapeHtml s))).
  { unfold text_ok. rewrite trim_idempotent. split; [|exact Hlen].
    destruct (trim (InputValidator.escapeHtml s)) eqn:Ht; [|cbn; lia].
    apply trim_nil_ink in Ht. rewrite has_ink_escapeHtml in Ht.
    apply trim_nil_ink in Ht. rewrite Ht in Hs. cbn in Hs. lia. }
  rewrite (new_default_valid _ _ now (generateId_ok now random) Hok).
  cbv zeta. fold newTodo. fold saved. destruct saved as [saveResult sm].
  cbn [fst] in Hsaved. rewrite Hsaved. cbn [negb].
  unfold TodoApp.getAllTodos, TodoApp.getTodoCount. cbn [TodoApp.todos].
  rewrite length_app. repeat split; reflexivity.
Qed.

(** C2 fails on the code.  [ampersandText] is accepted by the validator, but
    its escaped form has 201 code units, the constructor of Todo throws, and
    [addTodo] reports a failure and adds nothing, whatever the storage does. *)
Theorem addTodo_rejects_accepted_text (app : TodoApp.t) (now : Z) (random : jsstring) :
  length (trim ampersandText) = 197%nat
  /\ InputValidator.containsUnsafeCharacters (trim ampersandText) = false
  /\ ValidationResult.isValid
       (InputValidator.validateTaskText (Some (JString ampersandText))) = true
  /\ length (InputValidator.sanitizeText (Some (JString ampersandText))) = 201%nat
  /\ let '(result, app') := TodoApp.addTodo (Some (JString ampersandText)) now random app in
     TodoApp.success result = false
     /\ TodoApp.error result
        = Some ("タスクの追加に失敗しました: " +:+ Todo.MSG_TEXT_LONG)
     /\ app' = app
     /\ TodoApp.getTodoCount app' = TodoApp.getTodoCount app.
Proof.
  split; [vm_compute; reflexivity|]. split; [vm_compute; reflexivity|].
  split; [vm_compute; reflexivity|]. split; [vm_compute; reflexivity|].
  unfold TodoApp.addTodo.
  replace (ValidationResult.isValid
             (InputValidator.validateTaskText (Some (JString ampersandText))))
    with true by (vm_compute; reflexivity).
  cbn [negb]. unfold Todo.new.
  rewrite (proj2 (validateId_Return _ _) (conj eq_refl (generateId_ok now random))).
  cbn [mbind completion_bind].
  replace (Todo.validateText
             (Some (JString (trim (InputValidator.sanitizeText (Some (JString ampersandText)))))))
    with (@Throw (list N) (Error Todo.MSG_TEXT_LONG)) by (vm_compute; reflexivity).
  cbn [mbind completion_bind]. repeat split; reflexivity.
Qed.

(** ** The tasks of the registry *)

(** C3, as stated, fails: a stored record whose text matches an unsafe
    pattern is loaded into the registry by [initialize]; the validator
    rejects the text of the task that the registry now holds. *)
Lemma initialize_loads_unsafe_text :
  let record :=
    JObject [ (js "id", JString (js "1"));
              (js "text", JString (js "javascript:alert(1)"));
              (js "completed", JBool false);
              (js "createdAt", JString (js "2023-11-14T22:13:20.000Z")) ] in
  let medium :=
    Examples.healthy {[ StorageManager.STORAGE_KEY := LocalStorage.Doc (JArray [record]) ]} in
  let app := snd (TodoApp.initialize (TodoApp.new medium)) in
  exists todo,
    TodoApp.getAllTodos app = [todo]
    /\ InputValidator.containsUnsafeCharacters (trim (Todo.text todo)) = true
    /\ ValidationResult.isValid
         (InputValidator.validateTaskText (Some (JString (Todo.text todo)))) = false.
Proof.
  eexists. split; [vm_compute; reflexivity|]. split; vm_compute; reflexivity.
Qed.

Section Invariant.
Context `{DateEngine}.

Lemma fromJSON_valid (record : json) (todo : Todo.t) :
  Todo.fromJSON record = Return todo -> valid todo.
Proof.
  unfold Todo.fromJSON. intros Hr.
  repeat match type of Hr with
         | mbind _ ?c = _ => destruct c; cbn [mbind completion_bind] in Hr; [|discriminate]
         end.
  apply new_Return in Hr. tauto.
Qed.

Lemma restore_valid (records : list json) : Forall valid (StorageManager.restore records).
Proof.
  induction records as [|record records IH]; [constructor|].
  rewrite restore_cons. destruct (Todo.fromJSON record) eqn:Hr; [|exact IH].
  constructor; [eapply fromJSON_valid, Hr | exact IH].
Qed.

Lemma loadTodos_valid (this : StorageManager.t) (todos : list Todo.t) :
  StorageResult.data (StorageManager.loadTodos this) = Some todos -> Forall valid todos.
Proof.
  unfold StorageManager.loadTodos.
  repeat match goal with
         | |- context [match ?x with _ => _ end] => destruct x
         end; cbn; intros [= <-]; first [apply restore_valid | constructor].
Qed.

Lemma initialize_valid (app : TodoApp.t) :
  Forall valid (TodoApp.todos (snd (TodoApp.initialize app))).
Proof.
  unfold TodoApp.initialize, TodoApp.initialize_with.
  destruct (loadTodos_success (TodoApp.storageManager app)) as [-> [todos Hdata]].
  rewrite Hdata. apply loadTodos_valid in Hdata.
  destruct (negb _); exact Hdata.
Qed.

(** What [addTodo] does to the sequence: nothing, or it appends the Todo
    built from the escaped and trimmed text of an accepted input. *)
Lemma addTodo_cases (app : TodoApp.t) (text : value) (now : Z) (random : jsstring) :
  let '(result, app') := TodoApp.addTodo text now random app in
  (TodoApp.success result = false /\ TodoApp.todos app' = TodoApp.todos app)
  \/ (exists s newTodo,
        text = Some (JString s)
        /\ ValidationResult.isValid (InputValidator.validateTaskText text) = true
        /\ Todo.text newTodo = trim (InputValidator.sanitizeText text)
        /\ valid newTodo
        /\ result = TodoApp.mkResult true (Some newTodo) None None
        /\ TodoApp.todos app' = TodoApp.todos app ++ [newTodo]).
Proof.
  unfold TodoApp.addTodo.
  destruct (ValidationResult.isValid (InputValidator.validateTaskText text)) eqn:Hvalid;
    cbn [negb]; [|left; split; reflexivity].
  pose proof Hvalid as Hv. apply validateTaskText_valid in Hv as (s & -> & _).
  destruct (Todo.new _ _ _ _) as [newTodo|] eqn:Hnew; [|left; split; reflexivity].
  cbv zeta. destruct (TodoApp.save _ _) as [saveResult sm].
  destruct (StorageResult.success saveResult); cbn [negb].
  - right. exists s, newTodo.
    apply new_Return in Hnew as (Hnew & _ & [= Htext] & _).
    split; [reflexivity|]. split; [reflexivity|]. split; [symmetry; exact Htext|].
    split; [exact Hnew|]. split; reflexivity.
  - left. split; [reflexivity|]. cbn [TodoApp.todos]. apply removelast_last.
Qed.

Lemma addTodo_Forall (P : Todo.t -> Prop) (app : TodoApp.t) (text : value)
    (now : Z) (random : jsstring) :
  (forall s newTodo,
     ValidationResult.isValid (InputValidator.validateTaskText (Some (JString s))) = true ->
     Todo.text newTodo = trim (InputValidator.sanitizeText (Some (JString s))) ->
     valid newTodo -> P newTodo) ->
  Forall P (TodoApp.todos app) ->
  Forall P (TodoApp.todos (snd (TodoApp.addTodo text now random app))).
Proof.
  intros Hnew Hinv. pose proof (addTodo_cases app text now random) as Hcases.
  destruct (TodoApp.addTodo text now random app) as [result app']. cbn [snd].
  destruct Hcases as [[_ ->] | (s & newTodo & -> & Hvalid & Htext & Hv & _ & ->)];
    [exact Hinv|].
  apply Forall_app. split; [exact Hinv|]. constructor; [|constructor]. eauto.
Qed.

Lemma toggleTodo_Forall (P : Todo.t -> Prop) (app : TodoApp.t) (id : value) :
  (forall todo, valid todo -> P todo -> P (toggled todo)) ->
  Forall P (TodoApp.todos app) ->
  Forall P (TodoApp.todos (snd (TodoApp.toggleTodo id app))).
Proof.
  intros Htoggled Hinv. unfold TodoApp.toggleTodo.
  destruct (TodoApp.idArgument id); [|exact Hinv].
  destruct (TodoApp.findIndex _ _) as [[i cur]|] eqn:Hfind; [|exact Hinv].
  apply findIndex_Some in Hfind as (Hi & _).
  destruct (Todo.toggle cur) as [tog|] eqn:Htoggle; [|exact Hinv].
  apply toggle_Return in Htoggle as [Hcur ->].
  cbv zeta. destruct (TodoApp.save _ _) as [saveResult sm].
  destruct (negb _); cbn [snd TodoApp.todos].
  - rewrite list_insert_insert_eq, list_insert_id by exact Hi. exact Hinv.
  - apply Forall_insert; [exact Hinv|]. apply Htoggled; [exact Hcur|].
    rewrite Forall_forall in Hinv. apply Hinv. eapply list_elem_of_lookup_2, Hi.
Qed.

Lemma deleteTodo_Forall (P : Todo.t -> Prop) (app : TodoApp.t) (id : value) :
  Forall P (TodoApp.todos app) ->
  Forall P (TodoApp.todos (snd (TodoApp.deleteTodo id app))).
Proof.
  intros Hinv. unfold TodoApp.deleteTodo.
  destruct (TodoApp.idArgument id); [|exact Hinv].
  destruct (TodoApp.findIndex _ _) as [[i cur]|] eqn:Hfind; [|exact Hinv].
  apply findIndex_Some in Hfind as (Hi & _).
  cbv zeta. destruct (TodoApp.save _ _) as [saveResult sm].
  destruct (negb _); cbn [snd TodoApp.todos].
  - rewrite splice_in_delete by exact Hi. exact Hinv.
  - apply Forall_delete, Hinv.
Qed.

Lemma clearAllTodos_Forall (P : Todo.t -> Prop) (app : TodoApp.t) :
  Forall P (TodoApp.todos app) ->
  Forall P (TodoApp.todos (snd (TodoApp.clearAllTodos app))).
Proof.
  intros Hinv. unfold TodoApp.clearAllTodos.
  destruct (StorageManager.clearTodos _) as [clearResult sm].
  destruct (negb _); cbn [snd TodoApp.todos]; [exact Hinv | constructor].
Qed.

(** The Todo that [addTodo] builds from an accepted input is safe. *)
Lemma addTodo_new_safe (s : jsstring) (newTodo : Todo.t) :
  ValidationResult.isValid (InputValidator.validateTaskText (Some (JString s))) = true ->
  Todo.text newTodo = trim (InputValidator.sanitizeText (Some (JString s))) ->
  safe newTodo.
Proof.
  intros Hvalid Htext. apply validateTaskText_valid in Hvalid as (s' & [= <-] & _ & Hsafe).
  unfold safe. rewrite Htext. apply sanitizeText_safe, Hsafe.
Qed.

Lemma reachable_valid (app : TodoApp.t) : reachable app -> Forall valid (TodoApp.todos app).
Proof.
  induction 1 as [ls | app _ IH | app text now random _ IH | app id _ IH
                 | app id _ IH | app _ IH | app sm _ IH].
  - constructor.
  - apply initialize_valid.
  - apply addTodo_Forall; [auto | exact IH].
  - apply toggleTodo_Forall; [intros todo Hv _; apply toggled_valid, Hv | exact IH].
  - apply deleteTodo_Forall, IH.
  - apply clearAllTodos_Forall, IH.
  - exact IH.
Qed.

(** C3, amended.  At every reachable state of the registry every task
    satisfies what the constructor of Todo checks: its id is a string that is
    not blank and its text is a string of trimmed length 1 to 200.  The
    unsafe-content constraint is kept by the mutations of the registry: when
    no task of the sequence matches an unsafe pattern, none does after
    [addTodo] (which succeeds only on an input that the validator accepts,
    and stores its escaped form), [toggleTodo], [deleteTodo] or
    [clearAllTodos].  It is not checked on the records that [initialize]
    loads from storage. *)
Theorem registry_tasks_valid (app : TodoApp.t) :
  reachable app ->
  (forall todo, In todo (TodoApp.getAllTodos app) ->
     trim (Todo.id todo) <> []
     /\ (1 <= length (trim (Todo.text todo)) <= 200)%nat)
  /\ (forall text now random,
        TodoApp.success (fst (TodoApp.addTodo text now random app)) = true ->
        ValidationResult.isValid (InputValidator.validateTaskText text) = true)
  /\ (Forall safe (TodoApp.getAllTodos app) ->
      (forall text now random,
         Forall safe (TodoApp.getAllTodos (snd (TodoApp.addTodo text now random app))))
      /\ (forall id, Forall safe (TodoApp.getAllTodos (snd (TodoApp.toggleTodo id app))))
      /\ (forall id, Forall safe (TodoApp.getAllTodos (snd (TodoApp.deleteTodo id app))))
      /\ Forall safe (TodoApp.getAllTodos (snd (TodoApp.clearAllTodos app)))).
Proof.
  intros Hreach. unfold TodoApp.getAllTodos. split; [|split].
  - pose proof (reachable_valid app Hreach) as Hinv.
    intros todo Hin. rewrite Forall_forall in Hinv.
    apply Hinv, list_elem_of_In, Hin.
  - intros text now random Hsuccess.
    pose proof (addTodo_cases app text now random) as Hcases.
    destruct (TodoApp.addTodo text now random app) as [result app']. cbn [fst] in Hsuccess.
    destruct Hcases as [[Hfail _] | (s & newTodo & _ & Hvalid & _)];
      [congruence | exact Hvalid].
  - intros Hsafe. repeat split.
    + intros text now random. apply addTodo_Forall; [|exact Hsafe].
      intros s newTodo Hvalid Htext _. eapply addTodo_new_safe; eassumption.
    + intros id. apply toggleTodo_Forall; [|exact Hsafe]. intros todo _ Hs. exact Hs.
    + intros id. apply deleteTodo_Forall, Hsafe.
    + apply clearAllTodos_Forall, Hsafe.
Qed.

End Invariant.

Lemma registry_tasks_valid_witness :
  let app :=
    snd (TodoApp.addTodo (Some (JString (js "buy milk"))) 1700000000000 (js "k3j9x2m1q")
           (snd (TodoApp.initialize (TodoApp.new (Examples.healthy ∅))))) in
  let todo := Todo.mk (js "todo_1700000000000_k3j9x2m1q") (js "buy milk") false 1700000000000 in
  In todo (TodoApp.getAllTodos app)
  /\ trim (Todo.id todo) <> []
  /\ (1 <= length (trim (Todo.text todo)) <= 200)%nat.
Proof.
  split; [left; reflexivity|].
  apply (proj1 (registry_tasks_valid _
                  (reach_addTodo _ (Some (JString (js "buy milk"))) 1700000000000
                     (js "k3j9x2m1q")
                     (reach_initialize _ (reach_new (Examples.healthy ∅)))))).
  left. reflexivity.
Defined.


(** * Further properties of the code *)

(** ** js/validation.js: escaping *)

Lemma In_trimStart (c : N) (s : jsstring) : In c (trimStart s) -> In c s.
Proof.
  induction s as [|x s IH]; [intros []|].
  cbn [trimStart]. destruct (isWhiteSpace x); [right; auto | auto].
Qed.

Lemma In_trim (c : N) (s : jsstring) : In c (trim s) -> In c s.
Proof.
  unfold trim, trimEnd. intros Hin.
  apply (proj2 (in_rev _ _)) in Hin. apply In_trimStart in Hin.
  apply (proj2 (in_rev _ _)) in Hin. apply In_trimStart, Hin.
Qed.

Lemma In_escapeChar (c x : N) :
  In c (escapeChar x) ->
  c <> 60%N /\ c <> 62%N /\ c <> 34%N /\ c <> 39%N.
Proof.
  intros Hin. destruct (special x) eqn:Hx.
  - apply special_cases in Hx as [-> | [-> | [-> | [-> | ->]]]]; cbn in Hin;
      repeat (destruct Hin as [<- | Hin]; [repeat split; discriminate|]); destruct Hin.
  - rewrite (escapeChar_plain _ Hx) in Hin. destruct Hin as [<- | []].
    unfold special in Hx. repeat (apply orb_false_elim in Hx as [Hx ?]).
    repeat match goal with H : (_ =? _)%N = false |- _ => apply N.eqb_neq in H end.
    tauto.
Qed.

(** X1. The text returned by [sanitizeText] holds none of the characters
    [<], [>], double quote and single quote, whatever the input. *)
Theorem sanitizeText_no_markup (text : value) :
  Forall (fun c => c <> 60%N /\ c <> 62%N /\ c <> 34%N /\ c <> 39%N)
    (InputValidator.sanitizeText text).
Proof.
  apply List.Forall_forall. intros c.
  destruct text as [[| | | s | |]|]; cbn [InputValidator.sanitizeText]; try (intros []).
  intros Hin. apply In_trim in Hin. induction s as [|x s IH]; [destruct Hin|].
  rewrite escapeHtml_cons in Hin. apply in_app_or in Hin as [Hin | Hin]; [|exact (IH Hin)].
  eapply In_escapeChar, Hin.
Qed.

Lemma escapeHtml_plain (s : jsstring) :
  List.Forall (fun c => special c = false) s -> InputValidator.escapeHtml s = s.
Proof.
  induction 1 as [|x s Hx _ IH]; [reflexivity|].
  rewrite escapeHtml_cons, (escapeChar_plain _ Hx), IH. reflexivity.
Qed.

Lemma Forall_trim (P : N -> Prop) (s : jsstring) : List.Forall P s -> List.Forall P (trim s).
Proof.
  rewrite !List.Forall_forall. intros Hs c Hin. apply Hs, In_trim, Hin.
Qed.

Lemma sanitizeText_string (s : jsstring) :
  InputValidator.sanitizeText (Some (JString s)) = InputValidator.escapeHtml (trim s).
Proof. cbn [InputValidator.sanitizeText]. apply trim_escapeHtml. Qed.

(** X2. [sanitizeText] escapes the trimmed text: trimming before or after
    the escaping gives the same result.  A string without [&], [<], [>] and
    quotes is returned trimmed and otherwise unchanged; anything that is not
    a string gives the empty string. *)
Theorem sanitizeText_spec (text : value) :
  match text with
  | Some (JString s) =>
      InputValidator.sanitizeText text = InputValidator.escapeHtml (trim s)
      /\ (List.Forall (fun c => special c = false) s ->
          InputValidator.sanitizeText text = trim s)
  | _ => InputValidator.sanitizeText text = []
  end.
Proof.
  destruct text as [[| | | s | |]|]; try reflexivity.
  rewrite sanitizeText_string. split; [reflexivity|].
  intros Hs. apply escapeHtml_plain, Forall_trim, Hs.
Qed.

Lemma length_escapeChar (x : N) : (1 <= length (escapeChar x) <= 6)%nat.
Proof.
  destruct (special x) eqn:Hx.
  - apply special_cases in Hx as [-> | [-> | [-> | [-> | ->]]]]; cbn; lia.
  - rewrite (escapeChar_plain _ Hx). cbn. lia.
Qed.

Lemma length_escapeHtml (s : jsstring) :
  (length s <= length (InputValidator.escapeHtml s) <= 6 * length s)%nat.
Proof.
  induction s as [|x s IH]; [cbn; lia|].
  rewrite escapeHtml_cons, length_app. pose proof (length_escapeChar x). cbn [length]. lia.
Qed.

(** X3. Escaping never shortens a text and at most multiplies its length by
    six: the sanitized text of a string has between one and six times the
    trimmed length of the string. *)
Theorem sanitizeText_length (s : jsstring) :
  (length (trim s) <= length (InputValidator.sanitizeText (Some (JString s)))
   <= 6 * length (trim s))%nat.
Proof.
  rewrite sanitizeText_string. apply length_escapeHtml.
Qed.

Lemma escapeChar_app_inj (x y : N) (r1 r2 : jsstring) :
  escapeChar x ++ r1 = escapeChar y ++ r2 -> x = y /\ r1 = r2.
Proof.
  destruct (special x) eqn:Hx, (special y) eqn:Hy.
  - apply special_cases in Hx as [-> | [-> | [-> | [-> | ->]]]];
      apply special_cases in Hy as [-> | [-> | [-> | [-> | ->]]]];
      cbn; intros [=]; subst; split; reflexivity.
  - rewrite (escapeChar_plain _ Hy).
    destruct (escapeChar_special _ Hx) as [l ->]. cbn. intros [= <- _].
    discriminate Hy.
  - rewrite (escapeChar_plain _ Hx).
    destruct (escapeChar_special _ Hy) as [l ->]. cbn. intros [= -> _].
    discriminate Hx.
  - rewrite (escapeChar_plain _ Hx), (escapeChar_plain _ Hy). cbn.
    intros [= -> ->]. split; reflexivity.
Qed.

Lemma escapeHtml_inj (s1 s2 : jsstring) :
  InputValidator.escapeHtml s1 = InputValidator.escapeHtml s2 -> s1 = s2.
Proof.
  revert s2. induction s1 as [|x s1 IH]; intros [|y s2] Heq.
  - reflexivity.
  - symmetry in Heq. apply escapeHtml_nil_inv in Heq. discriminate.
  - apply escapeHtml_nil_inv in Heq. discriminate.
  - rewrite !escapeHtml_cons in Heq. apply escapeChar_app_inj in Heq as [-> Heq].
    f_equal. apply IH, Heq.
Qed.

(** X4. The escaping loses nothing: two strings with the same sanitized text
    have the same trimmed text. *)
Theorem sanitizeText_injective (s1 s2 : jsstring) :
  InputValidator.sanitizeText (Some (JString s1))
  = InputValidator.sanitizeText (Some (JString s2)) ->
  trim s1 = trim s2.
Proof.
  rewrite !sanitizeText_string. apply escapeHtml_inj.
Qed.

Lemma sanitizeText_injective_witness :
  trim (js "  a < b ") = trim (js "a < b").
Proof.
  apply (sanitizeText_injective (js "  a < b ") (js "a < b")). reflexivity.
Defined.

(** ** js/validation.js: the validators *)

Lemma nonEmptyString_Some (text : value) (s : jsstring) :
  InputValidator.nonEmptyString text = Some s <-> text = Some (JString s) /\ s <> [].
Proof.
  unfold InputValidator.nonEmptyString.
  destruct text as [[| | | s' | |]|]; try (split; [discriminate | intros [[=] _]]).
  destruct s' as [|c s']; cbn.
  - split; [discriminate | intros [[= <-] Hs]; contradiction].
  - split; [intros [= <-]; split; [reflexivity | discriminate] | intros [[= <-] _]; reflexivity].
Qed.

(** X5. Acceptance by the three single validators.  [validateNotEmpty]
    accepts the strings that are not blank.  [validateMaxLength] and
    [validateMinLength] compare the trimmed length with the bound, and both
    reject the empty string and every value that is not a string, whatever
    the bound: the empty string fails [validateMaxLength] although a blank
    string passes it. *)
Theorem validators_accept (text : value) (bound : nat) :
  (ValidationResult.isValid (InputValidator.validateNotEmpty text) = true <->
   exists s, text = Some (JString s) /\ trim s <> [])
  /\ (ValidationResult.isValid (InputValidator.validateMaxLength text bound) = true <->
      exists s, text = Some (JString s) /\ s <> [] /\ (length (trim s) <= bound)%nat)
  /\ (ValidationResult.isValid (InputValidator.validateMinLength text bound) = true <->
      exists s, text = Some (JString s) /\ s <> [] /\ (bound <= length (trim s))%nat).
Proof.
  unfold InputValidator.validateNotEmpty, InputValidator.validateMaxLength,
    InputValidator.validateMinLength.
  destruct (InputValidator.nonEmptyString text) as [s|] eqn:Hs.
  - apply nonEmptyString_Some in Hs as [-> Hne].
    split; [|split]; split.
    + intros Hv. exists s. split; [reflexivity|].
      destruct (trim s); [discriminate Hv | discriminate].
    + intros (s' & [= <-] & Ht). destruct (trim s); [contradiction | reflexivity].
    + intros Hv. exists s. split; [reflexivity|]. split; [exact Hne|].
      destruct (Nat.ltb_spec bound (length (trim s))); [discriminate Hv | lia].
    + intros (s' & [= <-] & _ & Hle).
      destruct (Nat.ltb_spec bound (length (trim s))); [lia | reflexivity].
    + intros Hv. exists s. split; [reflexivity|]. split; [exact Hne|].
      destruct (Nat.ltb_spec (length (trim s)) bound); [discriminate Hv | lia].
    + intros (s' & [= <-] & _ & Hle).
      destruct (Nat.ltb_spec (length (trim s)) bound); [lia | reflexivity].
  - assert (Hno : forall s, text = Some (JString s) -> s <> [] -> False).
    { intros s -> Hne. cbn in Hs. destruct s; [contradiction | discriminate]. }
    split; [|split]; (split; [intros Hv; discriminate Hv|]).
    + intros (s & -> & Ht). exfalso. apply (Hno s eq_refl). intros ->. apply Ht. reflexivity.
    + intros (s & -> & Hne & _). exfalso. exact (Hno s eq_refl Hne).
    + intros (s & -> & Hne & _). exfalso. exact (Hno s eq_refl Hne).
Qed.

(** X6. [validateAll] returns the result of the first validator that
    rejects the text, and a success when none does. *)
Theorem validateAll_first_failure (text : value)
    (validators : list (value -> ValidationResult.t)) :
  (ValidationResult.isValid (InputValidator.validateAll text validators) = true <->
   List.Forall (fun validator => ValidationResult.isValid (validator text) = true) validators)
  /\ (ValidationResult.isValid (InputValidator.validateAll text validators) = false ->
      exists passed validator rest,
        validators = passed ++ validator :: rest
        /\ List.Forall (fun v => ValidationResult.isValid (v text) = true) passed
        /\ ValidationResult.isValid (validator text) = false
        /\ InputValidator.validateAll text validators = validator text).
Proof.
  induction validators as [|v vs [IHiff IHfail]].
  - split; [split; [constructor | reflexivity] | discriminate].
  - cbn [InputValidator.validateAll].
    destruct (ValidationResult.isValid (v text)) eqn:Hv; cbn [negb].
    + split.
      * rewrite IHiff. split; [intros Hvs; constructor; assumption|].
        intros Hall. inversion Hall; assumption.
      * intros Hfail. destruct (IHfail Hfail) as (passed & w & rest & -> & Hp & Hw & Heq).
        exists (v :: passed), w, rest. repeat split; try assumption.
        constructor; assumption.
    + split.
      * rewrite Hv. split; [discriminate|].
        intros Hall. inversion Hall as [|? ? Hv' _]. cbn beta in Hv'. congruence.
      * intros _. exists [], v, vs. repeat split; [constructor | exact Hv].
Qed.

Local Ltac vr :=
  unfold ValidationResult.error, ValidationResult.success;
  cbn [ValidationResult.isValid negb].

(** X7. [validateTaskText] accepts a value exactly when the three single
    validators, with the bounds 200 and 1, accept it and its trimmed text
    matches no unsafe-content pattern. *)
Theorem validateTaskText_composes (text : value) :
  ValidationResult.isValid (InputValidator.validateTaskText text) = true <->
  ValidationResult.isValid
    (InputValidator.validateAll text
       [ InputValidator.validateNotEmpty;
         (fun t => InputValidator.validateMaxLength t 200);
         (fun t => InputValidator.validateMinLength t 1) ]) = true
  /\ InputValidator.containsUnsafeCharacters (trimmedOf text) = false.
Proof.
  rewrite validateTaskText_valid. cbn [InputValidator.validateAll].
  unfold InputValidator.validateNotEmpty, InputValidator.validateMaxLength,
    InputValidator.validateMinLength.
  destruct (InputValidator.nonEmptyString text) as [s|] eqn:Hs.
  - apply nonEmptyString_Some in Hs as [-> Hne]. cbn [trimmedOf].
    destruct (Nat.eqb_spec (length (trim s)) 0) as [H0|H0]; vr.
    + split; [intros (s' & [= <-] & Hlen & _); lia | intros [[=] _]].
    + destruct (Nat.ltb_spec 200 (length (trim s))) as [H2|H2]; vr.
      * split; [intros (s' & [= <-] & Hlen & _); lia | intros [[=] _]].
      * destruct (Nat.ltb_spec (length (trim s)) 1) as [H1|H1]; [lia|]. vr.
        split; [intros (s' & [= <-] & _ & Hu); split; [reflexivity | exact Hu]|].
        intros [_ Hu]. exists s. repeat split; [lia | lia | exact Hu].
  - vr. split; [|intros [[=] _]].
    intros (s & -> & Hlen & _). cbn in Hs.
    destruct s; [cbn in Hlen; lia | discriminate].
Qed.

(** X8. The validator is the constructor's check of a text plus the
    unsafe-content check: [validateTaskText] accepts a value exactly when
    the constructor of Todo accepts it as a text and its trimmed form
    matches no unsafe-content pattern. *)
Theorem validateTaskText_vs_constructor (text : value) :
  ValidationResult.isValid (InputValidator.validateTaskText text) = true <->
  exists s, Todo.validateText text = Return s
            /\ InputValidator.containsUnsafeCharacters (trim s) = false.
Proof.
  rewrite validateTaskText_valid. split.
  - intros (s & -> & Hlen & Hsafe). exists s. split; [|exact Hsafe].
    apply validateText_Return. split; [reflexivity | exact Hlen].
  - intros (s & Hs & Hsafe). apply validateText_Return in Hs as [-> Hlen].
    exists s. split; [reflexivity|]. split; assumption.
Qed.

(** ** js/validation.js: what an unsafe-content pattern needs *)

Section Consumes.
Import RegExp.

(** A successful match hands a suffix of the input to its continuation. *)
Lemma rmatch_continues (r : regex) :
  forall prev s k, rmatch r prev s k = true ->
    exists prev' s', s' `suffix_of` s /\ k prev' s' = true.
Proof.
  induction r as [p | | r1 IH1 r2 IH2 | r1 IH1 r2 IH2 | r IH | r IH |];
    intros prev s k Hm.
  - destruct s as [|c s]; [discriminate Hm|]. cbn [rmatch] in Hm.
    destruct (p c); [|discriminate Hm].
    exists (Some c), s. split; [apply suffix_cons_r; reflexivity | exact Hm].
  - exists prev, s. split; [reflexivity | exact Hm].
  - cbn [rmatch] in Hm. apply IH1 in Hm as (p1 & s1 & Hs1 & Hm).
    apply IH2 in Hm as (p2 & s2 & Hs2 & Hm).
    exists p2, s2. split; [etrans; eassumption | exact Hm].
  - cbn [rmatch] in Hm. destruct (rmatch r1 prev s k) eqn:H1.
    + apply IH1 in H1. exact H1.
    + apply IH2 in Hm. exact Hm.
  - rewrite rmatch_Star in Hm.
    assert (Hloop : forall fuel prev s,
               star_loop (rmatch r) k fuel prev s = true ->
               exists prev' s', s' `suffix_of` s /\ k prev' s' = true);
      [|exact (Hloop _ _ _ Hm)].
    clear prev s Hm.
    induction fuel as [|fuel IHf]; intros prev s Hm; cbn [star_loop] in Hm.
    + exists prev, s. split; [reflexivity | exact Hm].
    + destruct (rmatch r prev s _) eqn:Hr.
      * apply IH in Hr as (p1 & s1 & Hs1 & Hr).
        destruct (length s1 <? length s)%nat; [|discriminate Hr].
        apply IHf in Hr as (p2 & s2 & Hs2 & Hr).
        exists p2, s2. split; [etrans; eassumption | exact Hr].
      * exists prev, s. split; [reflexivity | exact Hm].
  - cbn [rmatch] in Hm. destruct (rmatch r prev s _); [discriminate Hm|].
    exists prev, s. split; [reflexivity | exact Hm].
  - cbn [rmatch] in Hm. destruct (xorb _ _); [|discriminate Hm].
    exists prev, s. split; [reflexivity | exact Hm].
Qed.

Lemma rmatch_consumes (q : N -> bool) (r : regex) :
  consumes q r ->
  forall prev s k, rmatch r prev s k = true -> exists c, In c s /\ q c = true.
Proof.
  induction r as [p | | r1 IH1 r2 IH2 | r1 IH1 r2 IH2 | r IH | r IH |];
    intros Hq prev s k Hm; cbn [consumes] in Hq; try contradiction.
  - destruct s as [|c s]; [discriminate Hm|]. cbn [rmatch] in Hm.
    destruct (p c) eqn:Hc; [|discriminate Hm].
    exists c. split; [left; reflexivity | apply Hq, Hc].
  - cbn [rmatch] in Hm. destruct Hq as [Hq | Hq].
    + exact (IH1 Hq _ _ _ Hm).
    + apply rmatch_continues in Hm as (p1 & s1 & [l ->] & Hm).
      destruct (IH2 Hq _ _ _ Hm) as (c & Hin & Hc).
      exists c. split; [apply in_or_app; right; exact Hin | exact Hc].
  - cbn [rmatch] in Hm. destruct Hq as [Hq1 Hq2].
    destruct (rmatch r1 prev s k) eqn:H1.
    + exact (IH1 Hq1 _ _ _ H1).
    + exact (IH2 Hq2 _ _ _ Hm).
Qed.

Lemma search_consumes (q : N -> bool) (r : regex) :
  consumes q r ->
  forall s prev, search r prev s = true -> exists c, In c s /\ q c = true.
Proof.
  intros Hq. induction s as [|x s IH]; intros prev Hs; cbn [search] in Hs.
  - destruct (rmatch r prev [] _) eqn:Hm; [|discriminate Hs].
    exact (rmatch_consumes q r Hq _ _ _ Hm).
  - destruct (rmatch r prev (x :: s) _) eqn:Hm.
    + exact (rmatch_consumes q r Hq _ _ _ Hm).
    + destruct (IH _ Hs) as (c & Hin & Hc).
      exists c. split; [right; exact Hin | exact Hc].
Qed.

Lemma canonicalize_ascii (a c : N) :
  (a < 65 \/ 122 < a \/ 90 < a < 97)%N ->
  (canonicalize c =? canonicalize a)%N = true -> c = a.
Proof.
  intros Ha. unfold canonicalize.
  destruct ((97 <=? a) && (a <=? 122))%N eqn:Hra.
  { apply andb_prop in Hra as [H1 H2]. apply N.leb_le in H1, H2. lia. }
  destruct ((97 <=? c) && (c <=? 122))%N eqn:Hrc; intros Heq; apply N.eqb_eq in Heq.
  - apply andb_prop in Hrc as [H1 H2]. apply N.leb_le in H1, H2. lia.
  - exact Heq.
Qed.

End Consumes.

(** Finds the class of a pattern that only admits the code unit sought. *)
Local Ltac consume :=
  lazymatch goal with
  | |- _ \/ _ => first [left; consume | right; consume]
  | |- False => fail
  | |- _ =>
      let c := fresh "c" in
      let Hc := fresh "Hc" in
      intros c Hc;
      first [ exact Hc
            | apply N.eqb_eq; apply canonicalize_ascii; [lia | exact Hc] ]
  end.

(** X9. A text that the unsafe-content check rejects contains a [<] and a
    [>], or a colon, or an equals sign: a text without [<], [:] and [=]
    always passes the check. *)
Theorem containsUnsafeCharacters_needs (text : jsstring) :
  InputValidator.containsUnsafeCharacters text = true ->
  (In 60%N text /\ In 62%N text) \/ In 58%N text \/ In 61%N text.
Proof.
  unfold InputValidator.containsUnsafeCharacters, InputValidator.unsafePatterns, RegExp.test.
  cbn [existsb]. rewrite !orb_true_iff.
  assert (Hone : forall a r s prev,
             consumes (fun c => (c =? a)%N) r -> RegExp.search r prev s = true -> In a s).
  { intros a r s prev Hq Hs. destruct (search_consumes _ r Hq s prev Hs) as (c & Hin & Hc).
    apply N.eqb_eq in Hc. subst c. exact Hin. }
  intros [Hm | [Hm | [Hm | [Hm | [=]]]]].
  - left. split; refine (Hone _ _ _ _ _ Hm); cbn; consume.
  - left. split; refine (Hone _ _ _ _ _ Hm); cbn; consume.
  - right. left. refine (Hone _ _ _ _ _ Hm). cbn. consume.
  - right. right. refine (Hone _ _ _ _ _ Hm). cbn. consume.
Qed.

Lemma containsUnsafeCharacters_needs_witness :
  (In 60%N (js "<script>alert(1)</script>") /\ In 62%N (js "<script>alert(1)</script>"))
  \/ In 58%N (js "<script>alert(1)</script>") \/ In 61%N (js "<script>alert(1)</script>").
Proof. apply containsUnsafeCharacters_needs. vm_compute. reflexivity. Defined.

(** ** js/todo.js *)

(** X10. The constructor accepts exactly a string id that is not blank, a
    string text whose trimmed length is between 1 and 200, a boolean or
    omitted completion flag, and a valid Date; the fields of the Todo are
    the arguments as given (neither id nor text is trimmed), and an omitted
    flag is [false]. *)
Theorem Todo_new_accepts (id text completed : value) (createdAt : option Z)
    (todo : Todo.t) :
  Todo.new id text completed createdAt = Return todo <->
  id = Some (JString (Todo.id todo)) /\ trim (Todo.id todo) <> []
  /\ text = Some (JString (Todo.text todo))
  /\ (1 <= length (trim (Todo.text todo)) <= 200)%nat
  /\ (completed = None /\ Todo.completed todo = false
      \/ completed = Some (JBool (Todo.completed todo)))
  /\ createdAt = Some (Todo.createdAt todo).
Proof.
  split.
  - intros Hnew. apply new_Return in Hnew as ([Hi Hx] & -> & -> & -> & Hc).
    repeat split; try assumption; apply Hx.
  - destruct todo as [i x c time]. cbn [Todo.id Todo.text Todo.completed Todo.createdAt].
    intros (-> & Hi & -> & Hx & [[-> ->] | ->] & ->).
    + apply new_default_valid; assumption.
    + apply new_valid; assumption.
Qed.

(** X11. [updateText] on a Todo with a valid id succeeds exactly on a string
    whose trimmed length is between 1 and 200; the new Todo carries that
    string as given and the id, completion flag and date of the old one. *)
Theorem updateText_spec (this todo' : Todo.t) (newText : value) :
  trim (Todo.id this) <> [] ->
  Todo.updateText this newText = Return todo' <->
  exists s, newText = Some (JString s)
            /\ (1 <= length (trim s) <= 200)%nat
            /\ todo' = Todo.mk (Todo.id this) s (Todo.completed this) (Todo.createdAt this).
Proof.
  intros Hid. unfold Todo.updateText. split.
  - intros Hnew. apply new_Return in Hnew as ([_ Hx] & [= Hi] & -> & [= Ht] & [[[=] _] | [= Hc]]).
    exists (Todo.text todo'). split; [reflexivity|]. split; [exact Hx|].
    destruct todo'. cbn in *. congruence.
  - intros (s & -> & Hs & ->). apply new_valid; assumption.
Qed.

Lemma updateText_spec_witness :
  Todo.updateText Examples.milk (Some (JString (js " buy <b>oat</b> milk "))) = Return
    (Todo.mk (js "1") (js " buy <b>oat</b> milk ") false 1700000000000)
  <-> exists s, Some (JString (js " buy <b>oat</b> milk ")) = Some (JString s)
                /\ (1 <= length (trim s) <= 200)%nat
                /\ Todo.mk (js "1") (js " buy <b>oat</b> milk ") false 1700000000000
                   = Todo.mk (Todo.id Examples.milk) s (Todo.completed Examples.milk)
                       (Todo.createdAt Examples.milk).
Proof. apply updateText_spec. vm_compute. discriminate. Defined.

Section FromJSON.
Context `{DateEngine}.

(** X12. [fromJSON] accepts objects only (a primitive value, [null] or an
    array makes it throw), and an accepted record holds the id and the text
    of the Todo as strings, a boolean [completed] or none (read as [false]),
    and a [createdAt] from which [new Date] makes the Todo's date. *)
Theorem fromJSON_accepts (json : json) (todo : Todo.t) :
  Todo.fromJSON json = Return todo ->
  exists fields,
    json = JObject fields
    /\ field fields "id" = Some (JString (Todo.id todo))
    /\ field fields "text" = Some (JString (Todo.text todo))
    /\ (field fields "completed" = None /\ Todo.completed todo = false
        \/ field fields "completed" = Some (JBool (Todo.completed todo)))
    /\ Date_new (field fields "createdAt") = Some (Todo.createdAt todo)
    /\ trim (Todo.id todo) <> []
    /\ (1 <= length (trim (Todo.text todo)) <= 200)%nat.
Proof.
  intros Hfrom. unfold Todo.fromJSON in Hfrom.
  destruct json as [| b | x | s | l | fields]; try discriminate Hfrom.
  exists fields. split; [reflexivity|].
    cbn [Todo.getProperty mbind completion_bind] in Hfrom.
    apply new_Return in Hfrom as ([Hi Hx] & Hid & Htext & Hdate & Hc).
    unfold field. repeat split; try assumption; apply Hx.
Qed.

End FromJSON.

Lemma examples_well_formed : well_formed Examples.milk /\ well_formed Examples.mail.
Proof. repeat split; try discriminate; vm_compute; try lia; intros [=]. Qed.

Lemma fromJSON_accepts_witness :
  exists fields,
    Todo.toJSON Examples.milk = JObject fields
    /\ field fields "id" = Some (JString (Todo.id Examples.milk))
    /\ field fields "text" = Some (JString (Todo.text Examples.milk))
    /\ (field fields "completed" = None /\ Todo.completed Examples.milk = false
        \/ field fields "completed" = Some (JBool (Todo.completed Examples.milk)))
    /\ Date_new (field fields "createdAt") = Some (Todo.createdAt Examples.milk)
    /\ trim (Todo.id Examples.milk) <> []
    /\ (1 <= length (trim (Todo.text Examples.milk)) <= 200)%nat.
Proof.
  apply (fromJSON_accepts (Todo.toJSON Examples.milk) Examples.milk).
  apply fromJSON_toJSON. exact (proj1 examples_well_formed).
Defined.

Lemma js_inj (s1 s2 : string) : js s1 = js s2 -> s1 = s2.
Proof.
  unfold js. intros Heq.
  rewrite <- (string_of_list_ascii_of_string s1), <- (string_of_list_ascii_of_string s2).
  f_equal. revert Heq. generalize (list_ascii_of_string s2) as l2.
  induction (list_ascii_of_string s1) as [|a l1 IH]; intros [|b l2]; cbn; try discriminate.
  - reflexivity.
  - intros [= Hab Hl]. f_equal; [|apply IH, Hl].
    rewrite <- (ascii_N_embedding a), <- (ascii_N_embedding b), Hab. reflexivity.
Qed.

Lemma to_int_not_Nil (n : Z) :
  Z.to_int n <> Decimal.Pos Decimal.Nil /\ Z.to_int n <> Decimal.Neg Decimal.Nil.
Proof.
  split; intros Heq; pose proof (DecimalZ.of_to n) as Hn; rewrite Heq in Hn;
    cbn in Hn; subst n; discriminate Heq.
Qed.

Lemma decimal_inj (n n' : Z) : Todo.decimal n = Todo.decimal n' -> n = n'.
Proof.
  unfold Todo.decimal. intros Heq. apply js_inj in Heq.
  apply DecimalZ.to_int_inj.
  destruct (to_int_not_Nil n) as [Hp Hn], (to_int_not_Nil n') as [Hp' Hn'].
  pose proof (NilZero.isi _ Hp Hn) as H1. pose proof (NilZero.isi _ Hp' Hn') as H2.
  rewrite Heq in H1. congruence.
Qed.

Lemma uint_no_underscore (d : Decimal.uint) :
  ~ In 95%N (js (NilEmpty.string_of_uint d)).
Proof.
  induction d; cbn; intros Hin;
    try (destruct Hin as [Hin | Hin]; [discriminate Hin | exact (IHd Hin)]).
  exact Hin.
Qed.

Lemma decimal_no_underscore (n : Z) : ~ In 95%N (Todo.decimal n).
Proof.
  unfold Todo.decimal.
  assert (Hu : forall d, ~ In 95%N (js (NilZero.string_of_uint d))).
  { intros d. destruct d; try apply uint_no_underscore.
    cbn. intros [Hin | []]. discriminate Hin. }
  destruct (Z.to_int n) as [d | d]; cbn [NilZero.string_of_int].
  - apply Hu.
  - intros [Hin | Hin]; [discriminate Hin | exact (Hu d Hin)].
Qed.

Lemma app_sep_inj (l1 l2 r1 r2 : jsstring) (c : N) :
  ~ In c l1 -> ~ In c l2 -> l1 ++ c :: r1 = l2 ++ c :: r2 -> l1 = l2 /\ r1 = r2.
Proof.
  revert l2. induction l1 as [|x l1 IH]; intros [|y l2] H1 H2 Heq; cbn in Heq.
  - injection Heq as ->. split; reflexivity.
  - injection Heq as <- _. destruct H2. left. reflexivity.
  - injection Heq as -> _. destruct H1. left. reflexivity.
  - injection Heq as -> Heq. destruct (IH l2) as [-> ->]; try exact Heq.
    + intros Hin. apply H1. right. exact Hin.
    + intros Hin. apply H2. right. exact Hin.
    + split; reflexivity.
Qed.

(** X13. Generated ids are distinct as soon as the clock or the random part
    differs: the id determines both. *)
Theorem generateId_injective (now now' : Z) (random random' : jsstring) :
  Todo.generateId now random = Todo.generateId now' random' ->
  now = now' /\ random = random'.
Proof.
  unfold Todo.generateId. intros Heq. apply app_inv_head in Heq.
  apply app_sep_inj in Heq as [Hd Hr]; try apply decimal_no_underscore.
  split; [apply decimal_inj, Hd | exact Hr].
Qed.

Lemma generateId_injective_witness :
  1700000000000%Z = 1700000000000%Z /\ js "k3j9x2m1q" = js "k3j9x2m1q".
Proof. apply generateId_injective. reflexivity. Defined.

(** ** js/storage.js *)

Lemma saveTodos_failure (todos : StorageManager.argument) (this : StorageManager.t) :
  StorageResult.success (fst (StorageManager.saveTodos todos this)) = false ->
  snd (StorageManager.saveTodos todos this) = this
  /\ (StorageResult.error (fst (StorageManager.saveTodos todos this))
      = Some StorageManager.MSG_QUOTA
      \/ (forall l, todos <> StorageManager.Array (StorageManager.Instance <$> l))).
Proof.
  unfold StorageManager.saveTodos. destruct todos as [v | l].
  - intros _. split; [reflexivity|]. right. discriminate.
  - destruct (StorageManager.instances l) as [ts|] eqn:Hl.
    + destruct (StorageManager.isLocalStorageAvailable this); [|discriminate].
      destruct (LocalStorage.setItem _ _ _) as [ls'|e]; [discriminate|].
      destruct (String.eqb (name e) "QuotaExceededError"); [|discriminate].
      intros _. split; [reflexivity|]. left. reflexivity.
    + intros _. split; [reflexivity|]. right.
      intros l' [= ->]. rewrite instances_Instance in Hl. discriminate Hl.
Qed.

(** X14. A save that fails changes nothing: the medium, the fallback
    buffer and the availability flag are as before.  The failure is a quota
    error of the medium, unless the argument is not an array of Todos. *)
Theorem saveTodos_failure_unchanged (todos : StorageManager.argument)
    (this : StorageManager.t) :
  StorageResult.success (fst (StorageManager.saveTodos todos this)) = false ->
  snd (StorageManager.saveTodos todos this) = this
  /\ (StorageResult.error (fst (StorageManager.saveTodos todos this))
      = Some StorageManager.MSG_QUOTA
      \/ (forall l, todos <> StorageManager.Array (StorageManager.Instance <$> l))).
Proof. apply saveTodos_failure. Qed.

Lemma saveTodos_failure_unchanged_witness :
  let this := StorageManager.mk true [] (Examples.full ∅) in
  let todos := StorageManager.Array (StorageManager.Instance <$> [Examples.milk]) in
  snd (StorageManager.saveTodos todos this) = this
  /\ (StorageResult.error (fst (StorageManager.saveTodos todos this))
      = Some StorageManager.MSG_QUOTA
      \/ (forall l, todos <> StorageManager.Array (StorageManager.Instance <$> l))).
Proof.
  exact (saveTodos_failure_unchanged
           (StorageManager.Array (StorageManager.Instance <$> [Examples.milk]))
           (StorageManager.mk true [] (Examples.full ∅)) eq_refl).
Defined.

Lemma same_but_refl (key : string) (ls : LocalStorage.t) : same_but key ls ls.
Proof. repeat split; reflexivity. Qed.

Lemma same_but_setItem (key : string) (v : LocalStorage.entry) (ls ls' : LocalStorage.t) :
  LocalStorage.setItem key v ls = Return ls' -> same_but key ls ls'.
Proof.
  unfold LocalStorage.setItem. destruct (LocalStorage.setItem_raises ls key v); [discriminate|].
  intros [= <-]. repeat split. intros k Hk. cbn. apply lookup_insert_ne. congruence.
Qed.

Lemma same_but_removeItem (key : string) (ls ls' : LocalStorage.t) :
  LocalStorage.removeItem key ls = Return ls' -> same_but key ls ls'.
Proof.
  unfold LocalStorage.removeItem. destruct (LocalStorage.removeItem_raises ls key); [discriminate|].
  intros [= <-]. repeat split. intros k Hk. cbn. apply lookup_delete_ne. congruence.
Qed.

Lemma same_but_trans (key : string) (ls1 ls2 ls3 : LocalStorage.t) :
  same_but key ls1 ls2 -> same_but key ls2 ls3 -> same_but key ls1 ls3.
Proof.
  intros (Hi1 & Hs1 & Hg1 & Hr1) (Hi2 & Hs2 & Hg2 & Hr2).
  repeat split; try congruence. intros k Hk. rewrite Hi2, Hi1 by exact Hk. reflexivity.
Qed.

Lemma saveTodos_same_but (todos : StorageManager.argument) (this : StorageManager.t) :
  same_but StorageManager.STORAGE_KEY (StorageManager.localStorage this)
    (StorageManager.localStorage (snd (StorageManager.saveTodos todos this)))
  /\ StorageManager.isLocalStorageAvailable (snd (StorageManager.saveTodos todos this))
     = StorageManager.isLocalStorageAvailable this.
Proof.
  unfold StorageManager.saveTodos. destruct todos as [v | l].
  { split; [apply same_but_refl | reflexivity]. }
  destruct (StorageManager.instances l) as [ts|]; [|split; [apply same_but_refl | reflexivity]].
  destruct (StorageManager.isLocalStorageAvailable this) eqn:Ha;
    [|split; [apply same_but_refl | reflexivity]].
  destruct (LocalStorage.setItem _ _ _) as [ls'|e] eqn:Hset.
  - split; [eapply same_but_setItem, Hset | reflexivity].
  - destruct (String.eqb _ _); (split; [apply same_but_refl | cbn; congruence]).
Qed.

Lemma clearTodos_same_but (this : StorageManager.t) :
  same_but StorageManager.STORAGE_KEY (StorageManager.localStorage this)
    (StorageManager.localStorage (snd (StorageManager.clearTodos this)))
  /\ StorageManager.isLocalStorageAvailable (snd (StorageManager.clearTodos this))
     = StorageManager.isLocalStorageAvailable this.
Proof.
  unfold StorageManager.clearTodos.
  destruct (StorageManager.isLocalStorageAvailable this) eqn:Ha;
    [|split; [apply same_but_refl | reflexivity]].
  destruct (LocalStorage.removeItem _ _) as [ls'|e] eqn:Hrm.
  - split; [eapply same_but_removeItem, Hrm | reflexivity].
  - split; [apply same_but_refl | exact Ha].
Qed.

(** X15. [saveTodos] and [clearTodos] touch one key of the medium only.
    What the medium holds under any other key is as before, and neither
    changes the availability flag. *)
Theorem storage_key_only (this : StorageManager.t) (todos : StorageManager.argument)
    (key : string) :
  key <> StorageManager.STORAGE_KEY ->
  let saved := snd (StorageManager.saveTodos todos this) in
  let cleared := snd (StorageManager.clearTodos this) in
  LocalStorage.items (StorageManager.localStorage saved) !! key
  = LocalStorage.items (StorageManager.localStorage this) !! key
  /\ LocalStorage.items (StorageManager.localStorage cleared) !! key
     = LocalStorage.items (StorageManager.localStorage this) !! key
  /\ StorageManager.isLocalStorageAvailable saved = StorageManager.isLocalStorageAvailable this
  /\ StorageManager.isLocalStorageAvailable cleared
     = StorageManager.isLocalStorageAvailable this.
Proof.
  intros Hkey saved cleared.
  destruct (saveTodos_same_but todos this) as [(Hs & _) Has].
  destruct (clearTodos_same_but this) as [(Hc & _) Hac].
  split; [apply Hs, Hkey|]. split; [apply Hc, Hkey|]. split; assumption.
Qed.

Lemma storage_key_only_witness :
  let this := StorageManager.new
                (Examples.healthy {[ "theme" := LocalStorage.NotJSON (js "dark") ]}) in
  let todos := StorageManager.Array (StorageManager.Instance <$> [Examples.milk]) in
  let saved := snd (StorageManager.saveTodos todos this) in
  let cleared := snd (StorageManager.clearTodos this) in
  LocalStorage.items (StorageManager.localStorage saved) !! "theme"
  = LocalStorage.items (StorageManager.localStorage this) !! "theme"
  /\ LocalStorage.items (StorageManager.localStorage cleared) !! "theme"
     = LocalStorage.items (StorageManager.localStorage this) !! "theme"
  /\ StorageManager.isLocalStorageAvailable saved = StorageManager.isLocalStorageAvailable this
  /\ StorageManager.isLocalStorageAvailable cleared
     = StorageManager.isLocalStorageAvailable this.
Proof.
  apply (storage_key_only
           (StorageManager.new
              (Examples.healthy {[ "theme" := LocalStorage.NotJSON (js "dark") ]}))
           (StorageManager.Array (StorageManager.Instance <$> [Examples.milk]))
           "theme").
  discriminate.
Defined.

Section Clear.
Context `{DateEngine}.

Lemma clearTodos_loads_nil (this : StorageManager.t) :
  StorageResult.success (fst (StorageManager.clearTodos this)) = true ->
  StorageResult.data (StorageManager.loadTodos (snd (StorageManager.clearTodos this)))
  = Some [].
Proof.
  unfold StorageManager.clearTodos.
  destruct (StorageManager.isLocalStorageAvailable this) eqn:Ha.
  - unfold LocalStorage.removeItem.
    destruct (LocalStorage.removeItem_raises _ _); [discriminate|]. intros _.
    unfold StorageManager.loadTodos, LocalStorage.getItem.
    cbn [snd StorageManager.isLocalStorageAvailable StorageManager.localStorage
         LocalStorage.getItem_raises LocalStorage.items].
    destruct (LocalStorage.getItem_raises _ _); [reflexivity|].
    rewrite lookup_delete_eq. reflexivity.
  - intros _. reflexivity.
Qed.

(** X16. After a successful [clearTodos] the fallback buffer is empty and
    [loadTodos] returns the empty sequence; a failed [clearTodos] (the
    removal from the medium raised) changes nothing, the fallback buffer
    included. *)
Theorem clearTodos_spec (this : StorageManager.t) :
  let '(result, this') := StorageManager.clearTodos this in
  if StorageResult.success result
  then StorageManager.fallbackData this' = []
       /\ StorageResult.data (StorageManager.loadTodos this') = Some []
  else this' = this
       /\ StorageManager.isLocalStorageAvailable this = true
       /\ exists e,
            LocalStorage.removeItem_raises (StorageManager.localStorage this)
              StorageManager.STORAGE_KEY = Some e
            /\ StorageResult.error result
               = Some ("データのクリアに失敗しました: " +:+ message e).
Proof.
  pose proof (clearTodos_loads_nil this) as Hload.
  unfold StorageManager.clearTodos in *.
  destruct (StorageManager.isLocalStorageAvailable this) eqn:Ha.
  - unfold LocalStorage.removeItem in *.
    destruct (LocalStorage.removeItem_raises _ _) as [e|] eqn:Hrm.
    + cbn. split; [reflexivity|]. split; [reflexivity|]. exists e. split; reflexivity.
    + cbn [StorageResult.success StorageResult.ok]. split; [reflexivity|].
      apply Hload. reflexivity.
  - cbn [StorageResult.success StorageResult.ok]. split; [reflexivity|].
    apply Hload. reflexivity.
Qed.

Lemma invalidFrom_valid (todos : list Todo.t) :
  Forall valid todos -> forall i, StorageManager.invalidFrom i todos = [].
Proof.
  induction 1 as [|todo todos [Hi Hx] _ IH]; intros i; [reflexivity|].
  cbn [StorageManager.invalidFrom].
  apply id_ok_nonempty in Hi. apply text_ok_nonempty in Hx.
  destruct (Todo.id todo); [contradiction|]. destruct (Todo.text todo); [contradiction|].
  cbn. apply IH.
Qed.

Lemma validateStorageData_Return (this : StorageManager.t) :
  exists todos,
    StorageResult.data (StorageManager.loadTodos this) = Some todos
    /\ StorageManager.validateStorageData this
       = Return (StorageResult.ok (Some (length todos))).
Proof.
  destruct (loadTodos_success this) as [Hs [todos Hdata]].
  exists todos. split; [exact Hdata|].
  unfold StorageManager.validateStorageData. rewrite Hs, Hdata. cbn [negb].
  rewrite (invalidFrom_valid todos (loadTodos_valid this todos Hdata)). reflexivity.
Qed.

(** X17. [validateStorageData] never reports a problem and never throws:
    whatever the medium holds, it returns a success with the number of
    tasks that [loadTodos] returns, since a record that does not make a
    valid Todo is dropped by [loadTodos] before the check sees it. *)
Theorem validateStorageData_always_succeeds (this : StorageManager.t) :
  exists todos,
    StorageResult.data (StorageManager.loadTodos this) = Some todos
    /\ StorageManager.validateStorageData this
       = Return (StorageResult.ok (Some (length todos))).
Proof. apply validateStorageData_Return. Qed.

End Clear.

Lemma checkLocalStorageSupport_spec (ls : LocalStorage.t) :
  let testKey := "__localStorage_test__" in
  let '(available, ls') := StorageManager.checkLocalStorageSupport ls in
  same_but testKey ls ls'
  /\ (available = true <->
      LocalStorage.setItem_raises ls testKey (LocalStorage.NotJSON (js "test")) = None
      /\ LocalStorage.removeItem_raises ls testKey = None)
  /\ (available = true -> LocalStorage.items ls' !! testKey = None).
Proof.
  cbv zeta. unfold StorageManager.checkLocalStorageSupport.
  destruct (LocalStorage.setItem _ _ ls) as [ls1|e] eqn:Hset.
  - pose proof (same_but_setItem _ _ _ _ Hset) as H1.
    unfold LocalStorage.setItem in Hset.
    destruct (LocalStorage.setItem_raises ls _ _) eqn:Hsr; [discriminate|].
    destruct (LocalStorage.removeItem _ ls1) as [ls2|e] eqn:Hrm.
    + pose proof (same_but_removeItem _ _ _ Hrm) as H2.
      unfold LocalStorage.removeItem in Hrm.
      destruct (LocalStorage.removeItem_raises ls1 _) eqn:Hrr; [discriminate|].
      injection Hrm as <-. injection Hset as <-. cbn in Hrr.
      split; [exact (same_but_trans _ _ _ _ H1 H2)|].
      split; [split; [intros _; split; [reflexivity | exact Hrr] | reflexivity]|].
      intros _. cbn. apply lookup_delete_eq.
    + unfold LocalStorage.removeItem in Hrm.
      destruct (LocalStorage.removeItem_raises ls1 _) eqn:Hrr; [|discriminate].
      injection Hset as <-. cbn in Hrr.
      split; [exact H1|]. split; [|discriminate].
      split; [discriminate | intros [_ Hno]; congruence].
  - unfold LocalStorage.setItem in Hset.
    destruct (LocalStorage.setItem_raises ls _ _) eqn:Hsr; [|discriminate].
    split; [apply same_but_refl|]. split; [|discriminate].
    split; [discriminate | intros [Hno _]; discriminate Hno].
Qed.

(** X18. The probe of the constructor: the manager starts with an empty
    fallback buffer, and it takes the medium for available exactly when
    writing and removing the test key raise nothing.  The probe leaves
    every other key of the medium as it was (the stored task list in
    particular), and no test entry behind when it succeeds. *)
Theorem StorageManager_new_probe (ls : LocalStorage.t) :
  let testKey := "__localStorage_test__" in
  let this := StorageManager.new ls in
  StorageManager.fallbackData this = []
  /\ (StorageManager.isLocalStorageAvailable this = true <->
      LocalStorage.setItem_raises ls testKey (LocalStorage.NotJSON (js "test")) = None
      /\ LocalStorage.removeItem_raises ls testKey = None)
  /\ (forall key, key <> testKey ->
        LocalStorage.items (StorageManager.localStorage this) !! key
        = LocalStorage.items ls !! key)
  /\ (StorageManager.isLocalStorageAvailable this = true ->
      LocalStorage.items (StorageManager.localStorage this) !! testKey = None).
Proof.
  cbv zeta. unfold StorageManager.new.
  pose proof (checkLocalStorageSupport_spec ls) as Hprobe. cbv zeta in Hprobe.
  destruct (StorageManager.checkLocalStorageSupport ls) as [available ls'].
  destruct Hprobe as ((Hitems & _) & Hiff & Hgone).
  cbn [StorageManager.fallbackData StorageManager.isLocalStorageAvailable
       StorageManager.localStorage].
  split; [reflexivity|]. split; [exact Hiff|]. split; [exact Hitems | exact Hgone].
Qed.

(** ** js/app.js: the mutations *)

Lemma save_failure (l : list Todo.t) (sm : StorageManager.t) :
  StorageResult.success (fst (TodoApp.save l sm)) = false ->
  snd (TodoApp.save l sm) = sm
  /\ StorageResult.error (fst (TodoApp.save l sm)) = Some StorageManager.MSG_QUOTA.
Proof.
  intros Hfail. destruct (saveTodos_failure _ _ Hfail) as [Hsm [Hq | Hno]].
  - split; assumption.
  - destruct (Hno l eq_refl).
Qed.

Lemma addTodo_failure (app : TodoApp.t) (text : value) (now : Z) (random : jsstring) :
  TodoApp.success (fst (TodoApp.addTodo text now random app)) = false ->
  snd (TodoApp.addTodo text now random app) = app.
Proof.
  unfold TodoApp.addTodo.
  destruct (negb (ValidationResult.isValid _)); [reflexivity|].
  destruct (Todo.new _ _ _ _) as [newTodo|e]; [|reflexivity].
  cbv zeta. pose proof (save_failure (TodoApp.todos app ++ [newTodo])
                          (TodoApp.storageManager app)) as Hsave.
  destruct (TodoApp.save _ _) as [saveResult sm]. cbn [fst snd] in Hsave.
  destruct (StorageResult.success saveResult); cbn [negb]; [discriminate|].
  intros _. destruct (Hsave eq_refl) as [-> _]. cbn [snd].
  rewrite removelast_last. destruct app; reflexivity.
Qed.

Lemma toggleTodo_failure (app : TodoApp.t) (id : value) :
  TodoApp.success (fst (TodoApp.toggleTodo id app)) = false ->
  snd (TodoApp.toggleTodo id app) = app.
Proof.
  unfold TodoApp.toggleTodo.
  destruct (TodoApp.idArgument id) as [s|]; [|reflexivity].
  destruct (TodoApp.findIndex _ _) as [[i cur]|] eqn:Hfind; [|reflexivity].
  apply findIndex_Some in Hfind as (Hi & _).
  destruct (Todo.toggle cur) as [tog|e]; [|reflexivity].
  cbv zeta. pose proof (save_failure (<[i := tog]> (TodoApp.todos app))
                          (TodoApp.storageManager app)) as Hsave.
  destruct (TodoApp.save _ _) as [saveResult sm]. cbn [fst snd] in Hsave.
  destruct (StorageResult.success saveResult); cbn [negb]; [discriminate|].
  intros _. destruct (Hsave eq_refl) as [-> _]. cbn [snd].
  rewrite list_insert_insert_eq, list_insert_id by exact Hi. destruct app; reflexivity.
Qed.

Lemma deleteTodo_failure (app : TodoApp.t) (id : value) :
  TodoApp.success (fst (TodoApp.deleteTodo id app)) = false ->
  snd (TodoApp.deleteTodo id app) = app.
Proof.
  unfold TodoApp.deleteTodo.
  destruct (TodoApp.idArgument id) as [s|]; [|reflexivity].
  destruct (TodoApp.findIndex _ _) as [[i cur]|] eqn:Hfind; [|reflexivity].
  apply findIndex_Some in Hfind as (Hi & _).
  cbv zeta. pose proof (save_failure (delete i (TodoApp.todos app))
                          (TodoApp.storageManager app)) as Hsave.
  destruct (TodoApp.save _ _) as [saveResult sm]. cbn [fst snd] in Hsave.
  destruct (StorageResult.success saveResult); cbn [negb]; [discriminate|].
  intros _. destruct (Hsave eq_refl) as [-> _]. cbn [snd].
  rewrite splice_in_delete by exact Hi. destruct app; reflexivity.
Qed.

Lemma clearTodos_failure (sm : StorageManager.t) :
  StorageResult.success (fst (StorageManager.clearTodos sm)) = false ->
  snd (StorageManager.clearTodos sm) = sm.
Proof.
  unfold StorageManager.clearTodos.
  destruct (StorageManager.isLocalStorageAvailable sm); [|discriminate].
  destruct (LocalStorage.removeItem _ _); [discriminate | reflexivity].
Qed.

Lemma clearAllTodos_failure (app : TodoApp.t) :
  TodoApp.success (fst (TodoApp.clearAllTodos app)) = false ->
  snd (TodoApp.clearAllTodos app) = app.
Proof.
  unfold TodoApp.clearAllTodos.
  pose proof (clearTodos_failure (TodoApp.storageManager app)) as Hclear.
  destruct (StorageManager.clearTodos _) as [clearResult sm]. cbn [fst snd] in Hclear.
  destruct (StorageResult.success clearResult); cbn [negb]; [discriminate|].
  intros _. rewrite (Hclear eq_refl). destruct app; reflexivity.
Qed.

(** X19. A mutation that reports a failure leaves the whole registry as it
    was: the task sequence, the storage manager with its medium and fallback
    buffer, the initialization flag and the warnings.  This holds for every
    cause of failure (rejected input, unknown id, constructor error, failed
    save or clear). *)
Theorem failed_mutation_unchanged (app : TodoApp.t) (text id : value)
    (now : Z) (random : jsstring) :
  (TodoApp.success (fst (TodoApp.addTodo text now random app)) = false ->
   snd (TodoApp.addTodo text now random app) = app)
  /\ (TodoApp.success (fst (TodoApp.toggleTodo id app)) = false ->
      snd (TodoApp.toggleTodo id app) = app)
  /\ (TodoApp.success (fst (TodoApp.deleteTodo id app)) = false ->
      snd (TodoApp.deleteTodo id app) = app)
  /\ (TodoApp.success (fst (TodoApp.clearAllTodos app)) = false ->
      snd (TodoApp.clearAllTodos app) = app).
Proof.
  split; [apply addTodo_failure|]. split; [apply toggleTodo_failure|].
  split; [apply deleteTodo_failure | apply clearAllTodos_failure].
Qed.

Lemma addTodo_success_inv (app : TodoApp.t) (text : value) (now : Z) (random : jsstring) :
  TodoApp.success (fst (TodoApp.addTodo text now random app)) = true ->
  exists s,
    let newTodo := Todo.mk (Todo.generateId now random)
                     (InputValidator.sanitizeText text) false now in
    text = Some (JString s)
    /\ ValidationResult.isValid (InputValidator.validateTaskText text) = true
    /\ valid newTodo
    /\ TodoApp.addTodo text now random app
       = (TodoApp.mkResult true (Some newTodo) None None,
          TodoApp.mk (TodoApp.todos app ++ [newTodo])
            (snd (TodoApp.save (TodoApp.todos app ++ [newTodo]) (TodoApp.storageManager app)))
            (TodoApp.initialized app) (TodoApp.warnings app))
    /\ StorageResult.success
         (fst (TodoApp.save (TodoApp.todos app ++ [newTodo]) (TodoApp.storageManager app)))
       = true.
Proof.
  unfold TodoApp.addTodo.
  destruct (ValidationResult.isValid (InputValidator.validateTaskText text)) eqn:Hvalid;
    cbn [negb]; [|discriminate].
  pose proof Hvalid as Hv. apply validateTaskText_valid in Hv as (s & -> & _).
  replace (trim (InputValidator.sanitizeText (Some (JString s))))
    with (InputValidator.sanitizeText (Some (JString s)))
    by (cbn [InputValidator.sanitizeText]; rewrite trim_idempotent; reflexivity).
  destruct (Todo.new _ _ _ _) as [newTodo|e] eqn:Hnew; [|discriminate].
  apply new_Return in Hnew as (Hnv & [= Hi] & [= Hx] & [= Ht] & [[_ Hc] | [=]]).
  assert (newTodo = Todo.mk (Todo.generateId now random)
                      (InputValidator.sanitizeText (Some (JString s))) false now) as ->.
  { destruct newTodo. cbn in *. congruence. }
  cbv zeta. destruct (TodoApp.save _ _) as [saveResult sm].
  destruct (StorageResult.success saveResult) eqn:Hs; cbn [negb]; [|discriminate].
  intros _. exists s. repeat split; try assumption; apply Hnv.
Qed.



(** X21. [toggleTodo] never changes which tasks there are: after it, whether
    it succeeds or not, the ids, the texts and the dates of the sequence are
    the same, in the same order. *)
Theorem toggleTodo_preserves (app : TodoApp.t) (id : value) :
  let app' := snd (TodoApp.toggleTodo id app) in
  Todo.id <$> TodoApp.getAllTodos app' = Todo.id <$> TodoApp.getAllTodos app
  /\ Todo.text <$> TodoApp.getAllTodos app' = Todo.text <$> TodoApp.getAllTodos app
  /\ Todo.createdAt <$> TodoApp.getAllTodos app' = Todo.createdAt <$> TodoApp.getAllTodos app
  /\ TodoApp.getTodoCount app' = TodoApp.getTodoCount app.
Proof.
  cbv zeta. unfold TodoApp.getAllTodos, TodoApp.getTodoCount.
  destruct (TodoApp.success (fst (TodoApp.toggleTodo id app))) eqn:Hs;
    [|rewrite (toggleTodo_failure _ _ Hs); repeat split; reflexivity].
  revert Hs. unfold TodoApp.toggleTodo.
  destruct (TodoApp.idArgument id) as [s|]; [|discriminate].
  destruct (TodoApp.findIndex _ _) as [[i cur]|] eqn:Hfind; [|discriminate].
  apply findIndex_Some in Hfind as (Hi & _).
  destruct (Todo.toggle cur) as [tog|e] eqn:Htoggle; [|discriminate].
  apply toggle_Return in Htoggle as [_ ->].
  cbv zeta. destruct (TodoApp.save _ _) as [saveResult sm].
  destruct (StorageResult.success saveResult); cbn [negb]; [|discriminate].
  intros _. cbn [snd TodoApp.todos].
  rewrite !list_fmap_insert, length_insert. cbn [toggled Todo.id Todo.text Todo.createdAt].
  repeat split; try reflexivity; apply list_insert_id; rewrite list_lookup_fmap, Hi; reflexivity.
Qed.

(** X22. A successful [deleteTodo] removes exactly the first task with the
    given id and returns it: the other tasks keep their order, the count
    drops by one, and when the ids of the sequence are distinct no task
    with that id is left. *)
Theorem deleteTodo_success_removes (app : TodoApp.t) (id : value) :
  TodoApp.success (fst (TodoApp.deleteTodo id app)) = true ->
  let app' := snd (TodoApp.deleteTodo id app) in
  exists i todo,
    id = Some (JString (Todo.id todo))
    /\ TodoApp.getAllTodos app !! i = Some todo
    /\ (forall j other, TodoApp.getAllTodos app !! j = Some other -> (j < i)%nat ->
          Todo.id other <> Todo.id todo)
    /\ TodoApp.deletedTodo (fst (TodoApp.deleteTodo id app)) = Some todo
    /\ TodoApp.getAllTodos app' = delete i (TodoApp.getAllTodos app)
    /\ S (TodoApp.getTodoCount app') = TodoApp.getTodoCount app
    /\ (NoDup (Todo.id <$> TodoApp.getAllTodos app) ->
        forall other, In other (TodoApp.getAllTodos app') -> Todo.id other <> Todo.id todo).
Proof.
  cbv zeta. unfold TodoApp.getAllTodos, TodoApp.getTodoCount, TodoApp.deleteTodo.
  destruct (TodoApp.idArgument id) as [s|] eqn:Hid; [|discriminate].
  assert (id = Some (JString s)) as ->.
  { unfold TodoApp.idArgument in Hid. destruct id as [[]|]; try discriminate Hid.
    destruct (length _ =? 0)%nat; [discriminate Hid | congruence]. }
  destruct (TodoApp.findIndex _ _) as [[i cur]|] eqn:Hfind; [|discriminate].
  apply findIndex_Some in Hfind as (Hi & <- & Hfirst).
  cbv zeta. destruct (TodoApp.save _ _) as [saveResult sm].
  destruct (StorageResult.success saveResult); cbn [negb]; [|discriminate].
  intros _. cbn [fst snd TodoApp.todos TodoApp.deletedTodo].
  exists i, cur. split; [reflexivity|]. split; [exact Hi|]. split; [exact Hfirst|].
  split; [reflexivity|]. split; [reflexivity|].
  pose proof (lookup_lt_Some _ _ _ Hi) as Hlt.
  split; [rewrite length_delete by eauto; lia|].
  intros Hnodup other Hin Heq.
  apply list_elem_of_In, list_elem_of_lookup in Hin as [j Hj].
  rewrite NoDup_alt in Hnodup.
  destruct (decide (j < i)%nat) as [Hji | Hji].
  - rewrite list_lookup_delete_lt in Hj by exact Hji.
    exact (Hfirst j other Hj Hji Heq).
  - rewrite list_lookup_delete_ge in Hj by lia.
    assert (S j = i); [|lia].
    apply (Hnodup (S j) i (Todo.id cur)); rewrite list_lookup_fmap.
    + rewrite Hj. cbn. congruence.
    + rewrite Hi. reflexivity.
Qed.

Lemma deleteTodo_success_removes_witness :
  let app := TodoApp.mk [Examples.milk; Examples.mail]
               (StorageManager.new (Examples.healthy ∅)) true [] in
  let id := Some (JString (js "1")) in
  let app' := snd (TodoApp.deleteTodo id app) in
  exists i todo,
    id = Some (JString (Todo.id todo))
    /\ TodoApp.getAllTodos app !! i = Some todo
    /\ (forall j other, TodoApp.getAllTodos app !! j = Some other -> (j < i)%nat ->
          Todo.id other <> Todo.id todo)
    /\ TodoApp.deletedTodo (fst (TodoApp.deleteTodo id app)) = Some todo
    /\ TodoApp.getAllTodos app' = delete i (TodoApp.getAllTodos app)
    /\ S (TodoApp.getTodoCount app') = TodoApp.getTodoCount app
    /\ (NoDup (Todo.id <$> TodoApp.getAllTodos app) ->
        forall other, In other (TodoApp.getAllTodos app') -> Todo.id other <> Todo.id todo).
Proof.
  apply (deleteTodo_success_removes
           (TodoApp.mk [Examples.milk; Examples.mail]
              (StorageManager.new (Examples.healthy ∅)) true [])
           (Some (JString (js "1")))).
  vm_compute. reflexivity.
Defined.

(** X23. [toggleTodo] and [deleteTodo] with an id that no task of the
    sequence has report a failure and change nothing.  The message is the
    type message for a value that is not a string and for the empty string,
    and the not-found message otherwise. *)
Theorem unknown_id_rejected (app : TodoApp.t) (id : value) :
  (forall todo, In todo (TodoApp.getAllTodos app) -> id <> Some (JString (Todo.id todo))) ->
  let reason :=
    match id with
    | Some (JString (_ :: _)) => TodoApp.MSG_NOT_FOUND
    | _ => TodoApp.MSG_ID_TYPE
    end in
  TodoApp.toggleTodo id app = (TodoApp.mkResult false None None (Some reason), app)
  /\ TodoApp.deleteTodo id app = (TodoApp.mkResult false None None (Some reason), app).
Proof.
  intros Hnone. cbv zeta. unfold TodoApp.toggleTodo, TodoApp.deleteTodo.
  destruct id as [[| b | x | [|c s] | l | fields]|]; cbn [TodoApp.idArgument length Nat.eqb];
    try (split; reflexivity).
  destruct (TodoApp.findIndex (c :: s) (TodoApp.todos app)) as [[i cur]|] eqn:Hfind;
    [|split; reflexivity].
  apply findIndex_Some in Hfind as (Hi & Hid & _).
  destruct (Hnone cur); [|rewrite Hid; reflexivity].
  apply list_elem_of_In, list_elem_of_lookup. exists i. exact Hi.
Qed.

Lemma unknown_id_rejected_witness :
  let app := TodoApp.mk [Examples.milk; Examples.mail]
               (StorageManager.new (Examples.healthy ∅)) true [] in
  TodoApp.toggleTodo (Some (JString (js "3"))) app
  = (TodoApp.mkResult false None None (Some TodoApp.MSG_NOT_FOUND), app)
  /\ TodoApp.deleteTodo (Some (JString (js "3"))) app
     = (TodoApp.mkResult false None None (Some TodoApp.MSG_NOT_FOUND), app).
Proof.
  apply (unknown_id_rejected
           (TodoApp.mk [Examples.milk; Examples.mail]
              (StorageManager.new (Examples.healthy ∅)) true [])
           (Some (JString (js "3")))).
  intros todo [<- | [<- | []]]; discriminate.
Defined.

Section ClearAll.
Context `{DateEngine}.

(** X24. A successful [clearAllTodos] empties the sequence and the store:
    the fallback buffer is empty and [loadTodos] returns the empty sequence.
    A failed one restores the registry as it was. *)
Theorem clearAllTodos_spec (app : TodoApp.t) :
  let '(result, app') := TodoApp.clearAllTodos app in
  if TodoApp.success result
  then TodoApp.getAllTodos app' = []
       /\ StorageManager.fallbackData (TodoApp.storageManager app') = []
       /\ StorageResult.data (StorageManager.loadTodos (TodoApp.storageManager app'))
          = Some []
  else app' = app.
Proof.
  pose proof (clearAllTodos_failure app) as Hfail.
  pose proof (clearTodos_loads_nil (TodoApp.storageManager app)) as Hload.
  unfold TodoApp.clearAllTodos in *.
  destruct (StorageManager.clearTodos (TodoApp.storageManager app)) as [clearResult sm] eqn:Hc.
  cbn [fst snd] in Hload.
  destruct (StorageResult.success clearResult) eqn:Hs; cbn [negb] in *.
  - cbn [TodoApp.success TodoApp.getAllTodos TodoApp.todos TodoApp.storageManager].
    split; [reflexivity|]. split; [|apply Hload; reflexivity].
    unfold StorageManager.clearTodos in Hc.
    destruct (StorageManager.isLocalStorageAvailable _);
      [destruct (LocalStorage.removeItem _ _)|]; injection Hc as <- <-;
      try reflexivity; discriminate Hs.
  - cbn [TodoApp.success TodoApp.failure]. apply Hfail. reflexivity.
Qed.

End ClearAll.

(** ** js/app.js: what is saved is what the next session loads *)

Section Reload.
Context `{DateEngine}.

Lemma new_working (ls : LocalStorage.t) :
  working ls ->
  StorageManager.isLocalStorageAvailable (StorageManager.new ls) = true
  /\ working (StorageManager.localStorage (StorageManager.new ls))
  /\ LocalStorage.items (StorageManager.localStorage (StorageManager.new ls))
       !! StorageManager.STORAGE_KEY
     = LocalStorage.items ls !! StorageManager.STORAGE_KEY.
Proof.
  intros (Hset & Hget & Hrm). unfold StorageManager.new.
  pose proof (checkLocalStorageSupport_spec ls) as Hprobe. cbv zeta in Hprobe.
  destruct (StorageManager.checkLocalStorageSupport ls) as [available ls'].
  destruct Hprobe as ((Hitems & Hs & Hg & Hr) & Hiff & _).
  cbn [StorageManager.isLocalStorageAvailable StorageManager.localStorage].
  split; [apply Hiff; split; [apply Hset | apply Hrm]|].
  split; [|apply Hitems; discriminate].
  unfold working. rewrite Hs, Hg, Hr. repeat split; assumption.
Qed.

Lemma reload_stored (sm : StorageManager.t) (l : list Todo.t) (b : bool) (w : list string)
    (records : list json) :
  working (StorageManager.localStorage sm) ->
  LocalStorage.items (StorageManager.localStorage sm) !! StorageManager.STORAGE_KEY
  = Some (LocalStorage.Doc (JArray records)) ->
  TodoApp.todos (reload (TodoApp.mk l sm b w)) = StorageManager.restore records.
Proof.
  intros Hw Hstored. unfold reload. cbn [TodoApp.storageManager].
  destruct (new_working _ Hw) as (Ha & (_ & Hget & _) & Hitems).
  unfold TodoApp.initialize, TodoApp.new. cbn [TodoApp.storageManager].
  unfold StorageManager.loadTodos, LocalStorage.getItem.
  rewrite Ha, Hget, Hitems, Hstored. cbn. rewrite Ha. reflexivity.
Qed.

Lemma reload_absent (sm : StorageManager.t) (l : list Todo.t) (b : bool) (w : list string) :
  working (StorageManager.localStorage sm) ->
  LocalStorage.items (StorageManager.localStorage sm) !! StorageManager.STORAGE_KEY = None ->
  TodoApp.todos (reload (TodoApp.mk l sm b w)) = [].
Proof.
  intros Hw Hstored. unfold reload. cbn [TodoApp.storageManager].
  destruct (new_working _ Hw) as (Ha & (_ & Hget & _) & Hitems).
  unfold TodoApp.initialize, TodoApp.new. cbn [TodoApp.storageManager].
  unfold StorageManager.loadTodos, LocalStorage.getItem.
  rewrite Ha, Hget, Hitems, Hstored. cbn. rewrite Ha. reflexivity.
Qed.

Lemma save_working (l : list Todo.t) (sm : StorageManager.t) :
  working (StorageManager.localStorage sm) ->
  StorageManager.isLocalStorageAvailable sm = true ->
  working (StorageManager.localStorage (snd (TodoApp.save l sm)))
  /\ LocalStorage.items (StorageManager.localStorage (snd (TodoApp.save l sm)))
       !! StorageManager.STORAGE_KEY
     = Some (LocalStorage.Doc (JArray (Todo.toJSON <$> l))).
Proof.
  intros Hw Ha. pose proof Hw as (Hset & _ & _).
  unfold TodoApp.save, StorageManager.saveTodos, LocalStorage.setItem.
  rewrite instances_Instance, Ha, Hset.
  cbn [snd StorageManager.localStorage LocalStorage.items].
  split; [exact Hw | apply lookup_insert_eq].
Qed.

Lemma save_reload (l : list Todo.t) (sm : StorageManager.t) (b : bool) (w : list string) :
  working (StorageManager.localStorage sm) ->
  StorageManager.isLocalStorageAvailable sm = true ->
  Forall well_formed l ->
  TodoApp.todos (reload (TodoApp.mk l (snd (TodoApp.save l sm)) b w)) = l.
Proof.
  intros Hw Ha Hl. destruct (save_working l sm Hw Ha) as [Hw' Hstored].
  rewrite (reload_stored _ _ _ _ _ Hw' Hstored). apply restore_toJSON, Hl.
Qed.

(** X25. What a session saves is what the next session finds.  With a medium
    that works and is in use, and a sequence of well-formed tasks, after a
    successful [addTodo], [toggleTodo] or [deleteTodo] a new registry
    initialized from the medium holds the same sequence as the registry that
    made the change; after a successful [clearAllTodos] it is empty. *)
Theorem mutations_survive_reload (app : TodoApp.t) (text id : value) (now : Z)
    (random : jsstring) :
  working (StorageManager.localStorage (TodoApp.storageManager app)) ->
  StorageManager.isLocalStorageAvailable (TodoApp.storageManager app) = true ->
  Forall well_formed (TodoApp.getAllTodos app) ->
  JSDate.time_ok now ->
  (TodoApp.success (fst (TodoApp.addTodo text now random app)) = true ->
   TodoApp.getAllTodos (reload (snd (TodoApp.addTodo text now random app)))
   = TodoApp.getAllTodos (snd (TodoApp.addTodo text now random app)))
  /\ (TodoApp.success (fst (TodoApp.toggleTodo id app)) = true ->
      TodoApp.getAllTodos (reload (snd (TodoApp.toggleTodo id app)))
      = TodoApp.getAllTodos (snd (TodoApp.toggleTodo id app)))
  /\ (TodoApp.success (fst (TodoApp.deleteTodo id app)) = true ->
      TodoApp.getAllTodos (reload (snd (TodoApp.deleteTodo id app)))
      = TodoApp.getAllTodos (snd (TodoApp.deleteTodo id app)))
  /\ (TodoApp.success (fst (TodoApp.clearAllTodos app)) = true ->
      TodoApp.getAllTodos (reload (snd (TodoApp.clearAllTodos app))) = []).
Proof.
  unfold TodoApp.getAllTodos. intros Hw Ha Hl Hnow.
  split; [|split; [|split]].
  - intros Hs. destruct (addTodo_success_inv _ _ _ _ Hs) as (s & _ & _ & Hv & -> & _).
    cbn [snd TodoApp.todos]. apply save_reload; try assumption.
    apply Forall_app. split; [exact Hl|]. constructor; [|constructor].
    split; [exact Hv | exact Hnow].
  - unfold TodoApp.toggleTodo.
    destruct (TodoApp.idArgument id) as [s|]; [|discriminate].
    destruct (TodoApp.findIndex _ _) as [[i cur]|] eqn:Hfind; [|discriminate].
    apply findIndex_Some in Hfind as (Hi & _).
    destruct (Todo.toggle cur) as [tog|e] eqn:Htoggle; [|discriminate].
    apply toggle_Return in Htoggle as [_ ->].
    cbv zeta. destruct (TodoApp.save _ _) as [saveResult sm] eqn:Hsave.
    destruct (StorageResult.success saveResult); cbn [negb]; [|discriminate].
    intros _. cbn [snd TodoApp.todos].
    replace sm with (snd (TodoApp.save (<[i := toggled cur]> (TodoApp.todos app))
                            (TodoApp.storageManager app))) by (rewrite Hsave; reflexivity).
    apply save_reload; try assumption.
    apply Forall_insert; [exact Hl|].
    apply (Forall_lookup_1 _ _ _ _ Hl) in Hi. exact Hi.
  - unfold TodoApp.deleteTodo.
    destruct (TodoApp.idArgument id) as [s|]; [|discriminate].
    destruct (TodoApp.findIndex _ _) as [[i cur]|] eqn:Hfind; [|discriminate].
    cbv zeta. destruct (TodoApp.save _ _) as [saveResult sm] eqn:Hsave.
    destruct (StorageResult.success saveResult); cbn [negb]; [|discriminate].
    intros _. cbn [snd TodoApp.todos].
    replace sm with (snd (TodoApp.save (delete i (TodoApp.todos app))
                            (TodoApp.storageManager app))) by (rewrite Hsave; reflexivity).
    apply save_reload; try assumption. apply Forall_delete, Hl.
  - unfold TodoApp.clearAllTodos, StorageManager.clearTodos, LocalStorage.removeItem.
    pose proof Hw as (_ & _ & Hrm). rewrite Ha, Hrm. cbn [negb StorageResult.success
      StorageResult.ok]. intros _. cbn [snd].
    apply reload_absent; [exact Hw | apply lookup_delete_eq].
Qed.

End Reload.

Lemma mutations_survive_reload_witness :
  let app := TodoApp.mk [Examples.milk; Examples.mail]
               (StorageManager.new (Examples.healthy ∅)) true [] in
  let text := Some (JString (js "water the plants")) in
  let id := Some (JString (js "2")) in
  let now := 1700000000456%Z in
  let random := js "k3j9x2m1q" in
  TodoApp.getAllTodos (reload (snd (TodoApp.addTodo text now random app)))
  = TodoApp.getAllTodos (snd (TodoApp.addTodo text now random app))
  /\ TodoApp.getAllTodos (reload (snd (TodoApp.toggleTodo id app)))
     = TodoApp.getAllTodos (snd (TodoApp.toggleTodo id app))
  /\ TodoApp.getAllTodos (reload (snd (TodoApp.deleteTodo id app)))
     = TodoApp.getAllTodos (snd (TodoApp.deleteTodo id app))
  /\ TodoApp.getAllTodos (reload (snd (TodoApp.clearAllTodos app))) = [].
Proof.
  destruct (mutations_survive_reload
              (TodoApp.mk [Examples.milk; Examples.mail]
                 (StorageManager.new (Examples.healthy ∅)) true [])
              (Some (JString (js "water the plants"))) (Some (JString (js "2")))
              1700000000456 (js "k3j9x2m1q"))
    as (Hadd & Htoggle & Hdelete & Hclear).
  - repeat split.
  - reflexivity.
  - constructor; [apply examples_well_formed|].
    constructor; [apply examples_well_formed | constructor].
  - vm_compute. split; intros [=].
  - split; [apply Hadd; vm_compute; reflexivity|].
    split; [apply Htoggle; vm_compute; reflexivity|].
    split; [apply Hdelete; vm_compute; reflexivity | apply Hclear; vm_compute; reflexivity].
Defined.

(** ** js/app.js: storage errors, health and recovery *)

(** X26. The storage error that a failed save of the registry hands to
    [handleStorageError] is always the quota message: the failure text of
    the mutation contains the marker that routes it to the handler, and the
    handler signals the quota warning and nothing else. *)
Theorem save_failure_is_quota (app : TodoApp.t) (l : list Todo.t) :
  StorageResult.success (fst (TodoApp.save l (TodoApp.storageManager app))) = false ->
  exists error,
    TodoApp.error (TodoApp.saveFailed (fst (TodoApp.save l (TodoApp.storageManager app))))
    = Some error
    /\ TodoApp.includes "保存に失敗しました" error = true
    /\ TodoApp.handleStorageError error app
       = TodoApp.showStorageWarning TodoApp.W_QUOTA app.
Proof.
  intros Hfail. destruct (save_failure _ _ Hfail) as [_ Herr].
  unfold TodoApp.saveFailed. rewrite Herr. cbn [default TodoApp.failure TodoApp.error].
  eexists. split; [reflexivity|]. split; [vm_compute; reflexivity|].
  unfold TodoApp.handleStorageError.
  replace (TodoApp.includes _ _) with true by (vm_compute; reflexivity).
  reflexivity.
Qed.

Lemma save_failure_is_quota_witness :
  let app := TodoApp.mk [] (StorageManager.mk true [] (Examples.full ∅)) true [] in
  exists error,
    TodoApp.error
      (TodoApp.saveFailed (fst (TodoApp.save [Examples.milk] (TodoApp.storageManager app))))
    = Some error
    /\ TodoApp.includes "保存に失敗しました" error = true
    /\ TodoApp.handleStorageError error app
       = TodoApp.showStorageWarning TodoApp.W_QUOTA app.
Proof.
  exact (save_failure_is_quota
           (TodoApp.mk [] (StorageManager.mk true [] (Examples.full ∅)) true [])
           [Examples.milk] eq_refl).
Defined.

Section Health.
Context `{DateEngine}.

(** X27. [checkStorageHealth] leaves the tasks alone and reports at most two
    issues: the medium is not in use, and the test write hit the quota.  It
    never reports an integrity problem or a check error, whatever the medium
    holds; the result is healthy exactly when neither issue is there. *)
Theorem checkStorageHealth_spec (app : TodoApp.t) :
  let sm := TodoApp.storageManager app in
  let '(health, app') := TodoApp.checkStorageHealth app in
  TodoApp.getAllTodos app' = TodoApp.getAllTodos app
  /\ TodoApp.issues health
     = (if StorageManager.isLocalStorageAvailable sm then [] else [TodoApp.ISSUE_UNAVAILABLE])
       ++ fst (TodoApp.probeCapacity (StorageManager.localStorage sm))
  /\ Forall (fun issue => issue = TodoApp.ISSUE_UNAVAILABLE \/ issue = TodoApp.ISSUE_QUOTA)
       (TodoApp.issues health)
  /\ (TodoApp.healthy health = true <->
      StorageManager.isLocalStorageAvailable sm = true
      /\ fst (TodoApp.probeCapacity (StorageManager.localStorage sm)) = []).
Proof.
  cbv zeta. unfold TodoApp.checkStorageHealth.
  destruct (validateStorageData_Return (TodoApp.storageManager app)) as (todos & _ & ->).
  cbn [StorageManager.getStorageInfo StorageManager.info_isLocalStorageAvailable
       StorageResult.success StorageResult.ok negb].
  rewrite app_nil_r.
  assert (Hprobe : Forall (fun issue => issue = TodoApp.ISSUE_UNAVAILABLE
                                        \/ issue = TodoApp.ISSUE_QUOTA)
                     (fst (TodoApp.probeCapacity
                             (StorageManager.localStorage (TodoApp.storageManager app))))).
  { unfold TodoApp.probeCapacity.
    destruct (LocalStorage.setItem _ _ _) as [ls1|e].
    - destruct (LocalStorage.removeItem _ _) as [ls2|e]; cbn [fst]; [constructor|].
      destruct (String.eqb _ _); [constructor; [right; reflexivity | constructor] | constructor].
    - cbn [fst].
      destruct (String.eqb _ _); [constructor; [right; reflexivity | constructor] | constructor]. }
  destruct (TodoApp.probeCapacity _) as [issues3 ls]. cbn [fst] in *.
  cbn [TodoApp.getAllTodos TodoApp.todos TodoApp.issues TodoApp.healthy].
  split; [reflexivity|].
  destruct (StorageManager.isLocalStorageAvailable (TodoApp.storageManager app));
    cbn [negb List.app].
  - split; [reflexivity|]. split; [exact Hprobe|]. rewrite length_eqb_0.
    split; [intros ->; split; reflexivity|]. intros [_ ->]. reflexivity.
  - split; [reflexivity|]. split; [constructor; [left; reflexivity | exact Hprobe]|].
    split; [discriminate | intros [[=] _]].
Qed.

End Health.

(** X28. [attemptStorageRecovery] leaves the tasks alone and sets the
    availability flag to the outcome of a new probe of the medium.  It
    returns [true] with the fallback warning when the probe fails; when the
    probe succeeds it returns [false] without a warning on an empty
    sequence, and otherwise the outcome of saving the sequence, with the
    recovery warning on success. *)
Theorem attemptStorageRecovery_spec (app : TodoApp.t) :
  let sm := TodoApp.storageManager app in
  let '(available, ls) :=
    StorageManager.checkLocalStorageSupport (StorageManager.localStorage sm) in
  let '(recovered, app') := TodoApp.attemptStorageRecovery app in
  let saved :=
    TodoApp.save (TodoApp.todos app)
      (StorageManager.mk true (StorageManager.fallbackData sm) ls) in
  TodoApp.getAllTodos app' = TodoApp.getAllTodos app
  /\ TodoApp.initialized app' = TodoApp.initialized app
  /\ StorageManager.isLocalStorageAvailable (TodoApp.storageManager app') = available
  /\ (available = false ->
      recovered = true
      /\ TodoApp.warnings app' = TodoApp.warnings app ++ [TodoApp.W_FALLBACK])
  /\ (available = true -> TodoApp.getAllTodos app = [] ->
      recovered = false /\ TodoApp.warnings app' = TodoApp.warnings app)
  /\ (available = true -> TodoApp.getAllTodos app <> [] ->
      recovered = StorageResult.success (fst saved)
      /\ TodoApp.storageManager app' = snd saved
      /\ TodoApp.warnings app'
         = TodoApp.warnings app
           ++ (if StorageResult.success (fst saved) then [TodoApp.W_RECOVERED] else [])).
Proof.
  cbv zeta. unfold TodoApp.attemptStorageRecovery, TodoApp.getAllTodos.
  destruct (StorageManager.checkLocalStorageSupport _) as [available ls].
  destruct available; cbn [andb].
  - destruct (TodoApp.todos app) as [|todo l] eqn:Hl; cbn [length Nat.ltb Nat.leb].
    + cbn. do 3 (split; [reflexivity|]).
      split; [discriminate|]. split; [intros _ _; split; reflexivity|].
      intros _ Hne. destruct Hne. reflexivity.
    + pose proof (saveTodos_same_but
                    (StorageManager.Array (StorageManager.Instance <$> todo :: l))
                    (StorageManager.mk true
                       (StorageManager.fallbackData (TodoApp.storageManager app)) ls))
        as [_ Hflag].
      fold (TodoApp.save (todo :: l)
              (StorageManager.mk true
                 (StorageManager.fallbackData (TodoApp.storageManager app)) ls)) in Hflag.
      destruct (TodoApp.save _ _) as [saveResult sm2]. cbn [fst snd] in *.
      destruct (StorageResult.success saveResult).
      * cbn. do 2 (split; [reflexivity|]). split; [exact Hflag|].
        split; [discriminate|]. split; [discriminate|].
        intros _ _. repeat split; reflexivity.
      * cbn [TodoApp.storageManager]. rewrite Hflag. cbn. rewrite app_nil_r.
        do 2 (split; [reflexivity|]). split; [exact Hflag|].
        split; [discriminate|]. split; [discriminate|].
        intros _ _. repeat split; reflexivity.
  - cbn. do 3 (split; [reflexivity|]).
    split; [intros _; split; reflexivity|]. split; discriminate.
Qed.
